(** * ModenaV1: DNS / WHOIS collectors and the scan orchestrator

    A shallow embedding of
      - [app/scrapers/dns.py]        (module [Dns]),
      - [app/scrapers/whois.py]      (module [Whois]),
      - [app/scrapers/subdomains.py] (module [Subdomains]),
      - [app/routers/scans.py] with the tables of [app/models.py]
        (module [Scans]),
      - [app/routers/domains.py]     (module [Domains]),
    followed by the properties of the specification that concern them
    and by further properties of the same code.

    Conventions.  Python [str] values are Rocq strings; a text is kept as
    the bytes of its UTF-8 encoding, so that [bytes.decode()] is the
    identity on valid input.  A Python call that may raise returns a
    [result]; statements that mutate a list or the database session are
    written in state-passing style. *)

From Stdlib Require Import List String Ascii Bool Arith NArith ZArith Lia.
From Stdlib.Strings Require Import Byte.
From Stdlib Require Import DecimalString Sorted Permutation OrderedTypeEx.
Import ListNotations.
Open Scope string_scope.

(* ================================================================== *)
(** * Python runtime: exceptions, results, text *)
(* ================================================================== *)

Module Py.

(** The exception classes the three collectors and the router can meet.
    Every one of them derives from [Exception]. *)
Inductive exn_class : Type :=
| Exception
| NXDOMAIN            (* dns.resolver.NXDOMAIN *)
| NoAnswer            (* dns.resolver.NoAnswer *)
| NoNameservers       (* dns.resolver.NoNameservers *)
| Timeout             (* dns.exception.Timeout *)
| PywhoisError        (* whois.parser.PywhoisError *)
| UnicodeDecodeError
| TypeError
| AttributeError
| ValueError
| SQLAlchemyError
| PendingRollbackError (* sqlalchemy.exc.PendingRollbackError *)
| HTTPException_class.

Inductive exn : Type :=
| Exn (c : exn_class) (msg : string)
| HTTPException (status_code : nat) (detail : string).

Definition class_of (e : exn) : exn_class :=
  match e with
  | Exn c _ => c
  | HTTPException _ _ => HTTPException_class
  end.

Definition class_eqb (a b : exn_class) : bool :=
  match a, b with
  | Exception, Exception | NXDOMAIN, NXDOMAIN | NoAnswer, NoAnswer
  | NoNameservers, NoNameservers | Timeout, Timeout
  | PywhoisError, PywhoisError | UnicodeDecodeError, UnicodeDecodeError
  | TypeError, TypeError | AttributeError, AttributeError
  | ValueError, ValueError | SQLAlchemyError, SQLAlchemyError
  | PendingRollbackError, PendingRollbackError
  | HTTPException_class, HTTPException_class => true
  | _, _ => false
  end.

(** The nearest modelled class a class derives from: a
    [UnicodeDecodeError] is a [ValueError], a [PendingRollbackError] a
    [SQLAlchemyError], and the others have no modelled base but
    [Exception]. *)
Definition parent (c : exn_class) : exn_class :=
  match c with
  | UnicodeDecodeError => ValueError
  | PendingRollbackError => SQLAlchemyError
  | _ => Exception
  end.

(** [isinstance(e, c)]: the class of [e] is [c] or derives from it. *)
Definition isinstance (e : exn) (c : exn_class) : bool :=
  class_eqb (class_of e) c || class_eqb (parent (class_of e)) c
  || class_eqb c Exception.

Definition string_of_nat (n : nat) : string :=
  NilZero.string_of_uint (Nat.to_uint n).

Definition string_of_N (n : N) : string :=
  NilZero.string_of_uint (N.to_uint n).

(** [str(e)] *)
Definition str_exn (e : exn) : string :=
  match e with
  | Exn _ msg => msg
  | HTTPException code detail => string_of_nat code ++ ": " ++ detail
  end.

Inductive result (A : Type) : Type :=
| Ret (a : A)
| Raise (e : exn).
Arguments Ret {A} a.
Arguments Raise {A} e.

Definition bind {A B} (r : result A) (k : A -> result B) : result B :=
  match r with
  | Ret a => k a
  | Raise e => Raise e
  end.

(** Attribute access on a duck-typed object: an attribute the object does
    not have raises [AttributeError]. *)
Definition getattr {A} (name : string) (field : option A) : result A :=
  match field with
  | Some v => Ret v
  | None => Raise (Exn AttributeError ("object has no attribute '" ++ name ++ "'"))
  end.

(** ** Text *)

Definition dot : ascii := "."%char.

(** [s.rstrip(c)] for a one-character set: every trailing [c] is removed. *)
Fixpoint rstrip (c : ascii) (s : string) : string :=
  match s with
  | EmptyString => EmptyString
  | String a rest =>
      match rstrip c rest with
      | EmptyString => if Ascii.eqb a c then EmptyString else String a EmptyString
      | rest' => String a rest'
      end
  end.

(** [s.endswith(c)] *)
Fixpoint endswith (s : string) (c : ascii) : bool :=
  match s with
  | EmptyString => false
  | String a EmptyString => Ascii.eqb a c
  | String _ rest => endswith rest c
  end.

(** [c * n] *)
Fixpoint repeat_char (c : ascii) (n : nat) : string :=
  match n with
  | O => EmptyString
  | S n' => String c (repeat_char c n')
  end.

(** [str.lower()] on ASCII text: the capitals A to Z move by 32.  The
    bytes of a character outside ASCII are left as they are; the texts
    lower-cased here are host names, which are ASCII (an international
    name travels in its [xn--] form). *)
Definition lower_char (a : ascii) : ascii :=
  let n := nat_of_ascii a in
  if ((65 <=? n) && (n <=? 90))%nat
  then ascii_of_nat (n + 32)
  else a.

Fixpoint lower (s : string) : string :=
  match s with
  | EmptyString => EmptyString
  | String a rest => String (lower_char a) (lower rest)
  end.

(** ** [bytes.decode()]: strict UTF-8 *)

Definition in_range (lo hi b : N) : bool := ((lo <=? b) && (b <=? hi))%N.

Definition continuation (b : N) : bool := in_range 128 191 b.

(** Second byte of a three-byte sequence: no overlong form, no surrogate. *)
Definition second_of_3 (b0 b1 : N) : bool :=
  if (b0 =? 224)%N then in_range 160 191 b1
  else if (b0 =? 237)%N then in_range 128 159 b1
  else continuation b1.

(** Second byte of a four-byte sequence: no overlong form, at most U+10FFFF. *)
Definition second_of_4 (b0 b1 : N) : bool :=
  if (b0 =? 240)%N then in_range 144 191 b1
  else if (b0 =? 244)%N then in_range 128 143 b1
  else continuation b1.

Fixpoint utf8_valid (l : list N) : bool :=
  match l with
  | [] => true
  | b0 :: r0 =>
      if (b0 <? 128)%N then utf8_valid r0
      else
        match r0 with
        | [] => false
        | b1 :: r1 =>
            if in_range 194 223 b0 then continuation b1 && utf8_valid r1
            else
              match r1 with
              | [] => false
              | b2 :: r2 =>
                  if in_range 224 239 b0
                  then second_of_3 b0 b1 && continuation b2 && utf8_valid r2
                  else
                    match r2 with
                    | [] => false
                    | b3 :: r3 =>
                        in_range 240 244 b0 && second_of_4 b0 b1
                        && continuation b2 && continuation b3 && utf8_valid r3
                    end
              end
        end
  end.

Definition decode (b : list byte) : result string :=
  if utf8_valid (map Byte.to_N b)
  then Ret (string_of_list_byte b)
  else Raise (Exn UnicodeDecodeError "'utf-8' codec can't decode bytes").

(** ** [datetime] *)

Record datetime : Type := {
  year : nat; month : nat; day : nat;
  hour : nat; minute : nat; second : nat; microsecond : nat
}.

(** [s.zfill(width)] for a string of digits *)
Definition zfill (width : nat) (s : string) : string :=
  repeat_char "0" (width - String.length s) ++ s.

(** [str(d)]: ISO format with a space between date and time; the
    fraction is printed only when it is not zero. *)
Definition str_datetime (d : datetime) : string :=
  zfill 4 (string_of_nat (year d)) ++ "-" ++ zfill 2 (string_of_nat (month d))
  ++ "-" ++ zfill 2 (string_of_nat (day d)) ++ " "
  ++ zfill 2 (string_of_nat (hour d)) ++ ":" ++ zfill 2 (string_of_nat (minute d))
  ++ ":" ++ zfill 2 (string_of_nat (second d))
  ++ (if (microsecond d =? 0)%nat then ""
      else "." ++ zfill 6 (string_of_nat (microsecond d))).

(** ** Values of mixed shape

    The fields of a parsed WHOIS entry arrive as [None], a string, a
    [datetime], a number, or a list of such values. *)
#[warnings="-register-all"]
Inductive value : Type :=
| VNone
| VStr (s : string)
| VDatetime (d : datetime)
| VInt (z : Z)
| VList (items : list value).

(** Truth value of an object in a condition. *)
Definition truthy (v : value) : bool :=
  match v with
  | VNone => false
  | VStr s => negb (s =? "")
  | VDatetime _ => true
  | VInt z => negb (z =? 0)%Z
  | VList items => match items with [] => false | _ => true end
  end.

Definition string_of_Z (z : Z) : string :=
  NilZero.string_of_int (Z.to_int z).

(** ** Sets and sorting of strings *)

(** [list(set(l))]: the distinct elements; Python leaves the order of
    enumeration open, [sorted] below does not depend on it. *)
Definition list_set (l : list string) : list string := nodup string_dec l.

Fixpoint insert_sorted (x : string) (l : list string) : list string :=
  match l with
  | [] => [x]
  | y :: rest => if String.leb x y then x :: l else y :: insert_sorted x rest
  end.

(** [sorted(l)] on strings: ascending in the order of code points, which
    is the order of the UTF-8 bytes. *)
Fixpoint sorted (l : list string) : list string :=
  match l with
  | [] => []
  | x :: rest => insert_sorted x (sorted rest)
  end.

(** The order [sorted] is specified against: lexicographic on code points. *)
Definition str_lt : string -> string -> Prop := String_as_OT.lt.

Definition str_le (a b : string) : Prop := String.leb a b = true.

End Py.
Import Py.

Notation "x <- c1 ;; c2" := (Py.bind c1 (fun x => c2))
  (at level 61, c1 at next level, right associativity).

(* ================================================================== *)
(** * app/scrapers/dns.py *)
(* ================================================================== *)

Module Dns.

(** A domain name as dnspython holds it in an answer: the labels of an
    absolute name, the empty root label left implicit.  Each label is
    held as the text [Name.to_text] prints for it, that is with a dot, a
    backslash or a byte outside the printable range already escaped. *)
Definition dns_name := list string.

(** [str(name)] (dnspython's [Name.to_text]): an absolute name is printed
    with its final root dot, the root itself as a single dot. *)
Definition name_str (n : dns_name) : string :=
  match n with
  | [] => "."
  | _ => String.concat "" (map (fun label => label ++ ".") n)
  end.

(** An element of [rdata.strings]. *)
Inductive segment : Type :=
| Bytes (b : list byte)
| Text (s : string).

(** One resource record of an answer, as far as the code looks at it:
    its printed form and the attributes the normalizer reads.  An
    attribute the record's class does not have is [None]. *)
Record rdata : Type := {
  rd_str : string;                       (* str(rdata) *)
  rd_exchange : option dns_name;         (* rdata.exchange   (MX)  *)
  rd_preference : option Z;              (* rdata.preference (MX)  *)
  rd_strings : option (list segment);    (* rdata.strings    (TXT) *)
  rd_mname : option dns_name;            (* rdata.mname      (SOA) *)
  rd_rname : option dns_name;            (* rdata.rname      (SOA) *)
  rd_serial : option N                   (* rdata.serial     (SOA) *)
}.

Definition RECORD_TYPES : list string :=
  ["A"; "AAAA"; "MX"; "TXT"; "NS"; "CNAME"; "SOA"].

(** [s.decode() if isinstance(s, bytes) else s] *)
Definition segment_text (s : segment) : result string :=
  match s with
  | Bytes b => decode b
  | Text t => Ret t
  end.

(** The list comprehension of the TXT branch, evaluated left to right. *)
Fixpoint decode_all (l : list segment) : result (list string) :=
  match l with
  | [] => Ret []
  | s :: rest =>
      t <- segment_text s ;;
      ts <- decode_all rest ;;
      Ret (t :: ts)
  end.

Definition _extract_record_value (rdata : rdata) (record_type : string)
  : result string :=
  if record_type =? "MX" then
    exchange <- getattr "exchange" (rd_exchange rdata) ;;
    Ret (rstrip dot (name_str exchange))
  else if record_type =? "TXT" then
    strings <- getattr "strings" (rd_strings rdata) ;;
    texts <- decode_all strings ;;
    Ret (String.concat "" texts)
  else if record_type =? "SOA" then
    mname <- getattr "mname" (rd_mname rdata) ;;
    rname <- getattr "rname" (rd_rname rdata) ;;
    serial <- getattr "serial" (rd_serial rdata) ;;
    Ret (name_str mname ++ " " ++ name_str rname
         ++ " (serial: " ++ string_of_N serial ++ ")")
  else
    Ret (rstrip dot (rd_str rdata)).

(** The dictionary built for one record; the key [priority] is present
    for MX only. *)
Record record : Type := {
  record_type : string;
  record_value : string;
  ttl : Z;
  priority : option Z
}.

(** What [resolver.resolve(domain, record_type)] gives back: the answer
    set with its TTL, or one of the resolver's exceptions. *)
Record answers : Type := {
  answers_ttl : Z;
  answers_rdata : list rdata
}.

Definition resolver := string -> string -> result answers.

(** Body of the inner [for rdata in answers] loop: the dictionary
    built for one record. *)
Definition build_record (rtype : string) (ans_ttl : Z) (rdata : rdata)
  : result record :=
  value <- _extract_record_value rdata rtype ;;
  if rtype =? "MX" then
    preference <- getattr "preference" (rd_preference rdata) ;;
    Ret {| record_type := rtype; record_value := value;
           ttl := ans_ttl; priority := Some preference |}
  else
    Ret {| record_type := rtype; record_value := value;
           ttl := ans_ttl; priority := None |}.

(** The inner loop.  [results] is the list being appended to; when a
    record raises, the records appended before it stay in the list. *)
Fixpoint append_records (rtype : string) (ans_ttl : Z) (rdatas : list rdata)
    (results : list record) : list record * option exn :=
  match rdatas with
  | [] => (results, None)
  | rdata :: rest =>
      match build_record rtype ans_ttl rdata with
      | Ret r => append_records rtype ans_ttl rest (results ++ [r])%list
      | Raise e => (results, Some e)
      end
  end.

(** The [try] block of one iteration of the outer loop. *)
Definition try_body (resolve : resolver) (domain rtype : string)
    (results : list record) : list record * option exn :=
  match resolve domain rtype with
  | Raise e => (results, Some e)
  | Ret a => append_records rtype (answers_ttl a) (answers_rdata a) results
  end.

(** The outer [for record_type in RECORD_TYPES] loop with its [except]
    clauses in source order.  The second component logs the record types
    handed to [resolver.resolve], one entry per call. *)
Fixpoint scan_types (resolve : resolver) (domain : string)
    (types : list string) (results : list record) (calls : list string)
  : result (list record) * list string :=
  match types with
  | [] => (Ret results, calls)
  | rtype :: rest =>
      let calls := (calls ++ [rtype])%list in
      match try_body resolve domain rtype results with
      | (results, None) => scan_types resolve domain rest results calls
      | (results, Some e) =>
          if isinstance e NXDOMAIN then (Ret results, calls)            (* break *)
          else if isinstance e NoAnswer then
            scan_types resolve domain rest results calls                (* continue *)
          else if isinstance e NoNameservers then
            scan_types resolve domain rest results calls
          else if isinstance e Timeout then
            scan_types resolve domain rest results calls
          else if isinstance e Exception then
            scan_types resolve domain rest results calls
          else (Raise e, calls)
      end
  end.

(** [scan_dns_records].  The resolver object, built and given its
    timeout before the loop, is the parameter [resolve]; building it is
    not part of the model. *)
Definition scan_dns_records_traced (resolve : resolver) (domain : string)
  : result (list record) * list string :=
  scan_types resolve domain RECORD_TYPES [] [].

Definition scan_dns_records (resolve : resolver) (domain : string)
  : result (list record) :=
  fst (scan_dns_records_traced resolve domain).

(** The record types queried, in call order. *)
Definition resolver_calls (resolve : resolver) (domain : string) : list string :=
  snd (scan_dns_records_traced resolve domain).

(** What one record type adds to an empty result list. *)
Definition collected (resolve : resolver) (domain rtype : string) : list record :=
  fst (try_body resolve domain rtype []).

End Dns.

(* ================================================================== *)
(** * app/scrapers/whois.py *)
(* ================================================================== *)

Module Whois.

(** The parsed entry [whois.whois(domain)] returns.  An entry answers
    every attribute read (a field the registry did not send reads as
    [None]), and always carries the raw response in [text]. *)
Record WhoisEntry : Type := {
  w_domain_name : value;
  w_registrar : value;
  w_creation_date : value;
  w_expiration_date : value;
  w_updated_date : value;
  w_name_servers : value;
  w_country : value;
  w_text : string
}.

(** The dictionary [scan_whois] returns. *)
Record whois_result : Type := {
  registrar : value;
  creation_date : option datetime;
  expiration_date : option datetime;
  updated_date : option datetime;
  name_servers : option (list string);
  registrant_country : value;
  raw_data : option string
}.

Definition _safe_get (v : value) : value :=
  match v with
  | VNone => VNone
  | VList items =>
      match items with
      | first :: _ => first
      | [] => VNone
      end
  | VStr s => VStr s
  | VDatetime d => VStr (str_datetime d)
  | VInt z => VStr (string_of_Z z)
  end.

(** Iterating a value: lists yield their items, scalars are not iterable.
    (A string is iterable too, but the only caller wraps a lone string in
    a list first.) *)
Definition iterate (v : value) : result (list value) :=
  match v with
  | VList items => Ret items
  | VStr s => Ret (map (fun c => VStr (String c EmptyString)) (list_ascii_of_string s))
  | _ => Raise (Exn TypeError "object is not iterable")
  end.

(** [[ns.lower().rstrip(".") for ns in ns_value if ns]] *)
Fixpoint lowered_entries (items : list value) : result (list string) :=
  match items with
  | [] => Ret []
  | ns :: rest =>
      if truthy ns then
        match ns with
        | VStr s =>
            tail <- lowered_entries rest ;;
            Ret (rstrip dot (lower s) :: tail)
        | _ => Raise (Exn AttributeError "object has no attribute 'lower'")
        end
      else lowered_entries rest
  end.

Definition _normalize_nameservers (ns_value : value)
  : result (option (list string)) :=
  match ns_value with
  | VNone => Ret None
  | _ =>
      let ns_value :=
        match ns_value with
        | VStr s => VList [VStr s]
        | other => other
        end in
      items <- iterate ns_value ;;
      entries <- lowered_entries items ;;
      let nameservers := list_set entries in
      match nameservers with
      | [] => Ret None
      | _ => Ret (Some (sorted nameservers))
      end
  end.

(** The entries a list of name-server strings is expected to produce:
    the non-empty ones, lower-cased, trailing dots removed. *)
Definition cleaned (names : list string) : list string :=
  map (fun ns => rstrip dot (lower ns)) (filter (fun ns => negb (ns =? "")) names).

Section Lookup.

(** [datetime.fromisoformat]: the formats accepted depend on the
    interpreter's version, so the parser is a parameter; on text it does
    not accept it raises [ValueError]. *)
Variable fromisoformat : string -> result datetime.

(** [whois.whois]: one lookup at the registry. *)
Variable whois_lookup : string -> result WhoisEntry.

Definition _normalize_date (date_value : value) : result (option datetime) :=
  match date_value with
  | VNone => Ret None
  | _ =>
      let date_value :=
        match date_value with
        | VList items =>
            match items with
            | first :: _ => first
            | [] => VNone
            end
        | other => other
        end in
      match date_value with
      | VDatetime d => Ret (Some d)
      | VStr s =>
          match fromisoformat s with
          | Ret d => Ret (Some d)
          | Raise e => if isinstance e ValueError then Ret None else Raise e
          end
      | _ => Ret None
      end
  end.

(** The [try] block of [scan_whois]. *)
Definition scan_whois_body (domain : string) : result (option whois_result) :=
  w <- whois_lookup domain ;;
  match w_domain_name w with
  | VNone => Ret None
  | _ =>
      let registrar := _safe_get (w_registrar w) in
      creation_date <- _normalize_date (w_creation_date w) ;;
      expiration_date <- _normalize_date (w_expiration_date w) ;;
      updated_date <- _normalize_date (w_updated_date w) ;;
      name_servers <- _normalize_nameservers (w_name_servers w) ;;
      let registrant_country := _safe_get (w_country w) in
      Ret (Some {| registrar := registrar;
                   creation_date := creation_date;
                   expiration_date := expiration_date;
                   updated_date := updated_date;
                   name_servers := name_servers;
                   registrant_country := registrant_country;
                   raw_data := Some (w_text w) |})
  end.

Definition scan_whois (domain : string) : result (option whois_result) :=
  match scan_whois_body domain with
  | Ret r => Ret r
  | Raise e =>
      if isinstance e PywhoisError then Ret None
      else if isinstance e Exception then Ret None
      else Raise e
  end.

End Lookup.

End Whois.

(* ================================================================== *)
(** * app/scrapers/subdomains.py *)
(* ================================================================== *)

Module Subdomains.

(** One discovered subdomain, as the router reads it. *)
Record subdomain_entry : Type := {
  subdomain_name : string;
  full_domain : string;
  ip_address : option string;
  is_alive : option bool;
  http_status : option Z
}.

(** The dictionary in the body of the stub. *)
Record stub_dict : Type := {
  stub_domain : string;
  stub_subdomains : list subdomain_entry;
  stub_status : string
}.

(** What a call of the collector evaluates to.  Calling a function
    declared [async def] does not run its body: it builds a coroutine
    object around it. *)
Inductive returned : Type :=
| Coroutine (body : stub_dict)
| Sequence (items : list subdomain_entry).

Definition scan_subdomains (domain : string) : returned :=
  Coroutine {| stub_domain := domain;
               stub_subdomains := [];
               stub_status := "not_implemented" |}.

(** [for sub in subdomain_results]: a coroutine object has no [__iter__]. *)
Definition iterate (r : returned) : result (list subdomain_entry) :=
  match r with
  | Sequence items => Ret items
  | Coroutine _ => Raise (Exn TypeError "'coroutine' object is not iterable")
  end.

End Subdomains.

(* ================================================================== *)
(** * app/models.py, app/schemas.py, app/routers/scans.py *)
(* ================================================================== *)

Module Scans.

(** ** Tables *)

Record Domain : Type := {
  d_id : nat;
  d_domain_name : string;
  d_created_at : datetime;
  d_updated_at : datetime;
  d_is_active : bool
}.

Record Scan : Type := {
  s_id : nat;
  s_domain_id : nat;
  s_started_at : datetime;
  s_completed_at : option datetime;
  s_status : string;
  s_error_message : option string
}.

Record DNSRecord : Type := {
  r_id : nat;
  r_scan_id : nat;
  r_record_type : string;
  r_record_value : string;
  r_ttl : option Z;
  r_priority : option Z
}.

Record WhoisData : Type := {
  wd_id : nat;
  wd_scan_id : nat;
  wd_registrar : value;
  wd_creation_date : option datetime;
  wd_expiration_date : option datetime;
  wd_updated_date : option datetime;
  wd_name_servers : option (list string);
  wd_registrant_country : value;
  wd_raw_data : option string
}.

Record Subdomain : Type := {
  sub_id : nat;
  sub_scan_id : nat;
  sub_subdomain_name : string;
  sub_full_domain : string;
  sub_ip_address : option string;
  sub_is_alive : bool;
  sub_http_status : option Z
}.

(** The committed content of the database, each table in insertion order. *)
Record DB : Type := {
  domains : list Domain;
  scans : list Scan;
  dns_records : list DNSRecord;
  whois_data : list WhoisData;
  subdomains : list Subdomain
}.

Definition empty_db : DB :=
  {| domains := []; scans := []; dns_records := [];
     whois_data := []; subdomains := [] |}.

(** An auto-incremented primary key: above every key of the table. *)
Definition next_id (ids : list nat) : nat := S (list_max ids).

(** ** Request and response (schemas.py) *)

Record ScanCreate : Type := {
  domain_name : string;
  include_subdomains : bool;
  include_whois : bool
}.

(** A request body that names the domain only: both flags default to [True]. *)
Definition ScanCreate_defaults (name : string) : ScanCreate :=
  {| domain_name := name; include_subdomains := true; include_whois := true |}.

Record ScanResultResponse : Type := {
  resp_scan : Scan;
  resp_domain : Domain;
  resp_dns_records : list DNSRecord;
  resp_whois : option WhoisData;
  resp_subdomains : list Subdomain
}.

(** ** The session

    SQLAlchemy's unit of work, as far as the router uses it: objects
    handed to [db.add] wait in [pending] until a commit flushes them; the
    [scan] object, once persistent, keeps its attribute values in
    [scan_obj] and a commit writes them back to its row.  A commit that
    raises rolls the transaction back: nothing reaches the database, the
    waiting objects are dropped and the [scan] object is expired.  From
    then on the session is [inactive]: until [db.rollback()] is called,
    which the router never does, whatever needs the database (a commit, the
    load of an expired attribute) raises [PendingRollbackError]. *)

Inductive pending_object : Type :=
| NewDomain (name : string)
| NewScan (domain_id : nat) (status : string)
| NewDNSRecord (scan_id : nat) (rtype value : string) (ttl priority : option Z)
| NewWhoisData (scan_id : nat) (data : Whois.whois_result)
| NewSubdomain (scan_id : nat) (entry : Subdomains.subdomain_entry).

Record Session : Type := {
  db : DB;
  pending : list pending_object;
  domain_obj : option Domain;
  scan_obj : option Scan;
  commits : nat;               (* calls of db.commit() so far *)
  ticks : nat;                 (* readings of the clock so far *)
  inactive : bool              (* a commit raised, no rollback() since *)
}.

(** What surrounds one request: the two lookup capabilities, the date
    parser, the clock, and the fate of each [db.commit()] of the request
    ([commit_raises n] is the exception the database makes the [n]-th
    commit raise, if any). *)
Record Env : Type := {
  resolve : Dns.resolver;
  whois_lookup : string -> result Whois.WhoisEntry;
  fromisoformat : string -> result datetime;
  clock : nat -> datetime;
  commit_raises : nat -> option exn
}.

Definition open_session (d : DB) : Session :=
  {| db := d; pending := []; domain_obj := None; scan_obj := None;
     commits := 0; ticks := 0; inactive := false |}.

(** ** State and exceptions *)

Definition M (A : Type) : Type := Session -> Session * result A.

Definition ret {A} (a : A) : M A := fun s => (s, Ret a).

Definition raise {A} (e : exn) : M A := fun s => (s, Raise e).

Definition lift {A} (r : result A) : M A := fun s => (s, r).

Definition bindM {A B} (m : M A) (k : A -> M B) : M B :=
  fun s =>
    match m s with
    | (s', Ret a) => k a s'
    | (s', Raise e) => (s', Raise e)
    end.

(** [try: body  except Exception as e: handler] *)
Definition try_except {A} (body : M A) (handler : exn -> M A) : M A :=
  fun s =>
    match body s with
    | (s', Ret a) => (s', Ret a)
    | (s', Raise e) =>
        if isinstance e Exception then handler e s' else (s', Raise e)
    end.

Notation "x <~ c1 ;; c2" := (bindM c1 (fun x => c2))
  (at level 61, c1 at next level, right associativity).
Notation "c1 ;;; c2" := (bindM c1 (fun _ => c2))
  (at level 61, right associativity).

Fixpoint for_each {A} (l : list A) (body : A -> M unit) : M unit :=
  match l with
  | [] => ret tt
  | x :: rest => body x ;;; for_each rest body
  end.

(** ** Field updates *)

Definition with_domains (d : DB) (l : list Domain) : DB :=
  {| domains := l; scans := scans d; dns_records := dns_records d;
     whois_data := whois_data d; subdomains := subdomains d |}.

Definition with_scans (d : DB) (l : list Scan) : DB :=
  {| domains := domains d; scans := l; dns_records := dns_records d;
     whois_data := whois_data d; subdomains := subdomains d |}.

Definition with_dns_records (d : DB) (l : list DNSRecord) : DB :=
  {| domains := domains d; scans := scans d; dns_records := l;
     whois_data := whois_data d; subdomains := subdomains d |}.

Definition with_whois_data (d : DB) (l : list WhoisData) : DB :=
  {| domains := domains d; scans := scans d; dns_records := dns_records d;
     whois_data := l; subdomains := subdomains d |}.

Definition with_subdomains (d : DB) (l : list Subdomain) : DB :=
  {| domains := domains d; scans := scans d; dns_records := dns_records d;
     whois_data := whois_data d; subdomains := l |}.

Definition with_status (st : string) (r : Scan) : Scan :=
  {| s_id := s_id r; s_domain_id := s_domain_id r; s_started_at := s_started_at r;
     s_completed_at := s_completed_at r; s_status := st;
     s_error_message := s_error_message r |}.

Definition with_error_message (msg : option string) (r : Scan) : Scan :=
  {| s_id := s_id r; s_domain_id := s_domain_id r; s_started_at := s_started_at r;
     s_completed_at := s_completed_at r; s_status := s_status r;
     s_error_message := msg |}.

Definition with_completed_at (t : option datetime) (r : Scan) : Scan :=
  {| s_id := s_id r; s_domain_id := s_domain_id r; s_started_at := s_started_at r;
     s_completed_at := t; s_status := s_status r;
     s_error_message := s_error_message r |}.

(** ** Session operations *)

(** What an inactive session answers. *)
Definition pending_rollback : exn :=
  Exn PendingRollbackError
    ("This Session's transaction has been rolled back due to a previous "
     ++ "exception during flush. To begin a new transaction with this "
     ++ "Session, first issue Session.rollback().").

Section Request.

Variable env : Env.

(** [datetime.utcnow()] *)
Definition utcnow : M datetime :=
  fun s =>
    ({| db := db s; pending := pending s; domain_obj := domain_obj s;
        scan_obj := scan_obj s; commits := commits s; ticks := S (ticks s);
        inactive := inactive s |},
     Ret (clock env (ticks s))).

(** [db.add(obj)] *)
Definition db_add (o : pending_object) : M unit :=
  fun s =>
    ({| db := db s; pending := (pending s ++ [o])%list; domain_obj := domain_obj s;
        scan_obj := scan_obj s; commits := commits s; ticks := ticks s;
        inactive := inactive s |},
     Ret tt).

(** [db.query(Domain).filter(Domain.domain_name == name).first()] *)
Definition query_domain_first (name : string) : M (option Domain) :=
  fun s =>
    if inactive s then (s, Raise pending_rollback)
    else (s, Ret (find (fun d => d_domain_name d =? name) (domains (db s)))).

Definition find_scan (id : nat) (d : DB) : option Scan :=
  find (fun r => s_id r =? id)%nat (scans d).

Definition find_domain (id : nat) (d : DB) : option Domain :=
  find (fun r => d_id r =? id)%nat (domains d).

(** INSERT of one waiting object, column defaults filled in; the row of a
    new domain or scan becomes the state of the Python object. *)
Definition insert_object (s : Session) (o : pending_object) : Session :=
  match o with
  | NewDomain name =>
      let row := {| d_id := next_id (map d_id (domains (db s)));
                    d_domain_name := name;
                    d_created_at := clock env (ticks s);
                    d_updated_at := clock env (S (ticks s));
                    d_is_active := true |} in
      {| db := with_domains (db s) (domains (db s) ++ [row])%list;
         pending := pending s; domain_obj := Some row; scan_obj := scan_obj s;
         commits := commits s; ticks := S (S (ticks s)); inactive := inactive s |}
  | NewScan domain_id status =>
      let row := {| s_id := next_id (map s_id (scans (db s)));
                    s_domain_id := domain_id;
                    s_started_at := clock env (ticks s);
                    s_completed_at := None;
                    s_status := status;
                    s_error_message := None |} in
      {| db := with_scans (db s) (scans (db s) ++ [row])%list;
         pending := pending s; domain_obj := domain_obj s; scan_obj := Some row;
         commits := commits s; ticks := S (ticks s); inactive := inactive s |}
  | NewDNSRecord scan_id rtype value ttl priority =>
      let row := {| r_id := next_id (map r_id (dns_records (db s)));
                    r_scan_id := scan_id; r_record_type := rtype;
                    r_record_value := value; r_ttl := ttl;
                    r_priority := priority |} in
      {| db := with_dns_records (db s) (dns_records (db s) ++ [row])%list;
         pending := pending s; domain_obj := domain_obj s; scan_obj := scan_obj s;
         commits := commits s; ticks := ticks s; inactive := inactive s |}
  | NewWhoisData scan_id data =>
      let row := {| wd_id := next_id (map wd_id (whois_data (db s)));
                    wd_scan_id := scan_id;
                    wd_registrar := Whois.registrar data;
                    wd_creation_date := Whois.creation_date data;
                    wd_expiration_date := Whois.expiration_date data;
                    wd_updated_date := Whois.updated_date data;
                    wd_name_servers := Whois.name_servers data;
                    wd_registrant_country := Whois.registrant_country data;
                    wd_raw_data := Whois.raw_data data |} in
      {| db := with_whois_data (db s) (whois_data (db s) ++ [row])%list;
         pending := pending s; domain_obj := domain_obj s; scan_obj := scan_obj s;
         commits := commits s; ticks := ticks s; inactive := inactive s |}
  | NewSubdomain scan_id entry =>
      let row := {| sub_id := next_id (map sub_id (subdomains (db s)));
                    sub_scan_id := scan_id;
                    sub_subdomain_name := Subdomains.subdomain_name entry;
                    sub_full_domain := Subdomains.full_domain entry;
                    sub_ip_address := Subdomains.ip_address entry;
                    sub_is_alive :=
                      match Subdomains.is_alive entry with
                      | Some b => b
                      | None => false
                      end;
                    sub_http_status := Subdomains.http_status entry |} in
      {| db := with_subdomains (db s) (subdomains (db s) ++ [row])%list;
         pending := pending s; domain_obj := domain_obj s; scan_obj := scan_obj s;
         commits := commits s; ticks := ticks s; inactive := inactive s |}
  end.

(** UPDATE of the row of the [scan] object with its attribute values. *)
Definition write_back (o : option Scan) (d : DB) : DB :=
  match o with
  | None => d
  | Some obj =>
      with_scans d (map (fun r => if (s_id r =? s_id obj)%nat then obj else r) (scans d))
  end.

(** The [scan] object read again from its row. *)
Definition reload (d : DB) (o : option Scan) : option Scan :=
  match o with
  | None => None
  | Some obj => find_scan (s_id obj) d
  end.

(** [db.commit()].  An inactive session refuses it.  Otherwise the commit
    goes through, or it raises: the transaction is then rolled back and
    the session is left inactive. *)
Definition db_commit : M unit :=
  fun s =>
    if inactive s then
      ({| db := db s; pending := pending s; domain_obj := domain_obj s;
          scan_obj := scan_obj s; commits := S (commits s); ticks := ticks s;
          inactive := true |},
       Raise pending_rollback)
    else
      match commit_raises env (commits s) with
      | Some e =>
          ({| db := db s; pending := []; domain_obj := domain_obj s;
              scan_obj := reload (db s) (scan_obj s);
              commits := S (commits s); ticks := ticks s; inactive := true |},
           Raise e)
      | None =>
          let s1 := fold_left insert_object (pending s) s in
          ({| db := write_back (scan_obj s1) (db s1); pending := [];
              domain_obj := domain_obj s1; scan_obj := scan_obj s1;
              commits := S (commits s); ticks := ticks s1; inactive := false |},
           Ret tt)
      end.

(** [db.refresh(domain)] *)
Definition db_refresh_domain : M Domain :=
  fun s =>
    if inactive s then (s, Raise pending_rollback)
    else
      match domain_obj s with
      | Some obj =>
          match find_domain (d_id obj) (db s) with
          | Some row => (s, Ret row)
          | None => (s, Raise (Exn SQLAlchemyError "Could not refresh instance"))
          end
      | None => (s, Raise (Exn SQLAlchemyError "Instance is not persistent"))
      end.

(** [db.refresh(scan)] *)
Definition db_refresh_scan : M Scan :=
  fun s =>
    if inactive s then (s, Raise pending_rollback)
    else
      match reload (db s) (scan_obj s) with
      | Some row =>
          ({| db := db s; pending := pending s; domain_obj := domain_obj s;
              scan_obj := Some row; commits := commits s; ticks := ticks s;
              inactive := inactive s |},
           Ret row)
      | None => (s, Raise (Exn SQLAlchemyError "Could not refresh instance"))
      end.

(** [scan.id], read for a log line.  The attribute is in memory unless
    the object is expired; in an inactive session it is, by the rollback
    that made the session inactive, and the load of the row is refused. *)
Definition scan_id : M (option nat) :=
  fun s =>
    if inactive s then (s, Raise pending_rollback)
    else (s, Ret (option_map s_id (scan_obj s))).

(** [scan.attr = v] *)
Definition set_scan (f : Scan -> Scan) : M unit :=
  fun s =>
    ({| db := db s; pending := pending s; domain_obj := domain_obj s;
        scan_obj := option_map f (scan_obj s);
        commits := commits s; ticks := ticks s; inactive := inactive s |},
     Ret tt).

(** ** The route *)

(** STEP 1: get or create the domain. *)
Definition get_or_create_domain (name : string) : M Domain :=
  found <~ query_domain_first name ;;
  match found with
  | Some domain => ret domain
  | None =>
      db_add (NewDomain name) ;;;
      db_commit ;;;
      db_refresh_domain
  end.

(** STEP 2: create the scan record.  The log line that follows reads
    [scan.id] from the object just refreshed. *)
Definition create_scan_record (domain : Domain) : M Scan :=
  db_add (NewScan (d_id domain) "running") ;;;
  db_commit ;;;
  db_refresh_scan.

(** STEP 3: run the DNS scan (always). *)
Definition store_dns_records (name : string) (scan : Scan) : M unit :=
  dns_results <~ lift (Dns.scan_dns_records (resolve env) name) ;;
  for_each dns_results (fun record =>
    db_add (NewDNSRecord (s_id scan)
              (Dns.record_type record) (Dns.record_value record)
              (Some (Dns.ttl record)) (Dns.priority record))).

(** STEP 4: run the WHOIS scan (if requested).  The dictionary
    [scan_whois] returns is never empty, so [if whois_result] tests for
    [None]. *)
Definition store_whois (scan_data : ScanCreate) (name : string) (scan : Scan)
  : M unit :=
  if include_whois scan_data then
    whois_result <~ lift (Whois.scan_whois (fromisoformat env) (whois_lookup env) name) ;;
    match whois_result with
    | Some data => db_add (NewWhoisData (s_id scan) data)
    | None => ret tt
    end
  else ret tt.

(** STEP 5: run the subdomain scan (if requested). *)
Definition store_subdomains (scan_data : ScanCreate) (name : string) (scan : Scan)
  : M unit :=
  if include_subdomains scan_data then
    let subdomain_results := Subdomains.scan_subdomains name in
    items <~ lift (Subdomains.iterate subdomain_results) ;;
    for_each items (fun sub => db_add (NewSubdomain (s_id scan) sub))
  else ret tt.

(** STEP 6: mark the scan as completed.  The log line that follows the
    commit reads [scan.id]. *)
Definition mark_completed : M unit :=
  set_scan (with_status "completed") ;;;
  now <~ utcnow ;;
  set_scan (with_completed_at (Some now)) ;;;
  db_commit ;;;
  scan_id ;;;
  ret tt.

(** The objects STEPS 3 and 4 hand to the session. *)
Definition collected_objects (scan_data : ScanCreate) (name : string) (scan : Scan)
  : list pending_object :=
  (match Dns.scan_dns_records (resolve env) name with
   | Ret dns_results =>
       map (fun record =>
              NewDNSRecord (s_id scan)
                (Dns.record_type record) (Dns.record_value record)
                (Some (Dns.ttl record)) (Dns.priority record))
           dns_results
   | Raise _ => []
   end
   ++
   (if include_whois scan_data then
      match Whois.scan_whois (fromisoformat env) (whois_lookup env) name with
      | Ret (Some data) => [NewWhoisData (s_id scan) data]
      | _ => []
      end
    else []))%list.

(** The [try] block. *)
Definition run_collectors (scan_data : ScanCreate) (name : string) (scan : Scan)
  : M unit :=
  store_dns_records name scan ;;;
  store_whois scan_data name scan ;;;
  store_subdomains scan_data name scan ;;;
  mark_completed.

(** The [except Exception as e] block.  Its first statement logs
    [scan.id]: when the exception came from the commit of STEP 6 the read
    raises, and the rest of the block is not run. *)
Definition on_failure (e : exn) : M unit :=
  scan_id ;;;
  set_scan (with_status "failed") ;;;
  set_scan (with_error_message (Some (str_exn e))) ;;;
  now <~ utcnow ;;
  set_scan (with_completed_at (Some now)) ;;;
  db_commit ;;;
  raise (HTTPException 500 ("Scan failed: " ++ str_exn e)).

(** STEP 7: refresh and return the results. *)
Definition scan_results (domain : Domain) : M ScanResultResponse :=
  scan <~ db_refresh_scan ;;
  fun s =>
    (s, Ret {| resp_scan := scan;
               resp_domain := domain;
               resp_dns_records :=
                 filter (fun r => r_scan_id r =? s_id scan)%nat (dns_records (db s));
               resp_whois :=
                 find (fun r => wd_scan_id r =? s_id scan)%nat (whois_data (db s));
               resp_subdomains :=
                 filter (fun r => sub_scan_id r =? s_id scan)%nat (subdomains (db s)) |}).

Definition create_scan (scan_data : ScanCreate) : M ScanResultResponse :=
  let name := lower (domain_name scan_data) in
  domain <~ get_or_create_domain name ;;
  scan <~ create_scan_record domain ;;
  try_except (run_collectors scan_data name scan) on_failure ;;;
  scan_results domain.

(** One request: a session is opened on the database, the route runs,
    the session is closed.  The result is the database as another
    session reads it afterwards, and what the caller gets. *)
Definition run_create_scan (scan_data : ScanCreate) (d : DB)
  : DB * result ScanResultResponse :=
  let (s, r) := create_scan scan_data (open_session d) in
  (db s, r).

End Request.

(** ** The read route *)

(** [GET /api/scans/{scan_id}].  [scan.domain] is the row the foreign
    key points to; without it the response model rejects [domain=None]. *)
Definition get_scan (scan_id : nat) (d : DB) : result ScanResultResponse :=
  match find_scan scan_id d with
  | None =>
      Raise (HTTPException 404 ("Scan " ++ string_of_nat scan_id ++ " not found"))
  | Some scan =>
      match find_domain (s_domain_id scan) d with
      | Some domain =>
          Ret {| resp_scan := scan;
                 resp_domain := domain;
                 resp_dns_records :=
                   filter (fun r => r_scan_id r =? s_id scan)%nat (dns_records d);
                 resp_whois :=
                   find (fun r => wd_scan_id r =? s_id scan)%nat (whois_data d);
                 resp_subdomains :=
                   filter (fun r => sub_scan_id r =? s_id scan)%nat (subdomains d) |}
      | None => Raise (Exn ValueError "validation error for ScanResultResponse: domain")
      end
  end.

(** ** Vocabulary of the properties *)

(** The status of a scan and its completion time agree. *)
Definition scan_inv (r : Scan) : Prop :=
  (s_status r = "completed" \/ s_status r = "failed" <-> s_completed_at r <> None)
  /\ (s_status r = "running" -> s_completed_at r = None).

(** The objects the collectors hand to the session. *)
Definition child_insert (o : pending_object) : Prop :=
  match o with
  | NewDomain _ | NewScan _ _ => False
  | _ => True
  end.

(** Those of STEPS 3 and 4. *)
Definition record_insert (o : pending_object) : Prop :=
  match o with
  | NewDNSRecord _ _ _ _ _ | NewWhoisData _ _ => True
  | _ => False
  end.

Definition add_pending (s : Session) (l : list pending_object) : Session :=
  {| db := db s; pending := (pending s ++ l)%list; domain_obj := domain_obj s;
     scan_obj := scan_obj s; commits := commits s; ticks := ticks s;
     inactive := inactive s |}.

(** Commits made before the [try] block: one for the scan record, one
    more when the domain has to be created. *)
Definition setup_commits (name : string) (d : DB) : nat :=
  match find (fun x => d_domain_name x =? name) (domains d) with
  | Some _ => 1
  | None => 2
  end.

(** The unique constraint of [domains.domain_name]. *)
Definition names_unique (d : DB) : Prop := NoDup (map d_domain_name (domains d)).

(** A scan waiting for its INSERT is in state running. *)
Definition pending_running (o : pending_object) : Prop :=
  match o with
  | NewScan _ status => status = "running"
  | _ => True
  end.

(** What holds of a session between two statements of the route: the
    rows of [scans] and the [scan] object satisfy the invariant, and the
    scans still to be inserted are running. *)
Definition good (s : Session) : Prop :=
  Forall scan_inv (scans (db s)) /\
  Forall pending_running (pending s) /\
  (forall o, scan_obj s = Some o -> scan_inv o).

(** The session as STEP 2 leaves it when its commits went through: the
    scan row [row] of [domain] has been appended to the table, and the
    session is active. *)
Definition after_setup (d0 : DB) (name : string) (domain : Domain) (row : Scan)
    (s : Session) : Prop :=
  scans (db s) = (scans d0 ++ [row])%list /\
  ~ In (s_id row) (map s_id (scans d0)) /\
  s_domain_id row = d_id domain /\
  s_status row = "running" /\
  s_completed_at row = None /\
  s_error_message row = None /\
  scan_obj s = Some row /\
  pending s = [] /\
  commits s = setup_commits name d0 /\
  d_domain_name domain = name /\
  find (fun x => d_domain_name x =? name) (domains (db s)) = Some domain /\
  match find (fun x => d_domain_name x =? name) (domains d0) with
  | Some found => domain = found /\ domains (db s) = domains d0
  | None => domains (db s) = (domains d0 ++ [domain])%list
  end /\
  subdomains (db s) = subdomains d0 /\
  inactive s = false.

(** What holds of a session from STEP 3 on: the table [scans] is [old]
    followed by one row, which is the row of the [scan] object. *)
Definition scans_extended (old : list Scan) (id did : nat) (doms : list Domain)
    (s : Session) : Prop :=
  (exists r, scans (db s) = (old ++ [r])%list /\ s_id r = id /\ s_domain_id r = did) /\
  domains (db s) = doms /\
  Forall child_insert (pending s) /\
  (forall o, scan_obj s = Some o -> s_id o = id /\ s_domain_id o = did).

(** From a session in [P], the computation ends in [Q] when it returns
    and in [E] when it raises. *)
Definition triple {A} (P : Session -> Prop) (m : M A)
    (Q : A -> Session -> Prop) (E : Session -> Prop) : Prop :=
  forall s, P s ->
    match m s with
    | (s', Ret a) => Q a s'
    | (s', Raise _) => E s'
    end.

(** The session keeps [I], whatever the outcome. *)
Definition preserves {A} (I : Session -> Prop) (m : M A) : Prop :=
  triple I m (fun _ => I) I.

(** The primary keys and the unique constraint of the two parent tables. *)
Definition keys_unique (d : DB) : Prop :=
  NoDup (map d_id (domains d)) /\
  NoDup (map s_id (scans d)) /\
  NoDup (map d_domain_name (domains d)).

(** Every child row belongs to a scan of the table. *)
Definition children_have_scans (d : DB) : Prop :=
  (forall r, In r (dns_records d) -> In (r_scan_id r) (map s_id (scans d))) /\
  (forall r, In r (whois_data d) -> In (wd_scan_id r) (map s_id (scans d))) /\
  (forall r, In r (subdomains d) -> In (sub_scan_id r) (map s_id (scans d))).

(** The row of [dns_records] stored for a collected record. *)
Definition stored_as (scan_id : nat) (record : Dns.record) (row : DNSRecord) : Prop :=
  r_scan_id row = scan_id /\
  r_record_type row = Dns.record_type record /\
  r_record_value row = Dns.record_value record /\
  r_ttl row = Some (Dns.ttl record) /\
  r_priority row = Dns.priority record.

(** The row of [whois_data] stored for the data of a lookup. *)
Definition whois_stored_as (scan_id : nat) (data : Whois.whois_result)
    (row : WhoisData) : Prop :=
  wd_scan_id row = scan_id /\
  wd_registrar row = Whois.registrar data /\
  wd_creation_date row = Whois.creation_date data /\
  wd_expiration_date row = Whois.expiration_date data /\
  wd_updated_date row = Whois.updated_date data /\
  wd_name_servers row = Whois.name_servers data /\
  wd_registrant_country row = Whois.registrant_country data /\
  wd_raw_data row = Whois.raw_data data.

(** The session before STEP 3: the tables of collected rows are as in
    [d0], and no collected object waits. *)
Definition children_untouched (d0 : DB) (s : Session) : Prop :=
  dns_records (db s) = dns_records d0 /\
  whois_data (db s) = whois_data d0 /\
  Forall (fun o => ~ child_insert o) (pending s).

(** The object STEP 3 hands to the session for a collected record. *)
Definition dns_object (scan_id : nat) (record : Dns.record) : pending_object :=
  NewDNSRecord scan_id (Dns.record_type record) (Dns.record_value record)
    (Some (Dns.ttl record)) (Dns.priority record).

(** What STEP 4 gets to store: the data of the lookup, when it is
    requested and gives any. *)
Definition whois_collected (env : Env) (scan_data : ScanCreate) (name : string)
  : option Whois.whois_result :=
  if include_whois scan_data then
    match Whois.scan_whois (fromisoformat env) (whois_lookup env) name with
    | Ret (Some data) => Some data
    | _ => None
    end
  else None.

End Scans.

(* ================================================================== *)
(** * The domains router (routers/domains.py) *)
(* ================================================================== *)

Module Domains.

Import Scans.

Record DomainCreate : Type := {
  dc_domain_name : string
}.

Record DomainList : Type := {
  dl_domains : list Domain;
  dl_total : nat
}.

(** The [IntegrityError], a [SQLAlchemyError], with which the database
    refuses a second row of one name ([domain_name] is [unique=True]). *)
Definition unique_violation : exn :=
  Exn SQLAlchemyError "(IntegrityError) UNIQUE constraint failed: domains.domain_name".

(** [db.query(Domain).filter(Domain.is_active == True)] *)
Definition active_domains (d : DB) : list Domain :=
  filter d_is_active (domains d).

(** [GET /api/domains].  The query has no ORDER BY; rows are taken in
    the order of the table.  [skip] and [limit] are not negative. *)
Definition list_domains (skip limit : nat) (d : DB) : DomainList :=
  {| dl_domains := firstn limit (skipn skip (active_domains d));
     dl_total := List.length (active_domains d) |}.

(** [GET /api/domains/{domain_id}] *)
Definition get_domain (domain_id : nat) (d : DB) : result Domain :=
  match find_domain domain_id d with
  | Some domain => Ret domain
  | None =>
      Raise (HTTPException 404
               ("Domain with id " ++ string_of_nat domain_id ++ " not found"))
  end.

Section Request.

Variable env : Env.

(** [POST /api/domains].  The one commit of the request inserts the
    row, unless it raises or the name is taken.  The result is the
    database as another session reads it afterwards, and what the
    caller gets. *)
Definition create_domain (domain_data : DomainCreate) (d : DB)
  : DB * result Domain :=
  match find (fun x => d_domain_name x =? dc_domain_name domain_data) (domains d) with
  | Some existing =>
      (d, Raise (HTTPException 400
                   ("Domain " ++ dc_domain_name domain_data ++ " already exists")))
  | None =>
      let name := lower (dc_domain_name domain_data) in
      match commit_raises env 0 with
      | Some e => (d, Raise e)
      | None =>
          if existsb (fun x => d_domain_name x =? name) (domains d)
          then (d, Raise unique_violation)
          else
            let row := {| d_id := next_id (map d_id (domains d));
                          d_domain_name := name;
                          d_created_at := clock env 0;
                          d_updated_at := clock env 1;
                          d_is_active := true |} in
            (with_domains d (domains d ++ [row])%list, Ret row)
      end
  end.

(** The UPDATE of a soft delete; [updated_at] has [onupdate]. *)
Definition deactivated (r : Domain) : Domain :=
  {| d_id := d_id r; d_domain_name := d_domain_name r;
     d_created_at := d_created_at r; d_updated_at := clock env 0;
     d_is_active := false |}.

(** The UPDATE reaches the row of the key. *)
Definition soft_delete (domain_id : nat) (r : Domain) : Domain :=
  if (d_id r =? domain_id)%nat then deactivated r else r.

(** [DELETE /api/domains/{domain_id}].  Setting [is_active] to the
    value it has changes nothing, and no UPDATE is sent. *)
Definition delete_domain (domain_id : nat) (d : DB) : DB * result unit :=
  match find_domain domain_id d with
  | None =>
      (d, Raise (HTTPException 404
                   ("Domain with id " ++ string_of_nat domain_id ++ " not found")))
  | Some domain =>
      match commit_raises env 0 with
      | Some e => (d, Raise e)
      | None =>
          if d_is_active domain then
            (with_domains d (map (soft_delete domain_id) (domains d)), Ret tt)
          else (d, Ret tt)
      end
  end.

End Request.

End Domains.

(* ================================================================== *)
(** * Concrete inputs used below *)
(* ================================================================== *)

Module Examples.

Import Dns.

Definition no_attributes (text : string) : rdata :=
  {| rd_str := text; rd_exchange := None; rd_preference := None;
     rd_strings := None; rd_mname := None; rd_rname := None; rd_serial := None |}.

(** SOA of example.com: primary ns1.example.com., mailbox
    hostmaster.example.com., serial 2024010101. *)
Definition soa_rdata : rdata :=
  {| rd_str := "ns1.example.com. hostmaster.example.com. 2024010101 7200 3600 1209600 3600";
     rd_exchange := None; rd_preference := None; rd_strings := None;
     rd_mname := Some ["ns1"; "example"; "com"];
     rd_rname := Some ["hostmaster"; "example"; "com"];
     rd_serial := Some 2024010101%N |}.

Definition quote : string := String (ascii_of_nat 34) EmptyString.

(** TXT in two character-strings. *)
Definition txt_rdata : rdata :=
  {| rd_str := quote ++ "v=spf1 " ++ quote ++ " "
               ++ quote ++ "include:_spf.example.com" ++ quote;
     rd_exchange := None; rd_preference := None;
     rd_strings := Some [Bytes (list_byte_of_string "v=spf1 ");
                         Bytes (list_byte_of_string "include:_spf.example.com")];
     rd_mname := None; rd_rname := None; rd_serial := None |}.

(** TXT in two character-strings, [b"ok"] and the lone byte [b"\xff"],
    which is not UTF-8. *)
Definition invalid_txt_rdata : rdata :=
  {| rd_str := quote ++ "ok" ++ quote ++ " " ++ quote ++ "\255" ++ quote;
     rd_exchange := None; rd_preference := None;
     rd_strings := Some [Bytes (list_byte_of_string "ok"); Bytes [xff]];
     rd_mname := None; rd_rname := None; rd_serial := None |}.

(** MX 10 mail.example.com. *)
Definition mx_rdata : rdata :=
  {| rd_str := "10 mail.example.com.";
     rd_exchange := Some ["mail"; "example"; "com"]; rd_preference := Some 10%Z;
     rd_strings := None; rd_mname := None; rd_rname := None; rd_serial := None |}.

(** A resolver for a name that does not exist. *)
Definition nxdomain_resolver : resolver :=
  fun _ _ => Raise (Exn NXDOMAIN "The DNS query name does not exist").

(** A resolver whose A query times out, whose MX query succeeds, and
    which has no data for the other types. *)
Definition flaky_resolver : resolver :=
  fun _ rtype =>
    if rtype =? "A" then
      Raise (Exn Timeout "The DNS operation timed out")
    else if rtype =? "MX" then
      Ret {| answers_ttl := 600; answers_rdata := [mx_rdata] |}
    else
      Raise (Exn NoAnswer "The DNS response does not contain an answer").

(** WHOIS: a registry answer without registration, a registry layer
    that cannot parse the response, a lookup that fails on the network,
    and an entry whose name-server list holds a number. *)
Definition unregistered_entry : Whois.WhoisEntry :=
  {| Whois.w_domain_name := VNone; Whois.w_registrar := VNone;
     Whois.w_creation_date := VNone; Whois.w_expiration_date := VNone;
     Whois.w_updated_date := VNone; Whois.w_name_servers := VNone;
     Whois.w_country := VNone; Whois.w_text := "No match for domain" |}.

Definition malformed_entry : Whois.WhoisEntry :=
  {| Whois.w_domain_name := VStr "EXAMPLE.COM"; Whois.w_registrar := VStr "Example Registrar";
     Whois.w_creation_date := VStr "yesterday"; Whois.w_expiration_date := VNone;
     Whois.w_updated_date := VNone; Whois.w_name_servers := VList [VInt 7];
     Whois.w_country := VNone; Whois.w_text := "Domain Name: EXAMPLE.COM" |}.

Definition lookup_unregistered : string -> result Whois.WhoisEntry :=
  fun _ => Ret unregistered_entry.

Definition lookup_unparseable : string -> result Whois.WhoisEntry :=
  fun _ => Raise (Exn PywhoisError "No match for the domain").

Definition lookup_unreachable : string -> result Whois.WhoisEntry :=
  fun _ => Raise (Exn Exception "[Errno 110] Connection timed out").

Definition lookup_malformed : string -> result Whois.WhoisEntry :=
  fun _ => Ret malformed_entry.

Definition rejects_all : string -> result datetime :=
  fun _ => Raise (Exn ValueError "Invalid isoformat string").

(** Requests and their surroundings. *)
Definition second_clock (n : nat) : datetime :=
  {| year := 2026; month := 1; day := 1;
     hour := 12; minute := 0; second := n; microsecond := 0 |}.

Definition connection_lost : exn :=
  Exn SQLAlchemyError "server closed the connection unexpectedly".

(** Every commit goes through. *)
Definition working_env : Scans.Env :=
  {| Scans.resolve := flaky_resolver;
     Scans.whois_lookup := lookup_unregistered;
     Scans.fromisoformat := rejects_all;
     Scans.clock := second_clock;
     Scans.commit_raises := fun _ => None |}.

(** The third commit of the request raises, the others go through. *)
Definition failing_once_env : Scans.Env :=
  {| Scans.resolve := flaky_resolver;
     Scans.whois_lookup := lookup_unregistered;
     Scans.fromisoformat := rejects_all;
     Scans.clock := second_clock;
     Scans.commit_raises :=
       fun n => if (n =? 2)%nat then Some connection_lost else None |}.

Definition dns_only_request : Scans.ScanCreate :=
  {| Scans.domain_name := "Example.COM";
     Scans.include_subdomains := false;
     Scans.include_whois := false |}.

End Examples.

(* ================================================================== *)
(** * Shapes of resolver answers *)
(* ================================================================== *)

Module Shapes.

Import Dns.

(** A character-string [bytes.decode()] accepts. *)
Definition decodable (s : segment) : Prop :=
  match s with
  | Bytes b => utf8_valid (map Byte.to_N b) = true
  | Text _ => True
  end.

(** The record has what the branch of [_extract_record_value] for
    [rtype] reads. *)
Definition has_attributes (rtype : string) (rd : rdata) : Prop :=
  if rtype =? "MX" then rd_exchange rd <> None
  else if rtype =? "TXT" then
    exists segments, rd_strings rd = Some segments /\ Forall decodable segments
  else if rtype =? "SOA" then
    rd_mname rd <> None /\ rd_rname rd <> None /\ rd_serial rd <> None
  else True.

(** A label that is not empty and does not end in a dot. *)
Definition plain_label (l : string) : Prop :=
  l <> "" /\ endswith l dot = false.

Definition is_ascii (b : byte) : Prop := (Byte.to_N b < 128)%N.

(** TXT answer [good; undecodable; good]. *)
Definition txt_of (segments : list segment) : rdata :=
  {| rd_str := ""; rd_exchange := None; rd_preference := None;
     rd_strings := Some segments;
     rd_mname := None; rd_rname := None; rd_serial := None |}.

Definition three_txt_resolver : resolver :=
  fun _ rtype =>
    if rtype =? "TXT" then
      Ret {| answers_ttl := 300;
             answers_rdata :=
               [txt_of [Bytes (list_byte_of_string "first")];
                txt_of [Bytes [xff]];
                txt_of [Bytes (list_byte_of_string "third")]] |}
    else Raise (Exn NoAnswer "The DNS response does not contain an answer").

End Shapes.

(* ================================================================== *)
(** * Shapes of WHOIS fields *)
(* ================================================================== *)

Module Fields.

(** The strings among the items of a list. *)
Definition texts_of (items : list value) : list string :=
  flat_map (fun v => match v with VStr s => [s] | _ => [] end) items.

Definition is_text (v : value) : Prop := exists s, v = VStr s.

Definition is_list (v : value) : Prop := exists items, v = VList items.

(** A registered domain as python-whois parses it: upper-case name
    servers with duplicates, creation date as a list of two dates. *)
Definition new_year (y : nat) : datetime :=
  {| year := y; month := 1; day := 1;
     hour := 0; minute := 0; second := 0; microsecond := 0 |}.

Definition registered_entry : Whois.WhoisEntry :=
  {| Whois.w_domain_name := VList [VStr "EXAMPLE.COM"; VStr "example.com"];
     Whois.w_registrar := VStr "Example Registrar, Inc.";
     Whois.w_creation_date := VList [VDatetime (new_year 2020); VDatetime (new_year 2021)];
     Whois.w_expiration_date := VStr "not a date";
     Whois.w_updated_date := VNone;
     Whois.w_name_servers :=
       VList [VStr "NS2.Example.com."; VNone; VStr "ns1.example.com";
              VStr ""; VStr "ns1.example.com"];
     Whois.w_country := VList [];
     Whois.w_text := "Domain Name: EXAMPLE.COM" |}.

Definition lookup_registered : string -> result Whois.WhoisEntry :=
  fun _ => Ret registered_entry.

End Fields.

(* ================================================================== *)
(** * More concrete inputs *)
(* ================================================================== *)

Module Cases.

Import Examples.

(** No commit goes through. *)
Definition unreachable_env : Scans.Env :=
  {| Scans.resolve := flaky_resolver;
     Scans.whois_lookup := lookup_unregistered;
     Scans.fromisoformat := rejects_all;
     Scans.clock := second_clock;
     Scans.commit_raises := fun _ => Some connection_lost |}.

End Cases.

Module Responses.

Import Scans Examples.

(** What the first scan of example.com answers when every commit goes
    through: the scan completed, with the one MX record collected. *)
Definition first_response : ScanResultResponse :=
  {| resp_scan :=
       {| s_id := 1; s_domain_id := 1;
          s_started_at := second_clock 2;
          s_completed_at := Some (second_clock 3);
          s_status := "completed"; s_error_message := None |};
     resp_domain :=
       {| d_id := 1; d_domain_name := "example.com";
          d_created_at := second_clock 0; d_updated_at := second_clock 1;
          d_is_active := true |};
     resp_dns_records :=
       [ {| r_id := 1; r_scan_id := 1; r_record_type := "MX";
            r_record_value := "mail.example.com";
            r_ttl := Some 600%Z; r_priority := Some 10%Z |} ];
     resp_whois := None;
     resp_subdomains := [] |}.

End Responses.

Module DomainCases.

Import Scans Domains Examples.

(** The database after the first scan of example.com: one domain, one
    scan, one MX record. *)
Definition scanned_db : DB :=
  fst (run_create_scan working_env dns_only_request empty_db).

Definition mixed_case_request : DomainCreate :=
  {| dc_domain_name := "Example.COM" |}.

Definition example_org : Domain :=
  {| d_id := 2; d_domain_name := "example.org";
     d_created_at := second_clock 0; d_updated_at := second_clock 1;
     d_is_active := true |}.

End DomainCases.

(* ================================================================== *)
(** * Properties: text helpers *)
(* ================================================================== *)

Section TextFacts.

Lemma rstrip_not_endswith (c : ascii) (s : string) :
  endswith (rstrip c s) c = false.
Proof.
  induction s as [|a s IH]; simpl; [reflexivity|].
  destruct (rstrip c s) as [|b s'] eqn:E.
  - destruct (Ascii.eqb a c) eqn:Eac; simpl; [reflexivity | exact Eac].
  - simpl in *. exact IH.
Qed.

(** [rstrip] removes trailing copies of [c] and nothing else. *)
Lemma rstrip_decompose (c : ascii) (s : string) :
  exists n, s = rstrip c s ++ repeat_char c n.
Proof.
  induction s as [|a s [n IH]]; simpl.
  - exists 0. reflexivity.
  - destruct (rstrip c s) as [|b s'] eqn:E.
    + destruct (Ascii.eqb_spec a c) as [->|_].
      * exists (S n). simpl in *. now rewrite <- IH.
      * exists n. simpl in *. now rewrite <- IH.
    + exists n. simpl in *. now rewrite <- IH.
Qed.

Lemma lower_char_idempotent (a : ascii) : lower_char (lower_char a) = lower_char a.
Proof.
  destruct a as [[] [] [] [] [] [] [] []]; reflexivity.
Qed.

Lemma lower_idempotent (s : string) : lower (lower s) = lower s.
Proof.
  induction s as [|a s IH]; simpl; [reflexivity|].
  now rewrite lower_char_idempotent, IH.
Qed.

Lemma lower_char_dot (a : ascii) : Ascii.eqb (lower_char a) dot = Ascii.eqb a dot.
Proof.
  destruct a as [[] [] [] [] [] [] [] []]; reflexivity.
Qed.

(** Lower-casing and stripping commute: no letter becomes a dot. *)
Lemma lower_rstrip (s : string) : lower (rstrip dot s) = rstrip dot (lower s).
Proof.
  induction s as [|a s IH]; simpl; [reflexivity|].
  rewrite <- IH.
  destruct (rstrip dot s) as [|b s']; simpl.
  - rewrite lower_char_dot. now destruct (Ascii.eqb a dot).
  - reflexivity.
Qed.

Lemma isinstance_Exception (e : exn) : isinstance e Exception = true.
Proof.
  unfold isinstance. simpl. apply orb_true_r.
Qed.

End TextFacts.

(* ================================================================== *)
(** * Properties: the DNS collector *)
(* ================================================================== *)

Section DnsFacts.

Import Dns.

(** The normalizer fails only on a missing attribute or undecodable bytes. *)
Lemma decode_all_raises (l : list segment) (e : exn) :
  decode_all l = Raise e -> class_of e = UnicodeDecodeError.
Proof.
  induction l as [|s l IH]; simpl; [discriminate|].
  destruct s as [b|t]; simpl.
  - unfold decode. destruct (utf8_valid _); simpl.
    + destruct (decode_all l); simpl; [discriminate|].
      intros [= <-]. now apply IH.
    + now intros [= <-].
  - destruct (decode_all l); simpl; [discriminate|].
    intros [= <-]. now apply IH.
Qed.

Lemma getattr_raises {A} (name : string) (f : option A) (e : exn) :
  getattr name f = Raise e -> class_of e = AttributeError.
Proof.
  destruct f; simpl; [discriminate|]. now intros [= <-].
Qed.

Lemma extract_raises (rd : rdata) (rtype : string) (e : exn) :
  _extract_record_value rd rtype = Raise e ->
  class_of e = AttributeError \/ class_of e = UnicodeDecodeError.
Proof.
  unfold _extract_record_value.
  destruct (rtype =? "MX").
  { destruct (getattr "exchange" (rd_exchange rd)) eqn:G; simpl; [discriminate|].
    intros [= <-]. left. eapply getattr_raises; eauto. }
  destruct (rtype =? "TXT").
  { destruct (getattr "strings" (rd_strings rd)) eqn:G; simpl.
    - destruct (decode_all a) eqn:D; simpl; [discriminate|].
      intros [= <-]. right. eapply decode_all_raises; eauto.
    - intros [= <-]. left. eapply getattr_raises; eauto. }
  destruct (rtype =? "SOA"); [|discriminate].
  destruct (getattr "mname" (rd_mname rd)) eqn:G1; simpl;
    [|intros [= <-]; left; eapply getattr_raises; eauto].
  destruct (getattr "rname" (rd_rname rd)) eqn:G2; simpl;
    [|intros [= <-]; left; eapply getattr_raises; eauto].
  destruct (getattr "serial" (rd_serial rd)) eqn:G3; simpl;
    [discriminate|intros [= <-]; left; eapply getattr_raises; eauto].
Qed.

Lemma build_record_raises (rtype : string) (t : Z) (rd : rdata) (e : exn) :
  build_record rtype t rd = Raise e -> isinstance e NXDOMAIN = false.
Proof.
  unfold build_record, isinstance.
  destruct (_extract_record_value rd rtype) eqn:X; simpl.
  - destruct (rtype =? "MX"); [|discriminate].
    destruct (getattr "preference" (rd_preference rd)) eqn:G; simpl; [discriminate|].
    intros [= <-]. apply getattr_raises in G. now rewrite G.
  - intros [= <-]. apply extract_raises in X. now destruct X as [-> | ->].
Qed.

Lemma build_record_type (rtype : string) (t : Z) (rd : rdata) (r : record) :
  build_record rtype t rd = Ret r -> record_type r = rtype /\ ttl r = t.
Proof.
  unfold build_record.
  destruct (_extract_record_value rd rtype); simpl; [|discriminate].
  destruct (rtype =? "MX").
  - destruct (getattr "preference" (rd_preference rd)); simpl; [|discriminate].
    now intros [= <-].
  - now intros [= <-].
Qed.

(** The inner loop only appends. *)
Lemma append_records_app (rtype : string) (t : Z) (rds : list rdata)
    (results : list record) :
  append_records rtype t rds results =
  ((results ++ fst (append_records rtype t rds []))%list,
   snd (append_records rtype t rds [])).
Proof.
  revert results. induction rds as [|rd rds IH]; intros results; simpl.
  - now rewrite app_nil_r.
  - destruct (build_record rtype t rd) as [r|e]; simpl.
    + rewrite (IH (results ++ [r])%list), (IH [r]). simpl.
      now rewrite <- app_assoc.
    + now rewrite app_nil_r.
Qed.

Lemma append_records_raises (rtype : string) (t : Z) (rds : list rdata)
    (results : list record) (e : exn) :
  snd (append_records rtype t rds results) = Some e -> isinstance e NXDOMAIN = false.
Proof.
  revert results. induction rds as [|rd rds IH]; intros results; simpl; [discriminate|].
  destruct (build_record rtype t rd) as [r|e'] eqn:B; simpl.
  - apply IH.
  - intros [= <-]. eapply build_record_raises; eauto.
Qed.

(** Every record in the list was built from a record of the answer. *)
Lemma append_records_sound (rtype : string) (t : Z) (rds : list rdata) (r : record) :
  In r (fst (append_records rtype t rds [])) ->
  exists rd, In rd rds /\ build_record rtype t rd = Ret r.
Proof.
  induction rds as [|rd rds IH]; simpl; [tauto|].
  destruct (build_record rtype t rd) as [r0|e] eqn:B; simpl; [|tauto].
  rewrite append_records_app. simpl. intros [<- | H].
  - exists rd. auto.
  - destruct (IH H) as (rd' & Hin & Hb). exists rd'. auto.
Qed.


Variable resolve : resolver.
Variable domain : string.

Lemma try_body_app (rtype : string) (results : list record) :
  try_body resolve domain rtype results =
  ((results ++ collected resolve domain rtype)%list,
   snd (try_body resolve domain rtype [])).
Proof.
  unfold collected, try_body.
  destruct (resolve domain rtype) as [a|e]; simpl.
  - apply append_records_app.
  - now rewrite app_nil_r.
Qed.

(** An NXDOMAIN out of the [try] block comes from the resolver. *)
Lemma try_body_nxdomain (rtype : string) (e : exn) :
  snd (try_body resolve domain rtype []) = Some e ->
  isinstance e NXDOMAIN = true ->
  resolve domain rtype = Raise e.
Proof.
  unfold try_body.
  destruct (resolve domain rtype) as [a|e'] eqn:R; simpl.
  - intros H1 H2. apply append_records_raises in H1. congruence.
  - now intros [= <-].
Qed.

Lemma collected_raise (rtype : string) (e : exn) :
  resolve domain rtype = Raise e -> collected resolve domain rtype = [].
Proof.
  unfold collected, try_body. now intros ->.
Qed.

(** The collector has a handler for whatever the [try] block raises. *)
Lemma scan_types_returns (types : list string) (results : list record)
    (calls : list string) :
  exists rs, fst (scan_types resolve domain types results calls) = Ret rs.
Proof.
  revert results calls.
  induction types as [|t types IH]; intros results calls; simpl.
  - now exists results.
  - destruct (try_body resolve domain t results) as [rs [e|]]; [|apply IH].
    destruct (isinstance e NXDOMAIN); [now exists rs|].
    destruct (isinstance e NoAnswer); [apply IH|].
    destruct (isinstance e NoNameservers); [apply IH|].
    destruct (isinstance e Timeout); [apply IH|].
    rewrite isinstance_Exception. apply IH.
Qed.


(** NXDOMAIN at [t] after the types [pre]: the loop is left at [t]. *)
Lemma scan_types_break (pre post : list string) (t : string) (e : exn)
    (results : list record) (calls : list string) :
  (forall t' e', In t' pre -> resolve domain t' = Raise e' ->
                 isinstance e' NXDOMAIN = false) ->
  resolve domain t = Raise e -> isinstance e NXDOMAIN = true ->
  scan_types resolve domain (pre ++ t :: post) results calls =
  (Ret (results ++ flat_map (collected resolve domain) pre)%list,
   (calls ++ pre ++ [t])%list).
Proof.
  revert results calls.
  induction pre as [|p pre IH]; intros results calls H R N; simpl.
  - unfold try_body. rewrite R, N. now rewrite app_nil_r.
  - assert (IH' : forall rs,
        scan_types resolve domain (pre ++ t :: post) rs (calls ++ [p])%list =
        (Ret (rs ++ flat_map (collected resolve domain) pre)%list,
         ((calls ++ [p]) ++ pre ++ [t])%list)).
    { intros rs. apply IH; auto. intros t' e' Hin. apply H. now right. }
    rewrite try_body_app.
    destruct (snd (try_body resolve domain p [])) as [e'|] eqn:S.
    + assert (N' : isinstance e' NXDOMAIN = false).
      { destruct (isinstance e' NXDOMAIN) eqn:N'; [|reflexivity].
        pose proof (H p e' (or_introl eq_refl) (try_body_nxdomain p e' S N')).
        congruence. }
      rewrite N', isinstance_Exception, !IH', <- !app_assoc.
      now destruct (isinstance e' NoAnswer), (isinstance e' NoNameservers),
        (isinstance e' Timeout).
    + now rewrite IH', <- !app_assoc.
Qed.

Lemma scan_dns_records_returns :
  exists rs, scan_dns_records resolve domain = Ret rs.
Proof.
  apply scan_types_returns.
Qed.

End DnsFacts.

(* ================================================================== *)
(** * Properties: sorting strings *)
(* ================================================================== *)

Section SortFacts.

Lemma str_le_iff (a b : string) : str_le a b <-> a = b \/ str_lt a b.
Proof.
  unfold str_le, str_lt, String.leb.
  destruct (String.compare a b) eqn:C; split; intros H; trivial.
  - left. now apply String_as_OT.cmp_eq.
  - right. now apply String_as_OT.cmp_lt.
  - discriminate.
  - destruct H as [H | H].
    + apply String_as_OT.cmp_eq in H. unfold String_as_OT.cmp in H. congruence.
    + apply String_as_OT.cmp_lt in H. unfold String_as_OT.cmp in H. congruence.
Qed.

Lemma str_lt_irrefl (a : string) : ~ str_lt a a.
Proof.
  intros H. now apply (String_as_OT.lt_not_eq _ _ H).
Qed.

Lemma str_le_trans (a b c : string) : str_le a b -> str_le b c -> str_le a c.
Proof.
  rewrite !str_le_iff. intros [-> | H1] [-> | H2]; auto.
  right. exact (String_as_OT.lt_trans _ _ _ H1 H2).
Qed.

Lemma insert_sorted_perm (x : string) (l : list string) :
  Permutation (insert_sorted x l) (x :: l).
Proof.
  induction l as [|y l IH]; simpl; [reflexivity|].
  destruct (String.leb x y); [reflexivity|].
  rewrite IH. apply perm_swap.
Qed.

Lemma sorted_perm (l : list string) : Permutation (sorted l) l.
Proof.
  induction l as [|x l IH]; simpl; [reflexivity|].
  rewrite insert_sorted_perm. now constructor.
Qed.

Lemma insert_sorted_ordered (x : string) (l : list string) :
  StronglySorted str_le l -> StronglySorted str_le (insert_sorted x l).
Proof.
  induction 1 as [|y l Hl IH Hy]; simpl.
  - repeat constructor.
  - destruct (String.leb x y) eqn:L.
    + constructor; [now constructor|].
      constructor; [exact L|].
      eapply Forall_impl; [|exact Hy]. intros z. now apply str_le_trans.
    + constructor; [exact IH|].
      apply (Permutation_Forall (Permutation_sym (insert_sorted_perm x l))).
      constructor; [|exact Hy].
      destruct (String.leb_total x y) as [T | T]; [congruence | exact T].
Qed.

Lemma sorted_ordered (l : list string) : StronglySorted str_le (sorted l).
Proof.
  induction l as [|x l IH]; simpl; [constructor | now apply insert_sorted_ordered].
Qed.

(** Without repetition the order is strict. *)
Lemma ordered_strict (l : list string) :
  StronglySorted str_le l -> NoDup l -> StronglySorted str_lt l.
Proof.
  induction 1 as [|x l Hl IH Hx]; intros Hnd; [constructor|].
  inversion Hnd as [|? ? Hnotin Hnd']; subst.
  constructor; [now apply IH|].
  rewrite Forall_forall in *. intros y Hy.
  destruct (proj1 (str_le_iff x y) (Hx y Hy)) as [-> | H]; [contradiction | exact H].
Qed.

Lemma sorted_strict (l : list string) :
  NoDup l -> StronglySorted str_lt (sorted l).
Proof.
  intros Hnd. apply ordered_strict; [apply sorted_ordered|].
  exact (Permutation_NoDup (Permutation_sym (sorted_perm l)) Hnd).
Qed.

(** A strictly ascending list is determined by its elements. *)
Lemma strict_unique (l1 l2 : list string) :
  StronglySorted str_lt l1 -> StronglySorted str_lt l2 ->
  (forall x, In x l1 <-> In x l2) -> l1 = l2.
Proof.
  intros H1. revert l2.
  induction H1 as [|a l1 Hl1 IH Ha]; intros l2 H2 Hiff.
  - destruct l2 as [|b l2]; [reflexivity|].
    destruct (proj2 (Hiff b) (or_introl eq_refl)).
  - destruct H2 as [|b l2 Hl2 Hb].
    + destruct (proj1 (Hiff a) (or_introl eq_refl)).
    + rewrite Forall_forall in Ha, Hb.
      assert (a = b) as ->.
      { destruct (proj1 (Hiff a) (or_introl eq_refl)) as [E | Hin]; [now symmetry|].
        destruct (proj2 (Hiff b) (or_introl eq_refl)) as [E | Hin']; [exact E|].
        exfalso. apply (str_lt_irrefl a).
        exact (String_as_OT.lt_trans _ _ _ (Ha b Hin') (Hb a Hin)). }
      f_equal. apply IH; [exact Hl2|].
      intros x. split; intros Hx.
      * destruct (proj1 (Hiff x) (or_intror Hx)) as [<- | ?]; [|assumption].
        exfalso. exact (str_lt_irrefl _ (Ha _ Hx)).
      * destruct (proj2 (Hiff x) (or_intror Hx)) as [<- | ?]; [|assumption].
        exfalso. exact (str_lt_irrefl _ (Hb _ Hx)).
Qed.

(** [sorted(list(set(l)))] does not depend on the order in which the set
    is enumerated. *)
Lemma sorted_of_any_enumeration (l enumeration : list string) :
  NoDup enumeration -> (forall x, In x enumeration <-> In x l) ->
  sorted enumeration = sorted (list_set l).
Proof.
  intros Hnd Hiff. apply strict_unique.
  - now apply sorted_strict.
  - apply sorted_strict, NoDup_nodup.
  - intros x. unfold list_set.
    rewrite (Permutation_in' (eq_refl x) (sorted_perm enumeration)).
    rewrite (Permutation_in' (eq_refl x) (sorted_perm (nodup string_dec l))).
    now rewrite nodup_In.
Qed.

End SortFacts.

(* ================================================================== *)
(** * Properties: the WHOIS collector *)
(* ================================================================== *)

Section WhoisFacts.

Import Whois.

Lemma lowered_entries_strings (names : list string) :
  lowered_entries (map VStr names) = Ret (cleaned names).
Proof.
  unfold cleaned. induction names as [|ns names IH]; simpl; [reflexivity|].
  destruct (ns =? ""); simpl; [exact IH | now rewrite IH].
Qed.

Lemma cleaned_entry (names : list string) (x : string) :
  In x (cleaned names) -> endswith x dot = false /\ lower x = x.
Proof.
  unfold cleaned. rewrite in_map_iff. intros (ns & <- & _). split.
  - apply rstrip_not_endswith.
  - now rewrite <- lower_rstrip, lower_idempotent.
Qed.

Variable fromisoformat : string -> result datetime.
Variable whois_lookup : string -> result WhoisEntry.

(** Every exception out of the [try] block of [scan_whois] is handled. *)
Lemma scan_whois_handles (domain : string) (e : exn) :
  scan_whois_body fromisoformat whois_lookup domain = Raise e ->
  scan_whois fromisoformat whois_lookup domain = Ret None.
Proof.
  unfold scan_whois. intros ->.
  destruct (isinstance e PywhoisError); [reflexivity|].
  now rewrite isinstance_Exception.
Qed.

Lemma scan_whois_returns (domain : string) :
  exists r, scan_whois fromisoformat whois_lookup domain = Ret r.
Proof.
  destruct (scan_whois_body fromisoformat whois_lookup domain) as [r|e] eqn:B.
  - exists r. unfold scan_whois. now rewrite B.
  - exists None. eapply scan_whois_handles; eauto.
Qed.

End WhoisFacts.

(* ================================================================== *)
(** * The normalizer and the DNS collector against the specification *)
(* ================================================================== *)

Section DnsClaims.

Import Dns Examples.

(** X1.  The branches that strip: for MX and for A, AAAA, NS, CNAME the
    value never ends in a dot, whatever the answer prints as. *)
Lemma stripped_value_has_no_trailing_dot (rd : rdata) (rtype v : string) :
  rtype <> "TXT" -> rtype <> "SOA" ->
  _extract_record_value rd rtype = Ret v ->
  endswith v dot = false.
Proof.
  intros HT HS. unfold _extract_record_value.
  destruct (String.eqb_spec rtype "MX").
  { destruct (rd_exchange rd); simpl; [|discriminate].
    intros [= <-]. apply rstrip_not_endswith. }
  destruct (String.eqb_spec rtype "TXT"); [contradiction|].
  destruct (String.eqb_spec rtype "SOA"); [contradiction|].
  intros [= <-]. apply rstrip_not_endswith.
Qed.

(** C1.  The SOA branch composes primary name server, mailbox and serial
    without stripping: on the SOA record of example.com both names keep
    their trailing root dot inside the value, whereas the claim asks for
    a value free of them. *)
Theorem soa_value_keeps_root_dots :
  In "SOA" RECORD_TYPES /\
  rd_mname soa_rdata = Some ["ns1"; "example"; "com"] /\
  rd_rname soa_rdata = Some ["hostmaster"; "example"; "com"] /\
  endswith (name_str ["ns1"; "example"; "com"]) dot = true /\
  endswith (name_str ["hostmaster"; "example"; "com"]) dot = true /\
  _extract_record_value soa_rdata "SOA" =
    Ret (name_str ["ns1"; "example"; "com"] ++ " "
         ++ name_str ["hostmaster"; "example"; "com"] ++ " (serial: 2024010101)") /\
  _extract_record_value soa_rdata "SOA" =
    Ret "ns1.example.com. hostmaster.example.com. (serial: 2024010101)".
Proof.
  repeat split; try reflexivity.
  simpl. tauto.
Qed.

(** C10, as stated, fails: [bytes.decode()] is strict, so on a TXT
    answer with a character-string that is not UTF-8 the normalizer
    raises [UnicodeDecodeError] and returns no string. *)
Lemma txt_value_of_invalid_utf8_raises :
  rd_strings invalid_txt_rdata
    = Some [Bytes (list_byte_of_string "ok"); Bytes [xff]] /\
  segment_text (Bytes (list_byte_of_string "ok")) = Ret "ok" /\
  _extract_record_value invalid_txt_rdata "TXT"
    = Raise (Exn UnicodeDecodeError "'utf-8' codec can't decode bytes") /\
  (forall v, _extract_record_value invalid_txt_rdata "TXT" <> Ret v).
Proof.
  repeat (split; [reflexivity|]). intros v. discriminate.
Qed.

(** C10, as the code has it.  A TXT answer whose character-strings all
    decode normalizes to the concatenation of the decoded texts, in
    order; a TXT answer with a character-string that does not decode
    makes the normalizer raise [UnicodeDecodeError]. *)
Theorem txt_value_concatenates_segments (rd : rdata) (segments : list segment) :
  rd_strings rd = Some segments ->
  (forall texts,
     Forall2 (fun s t => segment_text s = Ret t) segments texts ->
     _extract_record_value rd "TXT" = Ret (String.concat "" texts)) /\
  (Exists (fun s => exists e, segment_text s = Raise e) segments ->
   exists e,
     _extract_record_value rd "TXT" = Raise e /\
     class_of e = UnicodeDecodeError).
Proof.
  intros Hs. unfold _extract_record_value. simpl. rewrite Hs. simpl. split.
  - intros texts Hd.
    assert (D : decode_all segments = Ret texts).
    { clear Hs. induction Hd as [|s t segs ts Hst _ IH]; simpl; [reflexivity|].
      now rewrite Hst, IH. }
    now rewrite D.
  - intros Hx.
    assert (D : exists e, decode_all segments = Raise e).
    { clear Hs. induction Hx as [s l [e He] | s l _ IH]; simpl.
      - rewrite He. simpl. now exists e.
      - destruct (segment_text s) as [t|e]; simpl; [|now exists e].
        destruct IH as [e ->]. simpl. now exists e. }
    destruct D as [e D]. exists e. rewrite D. simpl.
    split; [reflexivity | exact (decode_all_raises _ _ D)].
Qed.

Lemma txt_value_concatenates_segments_examples :
  _extract_record_value txt_rdata "TXT" = Ret "v=spf1 include:_spf.example.com" /\
  exists e,
    _extract_record_value invalid_txt_rdata "TXT" = Raise e /\
    class_of e = UnicodeDecodeError.
Proof.
  split.
  - apply (proj1 (txt_value_concatenates_segments txt_rdata
                    [Bytes (list_byte_of_string "v=spf1 ");
                     Bytes (list_byte_of_string "include:_spf.example.com")]
                    eq_refl)
                 ["v=spf1 "; "include:_spf.example.com"]).
    repeat constructor.
  - apply (proj2 (txt_value_concatenates_segments invalid_txt_rdata
                    [Bytes (list_byte_of_string "ok"); Bytes [xff]]
                    eq_refl)).
    right. left. eexists. reflexivity.
Defined.

(** C4.  When the query for a record type answers NXDOMAIN, and no
    earlier type did, the resolver has been called for the earlier types
    and this one only, and the collector returns what the earlier types
    collected; when it is the first type, that is one call and the empty
    list. *)
Theorem nxdomain_aborts_remaining_queries
    (resolve : resolver) (domain : string)
    (pre post : list string) (rtype : string) (e : exn) :
  RECORD_TYPES = (pre ++ rtype :: post)%list ->
  (forall t e', In t pre -> resolve domain t = Raise e' ->
                isinstance e' NXDOMAIN = false) ->
  resolve domain rtype = Raise e ->
  isinstance e NXDOMAIN = true ->
  resolver_calls resolve domain = (pre ++ [rtype])%list /\
  scan_dns_records resolve domain = Ret (flat_map (collected resolve domain) pre) /\
  (pre = [] ->
   scan_dns_records resolve domain = Ret [] /\
   List.length (resolver_calls resolve domain) = 1).
Proof.
  intros Hsplit Hpre He Hnx.
  unfold resolver_calls, scan_dns_records, scan_dns_records_traced.
  rewrite Hsplit, (scan_types_break resolve domain pre post rtype e [] []) by assumption.
  simpl. split; [reflexivity|]. split; [reflexivity|].
  intros ->. split; reflexivity.
Qed.

Lemma nxdomain_aborts_remaining_queries_first_type :
  resolver_calls nxdomain_resolver "no-such-name.example" = ["A"] /\
  scan_dns_records nxdomain_resolver "no-such-name.example" = Ret [].
Proof.
  destruct (nxdomain_aborts_remaining_queries nxdomain_resolver "no-such-name.example"
              [] ["AAAA"; "MX"; "TXT"; "NS"; "CNAME"; "SOA"] "A"
              (Exn NXDOMAIN "The DNS query name does not exist"))
    as (Hcalls & Hres & _).
  - reflexivity.
  - intros t e' [].
  - reflexivity.
  - reflexivity.
  - split; [exact Hcalls | exact Hres].
Defined.



End DnsClaims.

(* ================================================================== *)
(** * The WHOIS collector against the specification *)
(* ================================================================== *)

Section WhoisClaims.

Import Whois Examples.

(** C8.  Name servers given as nothing, as one string or as a list of
    strings: nothing stays absent, one string is treated as the list
    holding it, and a list yields either nothing, when no entry is left,
    or the strictly ascending list, never empty, of its non-empty entries
    lower-cased and freed of trailing dots. *)
Theorem nameservers_sorted_unique_lowercase :
  _normalize_nameservers VNone = Ret None /\
  (forall s, _normalize_nameservers (VStr s) = _normalize_nameservers (VList [VStr s])) /\
  _normalize_nameservers
    (VList [VStr "NS2.Example.com."; VStr "ns1.example.com"; VStr "ns1.example.com"])
  = Ret (Some ["ns1.example.com"; "ns2.example.com"]) /\
  (forall names : list string,
     exists out,
       _normalize_nameservers (VList (map VStr names)) = Ret out /\
       match out with
       | None => cleaned names = []
       | Some servers =>
           servers <> [] /\
           StronglySorted str_lt servers /\
           NoDup servers /\
           (forall x, In x servers <-> In x (cleaned names)) /\
           Forall (fun x => endswith x dot = false /\ lower x = x) servers
       end).
Proof.
  split; [reflexivity|]. split; [reflexivity|]. split; [reflexivity|].
  intros names. unfold _normalize_nameservers. simpl.
  rewrite lowered_entries_strings. simpl.
  assert (Hin : forall x, In x (sorted (list_set (cleaned names))) <->
                          In x (cleaned names)).
  { intros x. unfold list_set.
    rewrite (Permutation_in' (eq_refl x) (sorted_perm (nodup string_dec (cleaned names)))).
    apply nodup_In. }
  destruct (list_set (cleaned names)) as [|y l] eqn:E.
  - exists None. split; [reflexivity|].
    destruct (cleaned names) as [|x xs]; [reflexivity|].
    destruct (proj2 (Hin x) (or_introl eq_refl)).
  - exists (Some (sorted (y :: l))). split; [reflexivity|].
    assert (Hnd : NoDup (y :: l)) by (rewrite <- E; apply NoDup_nodup).
    split; [|split; [|split; [|split]]].
    + intros Hnil.
      pose proof (Permutation_length (sorted_perm (y :: l))) as L.
      rewrite Hnil in L. discriminate.
    + now apply sorted_strict.
    + exact (Permutation_NoDup (Permutation_sym (sorted_perm (y :: l))) Hnd).
    + exact Hin.
    + apply Forall_forall. intros x Hx.
      apply (cleaned_entry names). now apply Hin.
Qed.

(** C9.  [scan_whois] returns whatever the lookup does; it returns
    [None] when the entry has no domain name, when the lookup raises
    (the parse error of the registry layer as any other exception), and
    when the normalization of the entry raises. *)
Theorem scan_whois_never_raises
    (fromisoformat : string -> result datetime)
    (whois_lookup : string -> result WhoisEntry) (domain : string) :
  (exists r, scan_whois fromisoformat whois_lookup domain = Ret r) /\
  (forall w, whois_lookup domain = Ret w -> w_domain_name w = VNone ->
             scan_whois fromisoformat whois_lookup domain = Ret None) /\
  (forall e, whois_lookup domain = Raise e ->
             scan_whois fromisoformat whois_lookup domain = Ret None) /\
  (forall e, scan_whois_body fromisoformat whois_lookup domain = Raise e ->
             scan_whois fromisoformat whois_lookup domain = Ret None).
Proof.
  split; [apply scan_whois_returns|]. split; [|split].
  - intros w Hw Hn. unfold scan_whois, scan_whois_body. rewrite Hw. simpl.
    now rewrite Hn.
  - intros e He. apply (scan_whois_handles _ _ _ e).
    unfold scan_whois_body. now rewrite He.
  - apply scan_whois_handles.
Qed.

Lemma scan_whois_never_raises_examples :
  scan_whois rejects_all lookup_unregistered "unregistered.example" = Ret None /\
  scan_whois rejects_all lookup_unparseable "example.com" = Ret None /\
  scan_whois rejects_all lookup_unreachable "example.com" = Ret None /\
  scan_whois rejects_all lookup_malformed "example.com" = Ret None.
Proof.
  split; [|split; [|split]].
  - apply (proj1 (proj2 (scan_whois_never_raises rejects_all lookup_unregistered
                           "unregistered.example")) unregistered_entry);
      reflexivity.
  - apply (proj1 (proj2 (proj2 (scan_whois_never_raises rejects_all lookup_unparseable
                                  "example.com")))
             (Exn PywhoisError "No match for the domain")).
    reflexivity.
  - apply (proj1 (proj2 (proj2 (scan_whois_never_raises rejects_all lookup_unreachable
                                  "example.com")))
             (Exn Exception "[Errno 110] Connection timed out")).
    reflexivity.
  - apply (proj2 (proj2 (proj2 (scan_whois_never_raises rejects_all lookup_malformed
                                  "example.com")))
             (Exn AttributeError "object has no attribute 'lower'")).
    reflexivity.
Defined.

End WhoisClaims.

(* ================================================================== *)
(** * Properties: the session *)
(* ================================================================== *)

Section TripleFacts.

Import Scans.

Lemma triple_ret {A} (P : Session -> Prop) (Q : A -> Session -> Prop)
    (E : Session -> Prop) (a : A) :
  (forall s, P s -> Q a s) -> triple P (ret a) Q E.
Proof. intros H s Hs. now apply H. Qed.

Lemma triple_lift_ret {A} (P : Session -> Prop) (Q : A -> Session -> Prop)
    (E : Session -> Prop) (r : result A) :
  (forall a s, r = Ret a -> P s -> Q a s) ->
  (forall e s, r = Raise e -> P s -> E s) ->
  triple P (lift r) Q E.
Proof.
  intros H1 H2 s Hs. unfold lift. destruct r; [now apply H1 | now apply (H2 e)].
Qed.

Lemma triple_bind {A B} (P : Session -> Prop) (m : M A) (k : A -> M B)
    (Q : A -> Session -> Prop) (R : B -> Session -> Prop) (E : Session -> Prop) :
  triple P m Q E -> (forall a, triple (Q a) (k a) R E) ->
  triple P (bindM m k) R E.
Proof.
  intros Hm Hk s Hs. unfold bindM. specialize (Hm s Hs).
  destruct (m s) as [s' [a|e]]; [now apply Hk | exact Hm].
Qed.

Lemma triple_try {A} (P : Session -> Prop) (body : M A) (handler : exn -> M A)
    (Q : A -> Session -> Prop) (E' E : Session -> Prop) :
  triple P body Q E' -> (forall e, triple E' (handler e) Q E) ->
  triple P (try_except body handler) Q E.
Proof.
  intros Hb Hh s Hs. unfold try_except. specialize (Hb s Hs).
  destruct (body s) as [s' [a|e]]; [exact Hb|].
  rewrite isinstance_Exception. now apply Hh.
Qed.

Lemma triple_weaken {A} (P P' : Session -> Prop) (m : M A)
    (Q Q' : A -> Session -> Prop) (E E' : Session -> Prop) :
  triple P m Q E ->
  (forall s, P' s -> P s) -> (forall a s, Q a s -> Q' a s) ->
  (forall s, E s -> E' s) ->
  triple P' m Q' E'.
Proof.
  intros H HP HQ HE s Hs. specialize (H s (HP s Hs)).
  destruct (m s) as [s' [a|e]]; auto.
Qed.

Lemma preserves_for_each {A} (I : Session -> Prop) (l : list A)
    (body : A -> M unit) :
  (forall x, preserves I (body x)) -> preserves I (for_each l body).
Proof.
  intros H. induction l as [|x l IH]; simpl.
  - now apply triple_ret.
  - eapply triple_bind; [apply H | intros u; exact IH].
Qed.

End TripleFacts.

(* ================================================================== *)
(** * Properties: the status invariant *)
(* ================================================================== *)

Section InvariantFacts.

Import Scans.

Variable env : Env.

Lemma scan_inv_running (id did : nat) (t : datetime) :
  scan_inv {| s_id := id; s_domain_id := did; s_started_at := t;
              s_completed_at := None; s_status := "running";
              s_error_message := None |}.
Proof.
  split; simpl; [|reflexivity].
  split; [intros [H | H]; discriminate | intros H; now elim H].
Qed.

Lemma scan_inv_completed (o : Scan) (t : datetime) :
  scan_inv (with_completed_at (Some t) (with_status "completed" o)).
Proof.
  split; simpl; [|discriminate].
  split; [discriminate | now left].
Qed.

Lemma scan_inv_failed (o : Scan) (t : datetime) (msg : option string) :
  scan_inv (with_completed_at (Some t)
              (with_error_message msg (with_status "failed" o))).
Proof.
  split; simpl; [|discriminate].
  split; [discriminate | now right].
Qed.

Lemma find_scan_some (id : nat) (d : DB) (r : Scan) :
  find_scan id d = Some r -> In r (scans d) /\ s_id r = id.
Proof.
  unfold find_scan. intros H. apply find_some in H. destruct H as [H1 H2].
  split; [exact H1 | now apply Nat.eqb_eq].
Qed.

Lemma insert_object_good (s : Session) (o : pending_object) :
  pending_running o ->
  Forall scan_inv (scans (db s)) ->
  (forall x, scan_obj s = Some x -> scan_inv x) ->
  Forall scan_inv (scans (db (insert_object env s o))) /\
  (forall x, scan_obj (insert_object env s o) = Some x -> scan_inv x).
Proof.
  intros Ho Hdb Hobj. destruct o; simpl in *; auto.
  subst status. split.
  - apply Forall_app. split; [exact Hdb|].
    constructor; [apply scan_inv_running | constructor].
  - intros x [= <-]. apply scan_inv_running.
Qed.

Lemma flush_good (l : list pending_object) (s : Session) :
  Forall pending_running l ->
  Forall scan_inv (scans (db s)) ->
  (forall x, scan_obj s = Some x -> scan_inv x) ->
  Forall scan_inv (scans (db (fold_left (insert_object env) l s))) /\
  (forall x, scan_obj (fold_left (insert_object env) l s) = Some x -> scan_inv x).
Proof.
  revert s. induction l as [|o l IH]; intros s Hl Hdb Hobj; simpl; [auto|].
  inversion Hl as [|? ? Ho Hl']; subst.
  destruct (insert_object_good s o Ho Hdb Hobj) as [H1 H2].
  now apply IH.
Qed.

Lemma write_back_good (o : option Scan) (d : DB) :
  Forall scan_inv (scans d) ->
  (forall x, o = Some x -> scan_inv x) ->
  Forall scan_inv (scans (write_back o d)).
Proof.
  intros Hdb Hobj. destruct o as [obj|]; simpl; [|exact Hdb].
  apply Forall_map. eapply Forall_impl; [|exact Hdb].
  intros r Hr. destruct (s_id r =? s_id obj)%nat; [now apply Hobj | exact Hr].
Qed.

Lemma reload_good (d : DB) (o : option Scan) :
  Forall scan_inv (scans d) ->
  forall x, reload d o = Some x -> scan_inv x.
Proof.
  intros Hdb x. destruct o as [obj|]; simpl; [|discriminate].
  intros H. apply find_scan_some in H. destruct H as [H _].
  rewrite Forall_forall in Hdb. now apply Hdb.
Qed.

Lemma db_commit_good : preserves good (db_commit env).
Proof.
  intros s (Hdb & Hp & Hobj). unfold db_commit.
  destruct (inactive s); [split; [|split]; simpl; auto|].
  destruct (commit_raises env (commits s)) as [e|].
  - split; [|split]; simpl; [exact Hdb | constructor | now apply reload_good].
  - destruct (flush_good (pending s) s Hp Hdb Hobj) as [H1 H2].
    split; [|split]; simpl; [now apply write_back_good | constructor | exact H2].
Qed.

Lemma db_add_good (o : pending_object) :
  pending_running o -> preserves good (db_add o).
Proof.
  intros Ho s (Hdb & Hp & Hobj). split; [|split]; simpl; auto.
  apply Forall_app. split; [exact Hp | now constructor].
Qed.

Lemma db_refresh_scan_good :
  triple good db_refresh_scan
         (fun row s => good s /\ scan_inv row) good.
Proof.
  intros s (Hdb & Hp & Hobj). unfold db_refresh_scan.
  destruct (inactive s); [split; [|split]; auto|].
  destruct (reload (db s) (scan_obj s)) as [row|] eqn:R.
  - pose proof (reload_good _ _ Hdb _ R) as Hrow.
    split; [split; [|split]|]; simpl; auto. now intros o [= <-].
  - split; [|split]; auto.
Qed.

Lemma scan_id_keeps (I : Session -> Prop) : preserves I scan_id.
Proof.
  intros s Hs. unfold scan_id. now destruct (inactive s).
Qed.

Lemma get_or_create_domain_good (name : string) :
  preserves good (get_or_create_domain env name).
Proof.
  unfold get_or_create_domain, preserves.
  eapply triple_bind with (Q := fun _ => good).
  - intros s Hs. unfold query_domain_first. now destruct (inactive s).
  - intros [d|].
    + apply triple_ret. auto.
    + eapply triple_bind; [now apply db_add_good|]. intros u.
      eapply triple_bind; [apply db_commit_good|]. intros u'.
      intros s Hs. unfold db_refresh_domain.
      destruct (inactive s); [exact Hs|].
      destruct (domain_obj s) as [obj|]; [|exact Hs].
      destruct (find_domain (d_id obj) (db s)); exact Hs.
Qed.

Lemma create_scan_record_good (domain : Domain) :
  triple good (create_scan_record env domain)
         (fun row s => good s /\ scan_inv row) good.
Proof.
  unfold create_scan_record.
  eapply triple_bind; [now apply db_add_good|]. intros u.
  eapply triple_bind; [apply db_commit_good|]. intros u'.
  apply db_refresh_scan_good.
Qed.

Lemma mark_completed_good : preserves good (mark_completed env).
Proof.
  intros s (Hdb & Hp & Hobj).
  pose proof (db_commit_good
           {| db := db s; pending := pending s; domain_obj := domain_obj s;
              scan_obj := option_map (with_completed_at (Some (clock env (ticks s))))
                            (option_map (with_status "completed") (scan_obj s));
              commits := commits s; ticks := S (ticks s);
              inactive := inactive s |}) as H.
  unfold mark_completed, bindM, set_scan, utcnow, ret. simpl.
  match type of H with ?P -> _ => assert (G : P) end.
  { split; [|split]; simpl; auto.
    intros o. destruct (scan_obj s); simpl; [|discriminate].
    intros [= <-]. apply scan_inv_completed. }
  specialize (H G).
  destruct (db_commit env _) as [s' [u|e']]; [|exact H].
  unfold scan_id. now destruct (inactive s').
Qed.

Lemma on_failure_good (e : exn) : preserves good (on_failure env e).
Proof.
  intros s (Hdb & Hp & Hobj).
  pose proof (db_commit_good
           {| db := db s; pending := pending s; domain_obj := domain_obj s;
              scan_obj := option_map (with_completed_at (Some (clock env (ticks s))))
                            (option_map (with_error_message (Some (str_exn e)))
                               (option_map (with_status "failed") (scan_obj s)));
              commits := commits s; ticks := S (ticks s);
              inactive := inactive s |}) as H.
  unfold on_failure, bindM, scan_id, set_scan, utcnow, raise. simpl.
  destruct (inactive s) eqn:A; simpl; [exact (conj Hdb (conj Hp Hobj))|].
  rewrite ?A.
  match type of H with ?P -> _ => assert (G : P) end.
  { split; [|split]; simpl; auto.
    intros o. destruct (scan_obj s); simpl; [|discriminate].
    intros [= <-]. apply scan_inv_failed. }
  specialize (H G).
  destruct (db_commit env _) as [s' [u|e']]; exact H.
Qed.

Lemma run_collectors_good (scan_data : ScanCreate) (name : string) (scan : Scan) :
  preserves good (run_collectors env scan_data name scan).
Proof.
  unfold run_collectors.
  eapply triple_bind with (Q := fun _ => good).
  { unfold store_dns_records. eapply triple_bind with (Q := fun _ => good).
    - apply triple_lift_ret; auto.
    - intros rs. apply preserves_for_each. intros r. now apply db_add_good. }
  intros u. eapply triple_bind with (Q := fun _ => good).
  { unfold store_whois. destruct (include_whois scan_data); [|now apply triple_ret].
    eapply triple_bind with (Q := fun _ => good).
    - apply triple_lift_ret; auto.
    - intros [data|]; [now apply db_add_good | now apply triple_ret]. }
  intros u'. eapply triple_bind with (Q := fun _ => good).
  { unfold store_subdomains.
    destruct (include_subdomains scan_data); [|now apply triple_ret].
    eapply triple_bind with (Q := fun _ => good).
    - apply triple_lift_ret; auto.
    - intros items. apply preserves_for_each. intros x. now apply db_add_good. }
  intros u''. apply mark_completed_good.
Qed.

Lemma create_scan_good (scan_data : ScanCreate) :
  triple good (create_scan env scan_data)
         (fun resp s => good s /\ scan_inv (resp_scan resp)) good.
Proof.
  unfold create_scan.
  eapply triple_bind; [apply get_or_create_domain_good|]. intros domain.
  eapply triple_bind; [apply create_scan_record_good|]. intros scan. simpl.
  eapply triple_bind with (Q := fun _ => good).
  { eapply triple_weaken with (P := good) (Q := fun _ => good) (E := good); auto.
    - eapply triple_try; [apply run_collectors_good | apply on_failure_good].
    - now intros s [H _]. }
  intros u. unfold scan_results.
  eapply triple_bind; [apply db_refresh_scan_good|].
  intros row s [Hs Hrow]. simpl. auto.
Qed.

End InvariantFacts.

(* ================================================================== *)
(** * Properties: the paths through the route *)
(* ================================================================== *)

Section PathFacts.

Import Scans.

Lemma next_id_fresh (ids : list nat) : ~ In (next_id ids) ids.
Proof.
  intros H.
  assert (B : Forall (fun k => k <= list_max ids) ids) by now apply list_max_le.
  rewrite Forall_forall in B. specialize (B _ H). unfold next_id in B. lia.
Qed.

Lemma find_app_last {A} (f : A -> bool) (l : list A) (x : A) :
  (forall y, In y l -> f y = false) -> f x = true ->
  find f (l ++ [x]) = Some x.
Proof.
  intros Hl Hx. induction l as [|y l IH]; simpl.
  - now rewrite Hx.
  - rewrite (Hl y (or_introl eq_refl)). apply IH. intros z Hz. apply Hl. now right.
Qed.

Lemma find_scan_last (old : list Scan) (row : Scan) (d : DB) :
  scans d = (old ++ [row])%list -> ~ In (s_id row) (map s_id old) ->
  find_scan (s_id row) d = Some row.
Proof.
  intros Hd Hfresh. unfold find_scan. rewrite Hd. apply find_app_last.
  - intros y Hy. apply Nat.eqb_neq. intros E. apply Hfresh. rewrite <- E.
    now apply in_map.
  - apply Nat.eqb_refl.
Qed.

Lemma write_back_last (o r : Scan) (old : list Scan) (d : DB) :
  scans d = (old ++ [r])%list -> ~ In (s_id o) (map s_id old) ->
  s_id r = s_id o ->
  scans (write_back (Some o) d) = (old ++ [o])%list.
Proof.
  intros Hd Hfresh Hid. simpl. rewrite Hd, map_app. simpl.
  rewrite Hid, Nat.eqb_refl. f_equal.
  clear Hd. induction old as [|x old IH]; simpl; [reflexivity|].
  simpl in Hfresh.
  destruct (Nat.eqb_spec (s_id x) (s_id o)) as [E|_]; [tauto|].
  f_equal. apply IH. tauto.
Qed.

Lemma record_insert_child (o : pending_object) : record_insert o -> child_insert o.
Proof. destruct o; simpl; auto. Qed.

Lemma add_pending_nil (s : Session) : add_pending s [] = s.
Proof. destruct s. unfold add_pending. simpl. now rewrite app_nil_r. Qed.

Lemma add_pending_app (s : Session) (l1 l2 : list pending_object) :
  add_pending (add_pending s l1) l2 = add_pending s (l1 ++ l2).
Proof. unfold add_pending. simpl. now rewrite app_assoc. Qed.

Lemma for_each_db_add {A} (f : A -> pending_object) (l : list A) (s : Session) :
  for_each l (fun x => db_add (f x)) s = (add_pending s (map f l), Ret tt).
Proof.
  revert s. induction l as [|x l IH]; intros s; simpl.
  - now rewrite add_pending_nil.
  - unfold bindM. simpl. rewrite IH. unfold add_pending. simpl.
    now rewrite <- app_assoc.
Qed.

Variable env : Env.

(** Flushing the objects of the collectors leaves domains, scans and the
    [scan] object alone. *)
Lemma flush_children (l : list pending_object) (s : Session) :
  Forall child_insert l ->
  scans (db (fold_left (insert_object env) l s)) = scans (db s) /\
  domains (db (fold_left (insert_object env) l s)) = domains (db s) /\
  scan_obj (fold_left (insert_object env) l s) = scan_obj s /\
  commits (fold_left (insert_object env) l s) = commits s.
Proof.
  revert s. induction l as [|o l IH]; intros s Hl; simpl; [auto|].
  inversion Hl as [|? ? Ho Hl']; subst.
  destruct (IH (insert_object env s o) Hl') as (H1 & H2 & H3 & H4).
  rewrite H1, H2, H3, H4. destruct o; simpl in *; tauto.
Qed.

Lemma flush_records (l : list pending_object) (s : Session) :
  Forall record_insert l ->
  subdomains (db (fold_left (insert_object env) l s)) = subdomains (db s).
Proof.
  revert s. induction l as [|o l IH]; intros s Hl; simpl; [auto|].
  inversion Hl as [|? ? Ho Hl']; subst.
  rewrite (IH _ Hl'). destruct o; simpl in *; tauto.
Qed.

Lemma collected_objects_records (scan_data : ScanCreate) (name : string)
    (scan : Scan) :
  Forall record_insert (collected_objects env scan_data name scan).
Proof.
  unfold collected_objects. apply Forall_app. split.
  - destruct (Dns.scan_dns_records _ _); [|constructor].
    apply Forall_map, Forall_forall. now intros.
  - destruct (include_whois scan_data); [|constructor].
    destruct (Whois.scan_whois _ _ _) as [[data|]|]; repeat constructor.
Qed.

(** STEPS 3 to 5 hand the collected records to the session; then the
    subdomain step raises when it is requested, and STEP 6 runs when it
    is not. *)
Lemma run_collectors_eq (scan_data : ScanCreate) (name : string) (scan : Scan)
    (s : Session) :
  run_collectors env scan_data name scan s =
  if include_subdomains scan_data
  then (add_pending s (collected_objects env scan_data name scan),
        Raise (Exn TypeError "'coroutine' object is not iterable"))
  else mark_completed env (add_pending s (collected_objects env scan_data name scan)).
Proof.
  unfold run_collectors, store_dns_records, store_whois, store_subdomains,
    collected_objects.
  destruct (scan_dns_records_returns (resolve env) name) as [rs ->].
  destruct (scan_whois_returns (fromisoformat env) (whois_lookup env) name) as [w ->].
  unfold bindM at 1. unfold bindM at 1. unfold lift at 1.
  rewrite for_each_db_add.
  set (dns := map _ rs).
  destruct (include_whois scan_data).
  - unfold bindM at 1. unfold bindM at 1. unfold lift at 1.
    destruct w as [data|].
    + unfold db_add at 1. fold (add_pending (add_pending s dns) [NewWhoisData (s_id scan) data]).
      rewrite add_pending_app.
      destruct (include_subdomains scan_data); reflexivity.
    + unfold ret at 1. rewrite app_nil_r.
      destruct (include_subdomains scan_data); reflexivity.
  - unfold bindM at 1. unfold ret at 1. rewrite app_nil_r.
    destruct (include_subdomains scan_data); reflexivity.
Qed.

End PathFacts.

Section SetupFacts.

Import Scans.

Variable env : Env.

(** STEP 2 from a session with nothing waiting, when its commit goes
    through: the new row is appended and becomes the [scan] object. *)
Lemma create_scan_record_commits (domain : Domain) (s : Session) :
  pending s = [] ->
  inactive s = false ->
  commit_raises env (commits s) = None ->
  exists row s',
    create_scan_record env domain s = (s', Ret row) /\
    scans (db s') = (scans (db s) ++ [row])%list /\
    ~ In (s_id row) (map s_id (scans (db s))) /\
    s_domain_id row = d_id domain /\
    s_status row = "running" /\
    s_completed_at row = None /\
    s_error_message row = None /\
    scan_obj s' = Some row /\
    pending s' = [] /\
    commits s' = S (commits s) /\
    domains (db s') = domains (db s) /\
    subdomains (db s') = subdomains (db s) /\
    inactive s' = false.
Proof.
  intros Hp Ha Hc.
  set (row := {| s_id := next_id (map s_id (scans (db s)));
                 s_domain_id := d_id domain;
                 s_started_at := clock env (ticks s);
                 s_completed_at := None;
                 s_status := "running";
                 s_error_message := None |}).
  assert (Hfresh : ~ In (s_id row) (map s_id (scans (db s)))) by apply next_id_fresh.
  assert (Hwb : scans (write_back (Some row)
                         (with_scans (db s) (scans (db s) ++ [row])))
                = (scans (db s) ++ [row])%list).
  { apply (write_back_last row row); auto. }
  unfold create_scan_record, bindM, db_add, db_commit. simpl.
  rewrite Ha, Hc, Hp. simpl. fold row.
  unfold db_refresh_scan. simpl. fold row.
  rewrite (find_scan_last (scans (db s)) row) by auto.
  exists row. eexists. split; [reflexivity|]. simpl.
  repeat (split; [solve [auto]|]). auto.
Qed.

Lemma find_name_last (name : string) (doms : list Domain) (row : Domain) :
  find (fun x => d_domain_name x =? name) doms = None ->
  d_domain_name row = name ->
  find (fun x => d_domain_name x =? name) (doms ++ [row]) = Some row.
Proof.
  intros Hnone Hname. apply find_app_last.
  - intros y Hy. exact (find_none _ _ Hnone y Hy).
  - rewrite Hname. apply String.eqb_refl.
Qed.

(** STEPS 1 and 2 when their commits go through. *)
Lemma setup_succeeds (name : string) (d0 : DB) :
  (forall n, n < setup_commits name d0 -> commit_raises env n = None) ->
  exists domain row s1 s2,
    get_or_create_domain env name (open_session d0) = (s1, Ret domain) /\
    create_scan_record env domain s1 = (s2, Ret row) /\
    after_setup d0 name domain row s2.
Proof.
  intros Hc. unfold setup_commits in Hc. unfold after_setup, setup_commits.
  destruct (find (fun x => d_domain_name x =? name) (domains d0)) as [found|] eqn:F.
  - destruct (create_scan_record_commits found (open_session d0)) as
      (row & s2 & E & H1 & H2 & H3 & H4 & H5 & H6 & H7 & H8 & H9 & H10 & H11 & H12);
      [reflexivity | reflexivity | apply Hc; simpl; lia |].
    exists found, row, (open_session d0), s2.
    split; [|split; [exact E|]].
    { unfold get_or_create_domain, bindM, query_domain_first. simpl. now rewrite F. }
    simpl in *. rewrite H10.
    repeat (split; [solve [auto]|]).
    split. { apply find_some in F. now apply String.eqb_eq. }
    split; [exact F|]. split; [auto | split; [exact H11 | exact H12]].
  - set (drow := {| d_id := next_id (map d_id (domains d0));
                    d_domain_name := name;
                    d_created_at := clock env 0;
                    d_updated_at := clock env 1;
                    d_is_active := true |}).
    set (s1 := {| db := with_domains d0 (domains d0 ++ [drow]);
                  pending := []; domain_obj := Some drow; scan_obj := None;
                  commits := 1; ticks := 2; inactive := false |}).
    assert (G : get_or_create_domain env name (open_session d0) = (s1, Ret drow)).
    { unfold get_or_create_domain, bindM, query_domain_first, db_add, db_commit.
      simpl. rewrite F. simpl. rewrite (Hc 0) by lia. simpl. fold drow.
      unfold db_refresh_domain. simpl. fold drow.
      unfold find_domain. simpl.
      rewrite (find_app_last _ (domains d0) drow).
      - reflexivity.
      - intros y Hy. apply Nat.eqb_neq. intros E.
        assert (Hin : In (d_id y) (map d_id (domains d0))) by now apply in_map.
        rewrite E in Hin. exact (next_id_fresh _ Hin).
      - apply Nat.eqb_refl. }
    destruct (create_scan_record_commits drow s1) as
      (row & s2 & E & H1 & H2 & H3 & H4 & H5 & H6 & H7 & H8 & H9 & H10 & H11 & H12);
      [reflexivity | reflexivity | apply Hc; simpl; lia |].
    exists drow, row, s1, s2.
    split; [exact G|]. split; [exact E|].
    simpl in *. rewrite H10.
    repeat (split; [solve [auto]|]).
    split; [now apply find_name_last|].
    split; [reflexivity | split; [exact H11 | exact H12]].
Qed.

End SetupFacts.

Section TailFacts.

Import Scans.

Variable env : Env.

(** The [except] block when its commit goes through: the row of the
    scan is rewritten as failed, and the caller gets the HTTP error. *)
Lemma on_failure_commits (e : exn) (s : Session) (o r : Scan) (old : list Scan) :
  inactive s = false ->
  scan_obj s = Some o ->
  Forall child_insert (pending s) ->
  commit_raises env (commits s) = None ->
  scans (db s) = (old ++ [r])%list ->
  ~ In (s_id o) (map s_id old) ->
  s_id r = s_id o ->
  exists s',
    on_failure env e s =
      (s', Raise (HTTPException 500 ("Scan failed: " ++ str_exn e))) /\
    scans (db s') =
      (old ++ [with_completed_at (Some (clock env (ticks s)))
                 (with_error_message (Some (str_exn e))
                    (with_status "failed" o))])%list /\
    domains (db s') = domains (db s) /\
    (Forall record_insert (pending s) -> subdomains (db s') = subdomains (db s)).
Proof.
  intros Ha Hobj Hp Hc Hscans Hfresh Hid.
  unfold on_failure, bindM, scan_id, set_scan, utcnow, db_commit, raise. simpl.
  rewrite Ha. simpl. rewrite Ha, Hc, Hobj. simpl.
  set (failed := with_completed_at _ _).
  set (s0 := {| db := db s; pending := pending s; domain_obj := domain_obj s;
                scan_obj := Some failed; commits := commits s;
                ticks := S (ticks s); inactive := false |}).
  destruct (flush_children env (pending s) s0 Hp) as (F1 & F2 & F3 & _).
  eexists. split; [reflexivity|]. simpl. rewrite F3. simpl.
  split; [|split].
  - apply (write_back_last failed r); [now rewrite F1 | exact Hfresh | exact Hid].
  - exact F2.
  - intros Hrec. exact (flush_records env (pending s) s0 Hrec).
Qed.

(** STEP 6 when its commit raises: the database is as before and the
    session is left inactive. *)
Lemma mark_completed_raises (e : exn) (s : Session) :
  inactive s = false ->
  commit_raises env (commits s) = Some e ->
  exists s',
    mark_completed env s = (s', Raise e) /\
    db s' = db s /\ inactive s' = true.
Proof.
  intros Ha Hc.
  unfold mark_completed, bindM, set_scan, utcnow, db_commit. simpl.
  rewrite Ha, Hc. simpl.
  eexists. split; [reflexivity|]. simpl. auto.
Qed.

(** The [except] block in an inactive session: the read of [scan.id]
    raises and nothing else is done. *)
Lemma on_failure_inactive (e : exn) (s : Session) :
  inactive s = true -> on_failure env e s = (s, Raise pending_rollback).
Proof.
  intros Ha. unfold on_failure, bindM, scan_id. now rewrite Ha.
Qed.

Variables (old : list Scan) (id did : nat) (doms : list Domain).
Hypothesis id_fresh : ~ In id (map s_id old).

Local Abbreviation Inv := (scans_extended old id did doms).

Lemma tail_db_commit : preserves Inv (db_commit env).
Proof.
  intros s ((r & Hs & Hid & Hdid) & Hd & Hp & Hobj). unfold db_commit.
  destruct (inactive s).
  { split; [exists r; auto|]. split; [exact Hd|]. split; [exact Hp | exact Hobj]. }
  destruct (commit_raises env (commits s)) as [e|].
  - split; [exists r; auto|]. split; [exact Hd|]. split; [constructor|].
    simpl. intros o Ho. destruct (scan_obj s) as [obj|]; simpl in Ho; [|discriminate].
    destruct (Hobj obj eq_refl) as [Hoid _].
    apply find_scan_some in Ho. destruct Ho as [Hin Hid'].
    split; [congruence|].
    rewrite Hs in Hin. apply in_app_or in Hin. destruct Hin as [Hin | [<- | []]].
    + exfalso. apply id_fresh. rewrite <- Hoid, <- Hid'. now apply in_map.
    + exact Hdid.
  - destruct (flush_children env (pending s) s Hp) as (F1 & F2 & F3 & _).
    simpl. rewrite F3.
    split; [|split; [|split; [constructor | exact Hobj]]].
    + destruct (scan_obj s) as [obj|] eqn:O.
      * destruct (Hobj obj eq_refl) as [Hoid Hodid].
        exists obj. split; [|auto].
        apply (write_back_last obj r); [now rewrite F1 | now rewrite Hoid | congruence].
      * exists r. simpl. rewrite F1. auto.
    + destruct (scan_obj s); simpl; congruence.
Qed.

Lemma tail_db_add (o : pending_object) : child_insert o -> preserves Inv (db_add o).
Proof.
  intros Ho s (Hr & Hd & Hp & Hobj).
  split; [exact Hr|]. split; [exact Hd|]. split; [|exact Hobj].
  simpl. apply Forall_app. split; [exact Hp | now constructor].
Qed.

Lemma tail_set_scan (f : Scan -> Scan) :
  (forall o, s_id (f o) = s_id o /\ s_domain_id (f o) = s_domain_id o) ->
  preserves Inv (set_scan f).
Proof.
  intros Hf s (Hr & Hd & Hp & Hobj).
  split; [exact Hr|]. split; [exact Hd|]. split; [exact Hp|].
  simpl. intros o Ho. destruct (scan_obj s) as [obj|]; simpl in Ho; [|discriminate].
  injection Ho as <-. destruct (Hf obj) as [-> ->]. now apply Hobj.
Qed.

Lemma tail_utcnow : preserves Inv (utcnow env).
Proof. intros s Hs. exact Hs. Qed.

Lemma tail_refresh : preserves Inv db_refresh_scan.
Proof.
  intros s ((r & Hs & Hid & Hdid) & Hd & Hp & Hobj). unfold db_refresh_scan.
  destruct (inactive s).
  { split; [exists r; auto|]. split; [exact Hd|]. split; [exact Hp | exact Hobj]. }
  destruct (reload (db s) (scan_obj s)) as [row|] eqn:R.
  - split; [exists r; auto|]. split; [exact Hd|]. split; [exact Hp|].
    simpl. intros o [= <-].
    destruct (scan_obj s) as [obj|]; simpl in R; [|discriminate].
    destruct (Hobj obj eq_refl) as [Hoid _].
    apply find_scan_some in R. destruct R as [Hin Hid'].
    split; [congruence|].
    rewrite Hs in Hin. apply in_app_or in Hin. destruct Hin as [Hin | [<- | []]].
    + exfalso. apply id_fresh. rewrite <- Hoid, <- Hid'. now apply in_map.
    + exact Hdid.
  - split; [exists r; auto|]. auto.
Qed.

Lemma tail_mark_completed : preserves Inv (mark_completed env).
Proof.
  unfold mark_completed.
  eapply triple_bind with (Q := fun _ => Inv); [now apply tail_set_scan|]. intros u.
  eapply triple_bind with (Q := fun _ => Inv); [apply tail_utcnow|]. intros now.
  eapply triple_bind with (Q := fun _ => Inv); [now apply tail_set_scan|]. intros u'.
  eapply triple_bind with (Q := fun _ => Inv); [apply tail_db_commit|]. intros u''.
  eapply triple_bind with (Q := fun _ => Inv); [apply scan_id_keeps|]. intros k.
  now apply triple_ret.
Qed.

Lemma tail_on_failure (e : exn) : preserves Inv (on_failure env e).
Proof.
  unfold on_failure.
  eapply triple_bind with (Q := fun _ => Inv); [apply scan_id_keeps|]. intros k.
  eapply triple_bind with (Q := fun _ => Inv); [now apply tail_set_scan|]. intros u.
  eapply triple_bind with (Q := fun _ => Inv); [now apply tail_set_scan|]. intros u0.
  eapply triple_bind with (Q := fun _ => Inv); [apply tail_utcnow|]. intros now.
  eapply triple_bind with (Q := fun _ => Inv); [now apply tail_set_scan|]. intros u'.
  eapply triple_bind with (Q := fun _ => Inv); [apply tail_db_commit|]. intros u''.
  intros s Hs. exact Hs.
Qed.

Lemma tail_run_collectors (scan_data : ScanCreate) (name : string) (scan : Scan) :
  preserves Inv (run_collectors env scan_data name scan).
Proof.
  intros s Hs. rewrite run_collectors_eq.
  assert (Ha : Inv (add_pending s (collected_objects env scan_data name scan))).
  { destruct Hs as (Hr & Hd & Hp & Hobj).
    split; [exact Hr|]. split; [exact Hd|]. split; [|exact Hobj].
    simpl. apply Forall_app. split; [exact Hp|].
    eapply Forall_impl; [|apply collected_objects_records].
    apply record_insert_child. }
  destruct (include_subdomains scan_data); [exact Ha|].
  now apply tail_mark_completed.
Qed.

(** From STEP 3 to the end. *)
Lemma tail_rest (scan_data : ScanCreate) (name : string) (scan : Scan)
    (domain : Domain) :
  preserves Inv (try_except (run_collectors env scan_data name scan) (on_failure env)
               ;;; scan_results domain).
Proof.
  eapply triple_bind with (Q := fun _ => Inv).
  - eapply triple_try; [apply tail_run_collectors | apply tail_on_failure].
  - intros u. unfold scan_results.
    eapply triple_bind with (Q := fun _ => Inv); [apply tail_refresh|].
    intros row s Hs. exact Hs.
Qed.

End TailFacts.

(* ================================================================== *)
(** * The orchestrator against the specification *)
(* ================================================================== *)

Section ScanClaims.

Import Scans Examples.

(** Once STEPS 1 and 2 are through, the route goes on from the session
    they leave. *)
Lemma create_scan_after_setup (env : Env) (scan_data : ScanCreate) (d0 : DB)
    (domain : Domain) (row : Scan) (s1 s2 : Session) :
  get_or_create_domain env (lower (domain_name scan_data)) (open_session d0)
    = (s1, Ret domain) ->
  create_scan_record env domain s1 = (s2, Ret row) ->
  create_scan env scan_data (open_session d0) =
  (try_except (run_collectors env scan_data (lower (domain_name scan_data)) row)
              (on_failure env)
   ;;; scan_results domain) s2.
Proof.
  intros G E. unfold create_scan. unfold bindM at 1. rewrite G.
  unfold bindM at 1. now rewrite E.
Qed.

Lemma after_setup_extended (d0 : DB) (name : string) (domain : Domain)
    (row : Scan) (s : Session) :
  after_setup d0 name domain row s ->
  scans_extended (scans d0) (s_id row) (d_id domain) (domains (db s)) s.
Proof.
  intros (H1 & H2 & H3 & H4 & H5 & H6 & H7 & H8 & _).
  split; [exists row; auto|]. split; [reflexivity|].
  split; [rewrite H8; constructor|].
  intros o Ho. rewrite H7 in Ho. injection Ho as <-. auto.
Qed.

(** A request whose first commits go through appends one row to
    [scans], linked to the domain of that name, and touches no other
    row; the domain is the one found, or one appended to [domains]. *)
Lemma run_create_scan_appends (env : Env) (scan_data : ScanCreate) (d0 : DB) :
  let name := lower (domain_name scan_data) in
  (forall n, n < setup_commits name d0 -> commit_raises env n = None) ->
  exists domain row,
    scans (fst (run_create_scan env scan_data d0)) = (scans d0 ++ [row])%list /\
    ~ In (s_id row) (map s_id (scans d0)) /\
    s_domain_id row = d_id domain /\
    d_domain_name domain = name /\
    find (fun x => d_domain_name x =? name)
         (domains (fst (run_create_scan env scan_data d0))) = Some domain /\
    match find (fun x => d_domain_name x =? name) (domains d0) with
    | Some found =>
        domain = found /\ domains (fst (run_create_scan env scan_data d0)) = domains d0
    | None =>
        domains (fst (run_create_scan env scan_data d0)) = (domains d0 ++ [domain])%list
    end.
Proof.
  intros name Hc.
  destruct (setup_succeeds env name d0 Hc) as (domain & row & s1 & s2 & G & E & A).
  pose proof (after_setup_extended _ _ _ _ _ A) as X.
  destruct A as (_ & Hfresh & _ & _ & _ & _ & _ & _ & _ & Hname & Hfind & Hdoms & _).
  pose proof (tail_rest env (scans d0) (s_id row) (d_id domain) (domains (db s2))
                Hfresh scan_data name row domain s2 X) as T.
  unfold run_create_scan. rewrite (create_scan_after_setup env scan_data d0 domain row s1 s2 G E).
  fold name.
  destruct ((try_except (run_collectors env scan_data name row) (on_failure env)
             ;;; scan_results domain) s2) as [sf r].
  assert (Hsf : scans_extended (scans d0) (s_id row) (d_id domain) (domains (db s2)) sf)
    by (destruct r; exact T).
  destruct Hsf as ((r' & Hs & Hid & Hdid) & Hd & _).
  exists domain, r'. simpl. rewrite Hd, Hid.
  repeat (split; [solve [auto]|]). exact Hdoms.
Qed.

Lemma filter_find_none {A} (p : A -> bool) (l : list A) :
  find p l = None -> filter p l = [].
Proof.
  induction l as [|x l IH]; simpl; [reflexivity|].
  destruct (p x); [discriminate | exact IH].
Qed.

Lemma filter_unique_name (name : string) (l : list Domain) (d : Domain) :
  NoDup (map d_domain_name l) ->
  find (fun x => d_domain_name x =? name) l = Some d ->
  filter (fun x => d_domain_name x =? name) l = [d].
Proof.
  induction l as [|x l IH]; simpl; [discriminate|].
  intros Hnd. inversion Hnd as [|? ? Hnotin Hnd']; subst.
  destruct (String.eqb_spec (d_domain_name x) name) as [E|_].
  - intros [= <-]. f_equal. apply filter_find_none.
    destruct (find (fun y => d_domain_name y =? name) l) as [y|] eqn:F; [|reflexivity].
    apply find_some in F. destruct F as [Hin Hy].
    apply String.eqb_eq in Hy. exfalso. apply Hnotin.
    rewrite E, <- Hy. now apply in_map.
  - now apply IH.
Qed.

(** C6.  A request keeps the status of every scan in step with its
    completion time: when each row of [scans] satisfies the invariant
    before, each row satisfies it after, whichever commits raise, and so
    does the scan of the response. *)
Theorem status_agrees_with_completion_time
    (env : Env) (scan_data : ScanCreate) (d0 : DB) :
  Forall scan_inv (scans d0) ->
  Forall scan_inv (scans (fst (run_create_scan env scan_data d0))) /\
  (forall resp, snd (run_create_scan env scan_data d0) = Ret resp ->
                scan_inv (resp_scan resp)).
Proof.
  intros H0.
  assert (G : good (open_session d0)).
  { split; [exact H0|]. split; [constructor | discriminate]. }
  pose proof (create_scan_good env scan_data (open_session d0) G) as T.
  unfold run_create_scan.
  destruct (create_scan env scan_data (open_session d0)) as [s [resp|e]]; simpl.
  - destruct T as [(Hdb & _) Hresp]. split; [exact Hdb|]. now intros ? [= <-].
  - destruct T as (Hdb & _). split; [exact Hdb | discriminate].
Qed.

Lemma status_agrees_with_completion_time_first_scan :
  Forall scan_inv (scans (fst (run_create_scan working_env dns_only_request empty_db))) /\
  (forall resp, snd (run_create_scan working_env dns_only_request empty_db) = Ret resp ->
                scan_inv (resp_scan resp)).
Proof.
  apply (status_agrees_with_completion_time working_env dns_only_request empty_db).
  constructor.
Defined.

(** C7.  Two requests for one name, the first commits of each going
    through: each appends one row to [scans] and leaves the rows before
    it as they are, the two rows have different keys and carry the key
    of the single row of [domains] with the lower-cased name, and the
    second request leaves [domains] as the first left it. *)
Theorem repeated_scans_share_one_domain
    (env1 env2 : Env) (first second : ScanCreate) (d0 : DB) :
  let name := lower (domain_name first) in
  let d1 := fst (run_create_scan env1 first d0) in
  let d2 := fst (run_create_scan env2 second d1) in
  domain_name second = domain_name first ->
  names_unique d0 ->
  (forall n, n < setup_commits name d0 -> commit_raises env1 n = None) ->
  commit_raises env2 0 = None ->
  exists domain scan1 scan2,
    scans d1 = (scans d0 ++ [scan1])%list /\
    scans d2 = (scans d0 ++ [scan1; scan2])%list /\
    s_id scan1 <> s_id scan2 /\
    ~ In (s_id scan1) (map s_id (scans d0)) /\
    ~ In (s_id scan2) (map s_id (scans d0)) /\
    s_domain_id scan1 = d_id domain /\
    s_domain_id scan2 = d_id domain /\
    d_domain_name domain = name /\
    filter (fun x => d_domain_name x =? name) (domains d2) = [domain] /\
    domains d2 = domains d1.
Proof.
  intros name d1 d2 Hsame Huniq Hc1 Hc2.
  destruct (run_create_scan_appends env1 first d0 Hc1)
    as (domain & scan1 & Hs1 & Hf1 & Hd1 & Hn1 & Hfind1 & Hdoms1).
  fold name in Hs1, Hfind1, Hdoms1, Hn1. fold d1 in Hs1, Hfind1, Hdoms1.
  assert (Hk : setup_commits (lower (domain_name second)) d1 = 1).
  { unfold setup_commits. rewrite Hsame. fold name. now rewrite Hfind1. }
  destruct (run_create_scan_appends env2 second d1)
    as (domain' & scan2 & Hs2 & Hf2 & Hd2 & Hn2 & Hfind2 & Hdoms2).
  { rewrite Hk. intros n Hn. assert (n = 0) as -> by lia. exact Hc2. }
  rewrite Hsame in Hfind2, Hdoms2, Hn2.
  fold name in Hfind2, Hdoms2, Hn2. fold d2 in Hs2, Hfind2, Hdoms2.
  rewrite Hfind1 in Hdoms2. destruct Hdoms2 as [-> Hdoms2].
  rewrite Hs1, map_app, in_app_iff in Hf2. simpl in Hf2.
  exists domain, scan1, scan2.
  split; [exact Hs1|].
  split; [rewrite Hs2, Hs1, <- app_assoc; reflexivity|].
  split; [intros E; apply Hf2; right; left; exact E|].
  split; [exact Hf1|].
  split; [intros Hin; apply Hf2; left; exact Hin|].
  split; [exact Hd1|]. split; [exact Hd2|]. split; [exact Hn1|].
  split; [|exact Hdoms2].
  rewrite Hdoms2.
  destruct (find (fun x => d_domain_name x =? name) (domains d0)) as [found|] eqn:F.
  - destruct Hdoms1 as [-> ->]. now apply filter_unique_name.
  - rewrite Hdoms1, filter_app, (filter_find_none _ _ F). simpl.
    rewrite Hn1, String.eqb_refl. reflexivity.
Qed.

Lemma repeated_scans_share_one_domain_example :
  exists domain scan1 scan2,
    scans (fst (run_create_scan working_env dns_only_request
                  (fst (run_create_scan working_env dns_only_request empty_db))))
      = [scan1; scan2] /\
    s_id scan1 <> s_id scan2 /\
    s_domain_id scan1 = d_id domain /\
    s_domain_id scan2 = d_id domain /\
    d_domain_name domain = "example.com" /\
    domains (fst (run_create_scan working_env dns_only_request
                    (fst (run_create_scan working_env dns_only_request empty_db))))
      = [domain].
Proof.
  destruct (repeated_scans_share_one_domain working_env working_env
              dns_only_request dns_only_request empty_db)
    as (domain & scan1 & scan2 & H1 & H2 & H3 & _ & _ & H6 & H7 & H8 & H9 & _).
  - reflexivity.
  - constructor.
  - reflexivity.
  - reflexivity.
  - exists domain, scan1, scan2.
    split; [exact H2|]. split; [exact H3|]. split; [exact H6|].
    split; [exact H7|]. split; [exact H8|]. exact H9.
Defined.

End ScanClaims.

(* ================================================================== *)
(** * The failure path of the orchestrator against the specification *)
(* ================================================================== *)

Section FailureClaims.

Import Scans Examples.

Lemma on_failure_never_returns (env : Env) (e : exn) :
  triple (fun _ => True) (on_failure env e) (fun _ _ => False) (fun _ => True).
Proof.
  intros s _. unfold on_failure, bindM, scan_id, set_scan, utcnow, raise.
  destruct (inactive s); simpl; [exact I|].
  destruct (db_commit env _) as [s' [u|e']]; exact I.
Qed.

(** With the subdomain step requested the [try] block raises, so the
    route ends in the [except] block. *)
Lemma create_scan_never_returns (env : Env) (scan_data : ScanCreate) :
  include_subdomains scan_data = true ->
  triple (fun _ => True) (create_scan env scan_data) (fun _ _ => False) (fun _ => True).
Proof.
  intros Hsub. unfold create_scan.
  eapply triple_bind with (Q := fun _ _ => True).
  { intros s _. now destruct (get_or_create_domain env _ s) as [s' [d|e]]. }
  intros domain.
  eapply triple_bind with (Q := fun _ _ => True).
  { intros s _. now destruct (create_scan_record env domain s) as [s' [d|e]]. }
  intros scan. simpl.
  eapply triple_bind with (Q := fun _ _ => False); [|intros u s []].
  eapply triple_try with (E' := fun _ => True); [|apply on_failure_never_returns].
  intros s _. rewrite run_collectors_eq, Hsub. exact I.
Qed.

(** C3.  With [include_subdomains] set, iterating what the stub returns
    raises [TypeError], so the request never ends in a response; when
    the commits up to that of the [except] block go through, the scan is
    recorded as failed with the message of the [TypeError], no subdomain
    row is written and the caller gets the HTTP error 500. *)
Theorem subdomain_stub_fails_the_scan
    (env : Env) (scan_data : ScanCreate) (d0 : DB) :
  let name := lower (domain_name scan_data) in
  let out := run_create_scan env scan_data d0 in
  include_subdomains scan_data = true ->
  Subdomains.iterate (Subdomains.scan_subdomains name)
    = Raise (Exn TypeError "'coroutine' object is not iterable") /\
  (forall resp, snd out <> Ret resp) /\
  ((forall n, n <= setup_commits name d0 -> commit_raises env n = None) ->
   exists row,
     scans (fst out) = (scans d0 ++ [row])%list /\
     s_status row = "failed" /\
     s_error_message row = Some "'coroutine' object is not iterable" /\
     s_completed_at row <> None /\
     subdomains (fst out) = subdomains d0 /\
     snd out = Raise (HTTPException 500
                        "Scan failed: 'coroutine' object is not iterable")).
Proof.
  intros name out Hsub. split; [reflexivity|]. split.
  - intros resp. unfold out, run_create_scan.
    pose proof (create_scan_never_returns env scan_data Hsub (open_session d0) I) as T.
    destruct (create_scan env scan_data (open_session d0)) as [s [r|e]];
      simpl; [destruct T | discriminate].
  - intros Hc.
    destruct (setup_succeeds env name d0) as (domain & row & s1 & s2 & G & E & A).
    { intros n Hn. apply Hc. lia. }
    destruct A as (Hs & Hfresh & _ & _ & _ & _ & Hobj & Hp & Hk & _ & _ & _ & Hsubs & Ha).
    set (extra := collected_objects env scan_data name row).
    destruct (on_failure_commits env
                (Exn TypeError "'coroutine' object is not iterable")
                (add_pending s2 extra) row row (scans d0))
      as (s3 & F & Hs3 & _ & Hsub3); auto.
    { simpl. rewrite Hp. simpl.
      eapply Forall_impl; [apply record_insert_child | apply collected_objects_records]. }
    { simpl. rewrite Hk. apply Hc. lia. }
    assert (Hout : out = (db s3, Raise (HTTPException 500
                            "Scan failed: 'coroutine' object is not iterable"))).
    { unfold out, run_create_scan.
      rewrite (create_scan_after_setup env scan_data d0 domain row s1 s2 G E).
      fold name. unfold bindM at 1. unfold try_except.
      rewrite run_collectors_eq, Hsub. fold extra.
      now rewrite isinstance_Exception, F. }
    rewrite Hout. simpl.
    eexists. split; [exact Hs3|]. simpl.
    repeat (split; [solve [auto; discriminate]|]).
    split; [|reflexivity].
    rewrite Hsub3; [exact Hsubs|].
    simpl. rewrite Hp. apply collected_objects_records.
Qed.

Lemma subdomain_stub_fails_the_scan_by_default :
  include_subdomains (ScanCreate_defaults "example.com") = true /\
  exists row,
    scans (fst (run_create_scan working_env (ScanCreate_defaults "example.com") empty_db))
      = [row] /\
    s_status row = "failed" /\
    s_error_message row = Some "'coroutine' object is not iterable" /\
    snd (run_create_scan working_env (ScanCreate_defaults "example.com") empty_db)
      = Raise (HTTPException 500 "Scan failed: 'coroutine' object is not iterable").
Proof.
  split; [reflexivity|].
  destruct (subdomain_stub_fails_the_scan working_env
              (ScanCreate_defaults "example.com") empty_db eq_refl)
    as (_ & _ & H).
  destruct H as (row & H1 & H2 & H3 & _ & _ & H6); [reflexivity|].
  exists row. auto.
Defined.

(** C2, which the code misses.  When the commit of STEP 6 raises, the
    transaction is rolled back and the session is left inactive.  The
    [except] block calls no [db.rollback()]: its first statement, the
    log line that reads [scan.id], raises [PendingRollbackError], and
    its own commit is never reached, whatever that commit would have
    done.  The scan stays as STEP 2 committed it, running, without
    error message or completion time, and the caller gets the
    [PendingRollbackError]. *)
Theorem final_commit_failure_leaves_scan_running
    (env : Env) (scan_data : ScanCreate) (d0 : DB) (e : exn) :
  let name := lower (domain_name scan_data) in
  let out := run_create_scan env scan_data d0 in
  include_subdomains scan_data = false ->
  (forall n, n < setup_commits name d0 -> commit_raises env n = None) ->
  commit_raises env (setup_commits name d0) = Some e ->
  exists row,
    scans (fst out) = (scans d0 ++ [row])%list /\
    s_status row = "running" /\
    s_error_message row = None /\
    s_completed_at row = None /\
    snd out = Raise pending_rollback.
Proof.
  intros name out Hsub Hc He.
  destruct (setup_succeeds env name d0 Hc) as (domain & row & s1 & s2 & G & E & A).
  destruct A as (Hs & _ & _ & Hst & Hdone & Hmsg & _ & _ & Hk & _ & _ & _ & _ & Ha).
  set (extra := collected_objects env scan_data name row).
  destruct (mark_completed_raises env e (add_pending s2 extra))
    as (s3 & M & Hdb3 & Ha3); [exact Ha | simpl; now rewrite Hk |].
  assert (Hout : out = (db s3, Raise pending_rollback)).
  { unfold out, run_create_scan.
    rewrite (create_scan_after_setup env scan_data d0 domain row s1 s2 G E).
    fold name. unfold bindM at 1. unfold try_except.
    rewrite run_collectors_eq, Hsub. fold extra.
    now rewrite M, isinstance_Exception, (on_failure_inactive env e s3 Ha3). }
  rewrite Hout. simpl. rewrite Hdb3. simpl.
  exists row. auto.
Qed.

Lemma final_commit_failure_leaves_scan_running_example :
  exists row,
    scans (fst (run_create_scan failing_once_env dns_only_request empty_db)) = [row] /\
    s_status row = "running" /\
    s_error_message row = None /\
    s_completed_at row = None /\
    snd (run_create_scan failing_once_env dns_only_request empty_db)
      = Raise pending_rollback.
Proof.
  apply (final_commit_failure_leaves_scan_running failing_once_env dns_only_request
           empty_db connection_lost).
  - reflexivity.
  - intros n Hn. change (n < 2) in Hn.
    destruct n as [|[|n]]; [reflexivity | reflexivity | lia].
  - reflexivity.
Defined.

End FailureClaims.

(* ================================================================== *)
(** * More on the normalizer and the DNS collector *)
(* ================================================================== *)

Section DnsMore.

Import Dns Shapes Examples.

Lemma append_assoc (s t u : string) : (s ++ t) ++ u = s ++ (t ++ u).
Proof.
  induction s as [|a s IH]; simpl; [reflexivity | now rewrite IH].
Qed.

Lemma rstrip_unchanged (c : ascii) (s : string) :
  endswith s c = false -> rstrip c s = s.
Proof.
  induction s as [|a s IH]; simpl; [reflexivity|].
  destruct s as [|b s'].
  - simpl. now intros ->.
  - intros H. rewrite (IH H). reflexivity.
Qed.

Lemma rstrip_app_char (c : ascii) (s : string) :
  rstrip c (s ++ String c EmptyString) = rstrip c s.
Proof.
  induction s as [|a s IH]; simpl.
  - now rewrite Ascii.eqb_refl.
  - now rewrite IH.
Qed.

Lemma endswith_app (s t : string) (c : ascii) :
  t <> "" -> endswith (s ++ t) c = endswith t c.
Proof.
  intros Ht. induction s as [|a s IH]; simpl; [reflexivity|].
  rewrite IH. destruct (s ++ t) eqn:E; [|reflexivity].
  destruct s; simpl in E; [contradiction | discriminate].
Qed.

(** The printed name is the dotted labels followed by the root dot. *)
Lemma name_str_dotted (n : dns_name) :
  n <> [] -> name_str n = String.concat "." n ++ ".".
Proof.
  destruct n as [|l n]; [contradiction|]. intros _. unfold name_str.
  revert l. induction n as [|l' n IH]; intros l.
  - reflexivity.
  - change (map (fun label => label ++ ".") (l :: l' :: n))
      with ((l ++ ".") :: map (fun label => label ++ ".") (l' :: n)).
    change (String.concat "" ((l ++ ".") :: map (fun label => label ++ ".") (l' :: n)))
      with ((l ++ ".") ++ "" ++ String.concat "" (map (fun label => label ++ ".") (l' :: n))).
    rewrite IH.
    change (String.concat "." (l :: l' :: n))
      with (l ++ "." ++ String.concat "." (l' :: n)).
    simpl. now rewrite !append_assoc.
Qed.

Lemma concat_nonempty (n : dns_name) :
  last n "" <> "" -> String.concat "." n <> "".
Proof.
  destruct n as [|l [|l' n]]; simpl; auto.
  intros _. destruct l; discriminate.
Qed.

Lemma concat_endswith (n : dns_name) (c : ascii) :
  n <> [] -> last n "" <> "" ->
  endswith (String.concat "." n) c = endswith (last n "") c.
Proof.
  destruct n as [|l n]; [contradiction|]. intros _.
  revert l. induction n as [|l' n IH]; intros l Hl.
  - reflexivity.
  - change (String.concat "." (l :: l' :: n))
      with (l ++ "." ++ String.concat "." (l' :: n)).
    change (last (l :: l' :: n) "") with (last (l' :: n) "") in *.
    rewrite endswith_app.
    + rewrite (endswith_app "." (String.concat "." (l' :: n)) c).
      * now apply IH.
      * now apply concat_nonempty.
    + discriminate.
Qed.

(** X2.  An MX record whose exchange has labels, the last of them plain,
    gives the dotted labels as value, the preference as priority and the
    TTL of the answer. *)
Theorem mx_record_is_dotted_exchange
    (rd : rdata) (labels : dns_name) (preference : Z) (ans_ttl : Z) :
  rd_exchange rd = Some labels ->
  rd_preference rd = Some preference ->
  labels <> [] ->
  plain_label (last labels "") ->
  build_record "MX" ans_ttl rd =
    Ret {| record_type := "MX"; record_value := String.concat "." labels;
           ttl := ans_ttl; priority := Some preference |}.
Proof.
  intros He Hp Hn [Hl Hd]. unfold build_record, _extract_record_value. simpl.
  rewrite He, Hp. simpl.
  rewrite name_str_dotted by assumption.
  rewrite rstrip_app_char, rstrip_unchanged; [reflexivity|].
  now rewrite concat_endswith.
Qed.

Lemma mx_record_is_dotted_exchange_mail :
  build_record "MX" 600 mx_rdata =
    Ret {| record_type := "MX"; record_value := "mail.example.com";
           ttl := 600; priority := Some 10%Z |}.
Proof.
  apply (mx_record_is_dotted_exchange mx_rdata ["mail"; "example"; "com"] 10 600).
  - reflexivity.
  - reflexivity.
  - discriminate.
  - split; [discriminate | reflexivity].
Defined.

Lemma decode_all_returns (l : list segment) :
  (exists texts, decode_all l = Ret texts) <-> Forall decodable l.
Proof.
  induction l as [|s l IH]; simpl.
  - split; [constructor | now exists []].
  - split.
    + intros [texts H].
      destruct s as [b|t]; simpl in *.
      * unfold decode in H. destruct (utf8_valid (map to_N b)) eqn:V; [|discriminate].
        simpl in H. destruct (decode_all l) as [ts|e]; [|discriminate].
        constructor; [exact V | apply IH; now exists ts].
      * destruct (decode_all l) as [ts|e]; [|discriminate].
        constructor; [exact I | apply IH; now exists ts].
    + intros H. inversion H as [|? ? Hs Hl]; subst.
      apply IH in Hl. destruct Hl as [ts Hts]. rewrite Hts.
      destruct s as [b|t]; simpl in *.
      * unfold decode. rewrite Hs. simpl. eauto.
      * eauto.
Qed.

(** X3.  The normalizer returns a value exactly when the record has the
    attributes its type's branch reads and, for TXT, every
    character-string decodes; otherwise it raises [AttributeError] or
    [UnicodeDecodeError]. *)
Theorem normalizer_returns_iff_attributes (rd : rdata) (rtype : string) :
  ((exists v, _extract_record_value rd rtype = Ret v) <-> has_attributes rtype rd) /\
  (forall e, _extract_record_value rd rtype = Raise e ->
             class_of e = AttributeError \/ class_of e = UnicodeDecodeError).
Proof.
  split; [|apply extract_raises].
  unfold _extract_record_value, has_attributes.
  destruct (rtype =? "MX").
  { destruct (rd_exchange rd); simpl; split.
    - discriminate.
    - eauto.
    - intros [v H]. discriminate.
    - intros H. now elim H. }
  destruct (rtype =? "TXT").
  { destruct (rd_strings rd) as [segs|]; simpl; split.
    - intros [v H]. exists segs. split; [reflexivity|].
      apply decode_all_returns.
      destruct (decode_all segs) as [ts|e]; [now exists ts | discriminate].
    - intros (segs' & [= <-] & Hd). apply decode_all_returns in Hd.
      destruct Hd as [ts ->]. simpl. eauto.
    - intros [v H]. discriminate.
    - intros (segs' & H & _). discriminate. }
  destruct (rtype =? "SOA"); [|split; eauto].
  destruct (rd_mname rd), (rd_rname rd), (rd_serial rd); simpl; split;
    try (intros [v H]; discriminate); try (intros (H1 & H2 & H3); congruence);
    try (intros _; repeat split; discriminate); eauto.
Qed.

Lemma utf8_valid_ascii (l : list N) :
  Forall (fun b => (b < 128)%N) l -> utf8_valid l = true.
Proof.
  induction 1 as [|b l Hb _ IH]; simpl; [reflexivity|].
  apply N.ltb_lt in Hb. now rewrite Hb.
Qed.

(** X7.  A TXT answer whose character-strings are ASCII bytes always
    normalizes, to those bytes read as text and joined. *)
Theorem ascii_txt_always_normalizes (rd : rdata) (chunks : list (list byte)) :
  rd_strings rd = Some (map Bytes chunks) ->
  Forall (Forall is_ascii) chunks ->
  _extract_record_value rd "TXT" =
    Ret (String.concat "" (map string_of_list_byte chunks)).
Proof.
  intros Hs Ha. unfold _extract_record_value. simpl. rewrite Hs. simpl.
  assert (D : decode_all (map Bytes chunks) = Ret (map string_of_list_byte chunks)).
  { clear Hs. induction Ha as [|c cs Hc _ IH]; simpl; [reflexivity|].
    unfold decode. rewrite utf8_valid_ascii by (apply Forall_map; exact Hc).
    simpl. now rewrite IH. }
  now rewrite D.
Qed.

End DnsMore.

Section CollectorMore.

Import Dns Shapes Examples.

Variable resolve : resolver.
Variable domain : string.

(** Whatever the resolver does, the loop queries a prefix of the types
    and returns what those types collected. *)
Lemma scan_types_prefix (types : list string) (results : list record)
    (calls : list string) :
  exists n,
    scan_types resolve domain types results calls =
    (Ret (results ++ flat_map (collected resolve domain) (firstn n types))%list,
     (calls ++ firstn n types)%list) /\
    (types <> [] -> 0 < n).
Proof.
  revert results calls.
  induction types as [|t types IH]; intros results calls.
  - exists 0. simpl. rewrite !app_nil_r. split; [reflexivity | congruence].
  - simpl. rewrite try_body_app.
    assert (Hgo : exists n,
               scan_types resolve domain types
                 (results ++ collected resolve domain t)%list (calls ++ [t])%list =
               (Ret (results ++ flat_map (collected resolve domain)
                                  (firstn n (t :: types)))%list,
                (calls ++ firstn n (t :: types))%list) /\
               (t :: types <> [] -> 0 < n)).
    { destruct (IH (results ++ collected resolve domain t)%list (calls ++ [t])%list)
        as (n & E & _).
      exists (S n). simpl. rewrite E, <- !app_assoc. simpl.
      split; [reflexivity | lia]. }
    destruct (snd (try_body resolve domain t [])) as [e|] eqn:S; [|exact Hgo].
    destruct (isinstance e NXDOMAIN) eqn:N.
    + exists 1. simpl.
      rewrite (collected_raise resolve domain t e (try_body_nxdomain resolve domain t e S N)).
      rewrite !app_nil_r. split; [reflexivity | lia].
    + rewrite isinstance_Exception.
      destruct (isinstance e NoAnswer), (isinstance e NoNameservers),
        (isinstance e Timeout); exact Hgo.
Qed.

(** X4.  For every resolver the collector returns, in the order of the
    queries, what each queried type collected, and the types queried are
    a non-empty prefix of [RECORD_TYPES]: no type is queried twice or
    out of order. *)
Theorem collector_returns_what_was_queried :
  scan_dns_records resolve domain =
    Ret (flat_map (collected resolve domain) (resolver_calls resolve domain)) /\
  exists n, 0 < n /\ resolver_calls resolve domain = firstn n RECORD_TYPES.
Proof.
  unfold scan_dns_records, resolver_calls, scan_dns_records_traced.
  destruct (scan_types_prefix RECORD_TYPES [] []) as (n & E & Hn).
  rewrite E. simpl. split; [reflexivity|].
  exists n. split; [apply Hn; discriminate | reflexivity].
Qed.

Lemma build_record_priority (rtype : string) (t : Z) (rd : rdata) (r : record) :
  build_record rtype t rd = Ret r ->
  (priority r <> None <-> rtype = "MX") /\
  (forall preference, priority r = Some preference ->
                      rd_preference rd = Some preference) /\
  _extract_record_value rd rtype = Ret (record_value r).
Proof.
  unfold build_record.
  destruct (_extract_record_value rd rtype) as [v|]; simpl; [|discriminate].
  destruct (String.eqb_spec rtype "MX") as [E|E].
  - destruct (rd_preference rd); simpl; [|discriminate].
    intros [= <-]. simpl. repeat split; try congruence; try (now intros p [= <-]).
  - intros [= <-]. simpl. repeat split; try congruence; try discriminate;
      try (intros H; now elim H).
Qed.

(** X5.  Every record the collector returns has one of the seven types,
    carries the TTL of the answer to the query for its type and the
    value the normalizer gives for one of that answer's records, and has
    a priority exactly when its type is MX, then the preference of that
    record. *)
Theorem collected_records_are_well_formed (results : list record) (r : record) :
  scan_dns_records resolve domain = Ret results ->
  In r results ->
  In (record_type r) RECORD_TYPES /\
  (priority r <> None <-> record_type r = "MX") /\
  exists a rd,
    resolve domain (record_type r) = Ret a /\
    In rd (answers_rdata a) /\
    ttl r = answers_ttl a /\
    _extract_record_value rd (record_type r) = Ret (record_value r) /\
    (forall preference, priority r = Some preference ->
                        rd_preference rd = Some preference).
Proof.
  intros Hres Hin.
  assert (Q : scan_dns_records resolve domain =
                Ret (flat_map (collected resolve domain)
                       (resolver_calls resolve domain)) /\
              exists n, resolver_calls resolve domain = firstn n RECORD_TYPES).
  { unfold scan_dns_records, resolver_calls, scan_dns_records_traced.
    destruct (scan_types_prefix RECORD_TYPES [] []) as (n & E & _).
    rewrite E. simpl. split; [reflexivity | now exists n]. }
  destruct Q as (E & n & Hcalls).
  rewrite Hres in E. injection E as ->.
  apply in_flat_map in Hin. destruct Hin as (t & Ht & Hr).
  rewrite Hcalls in Ht.
  assert (Ht' : In t RECORD_TYPES).
  { rewrite <- (firstn_skipn n RECORD_TYPES). apply in_or_app. now left. }
  clear Ht. rename Ht' into Ht.
  unfold collected, try_body in Hr.
  destruct (resolve domain t) as [a|e] eqn:R; simpl in Hr; [|contradiction].
  apply append_records_sound in Hr. destruct Hr as (rd & Hrd & Hb).
  destruct (build_record_type _ _ _ _ Hb) as [Hty Httl].
  destruct (build_record_priority _ _ _ _ Hb) as (Hp & Hpref & Hv).
  rewrite Hty. split; [exact Ht|]. split; [exact Hp|].
  exists a, rd. auto.
Qed.

End CollectorMore.

Section CollectorExamples.

Import Dns Shapes Examples.

Lemma collected_records_are_well_formed_mx :
  In "MX" RECORD_TYPES /\
  (Some 10%Z <> None <-> "MX" = "MX") /\
  exists a rd,
    flaky_resolver "example.com" "MX" = Ret a /\
    In rd (answers_rdata a) /\
    600%Z = answers_ttl a /\
    _extract_record_value rd "MX" = Ret "mail.example.com" /\
    (forall preference, Some 10%Z = Some preference ->
                        rd_preference rd = Some preference).
Proof.
  apply (collected_records_are_well_formed flaky_resolver "example.com"
           [ {| record_type := "MX"; record_value := "mail.example.com";
                ttl := 600; priority := Some 10%Z |} ]
           {| record_type := "MX"; record_value := "mail.example.com";
              ttl := 600; priority := Some 10%Z |}).
  - reflexivity.
  - now left.
Defined.

(** X6.  When a record of an answer fails to normalize, the records of
    the answer before it are kept and the rest of the answer is dropped:
    the type collects the records built from the ones before. *)
Theorem records_before_a_failure_are_kept
    (resolve : resolver) (domain rtype : string) (a : answers)
    (before after : list rdata) (failing : rdata) (e : exn)
    (built : list record) :
  resolve domain rtype = Ret a ->
  answers_rdata a = (before ++ failing :: after)%list ->
  Forall2 (fun rd r => build_record rtype (answers_ttl a) rd = Ret r) before built ->
  build_record rtype (answers_ttl a) failing = Raise e ->
  collected resolve domain rtype = built.
Proof.
  intros R Hsplit Hb Hf. unfold collected, try_body. rewrite R, Hsplit.
  clear R Hsplit.
  induction Hb as [|rd r rds rs Hr _ IH]; simpl.
  - now rewrite Hf.
  - rewrite Hr, append_records_app. simpl. now rewrite IH.
Qed.

Lemma records_before_a_failure_are_kept_txt :
  collected three_txt_resolver "example.com" "TXT" =
    [ {| record_type := "TXT"; record_value := "first";
         ttl := 300; priority := None |} ].
Proof.
  apply (records_before_a_failure_are_kept three_txt_resolver "example.com" "TXT"
           {| answers_ttl := 300;
              answers_rdata :=
                [txt_of [Bytes (list_byte_of_string "first")];
                 txt_of [Bytes [xff]];
                 txt_of [Bytes (list_byte_of_string "third")]] |}
           [txt_of [Bytes (list_byte_of_string "first")]]
           [txt_of [Bytes (list_byte_of_string "third")]]
           (txt_of [Bytes [xff]])
           (Exn UnicodeDecodeError "'utf-8' codec can't decode bytes")).
  - reflexivity.
  - reflexivity.
  - repeat constructor.
  - reflexivity.
Defined.

End CollectorExamples.

(* ================================================================== *)
(** * More on the WHOIS collector *)
(* ================================================================== *)

Section WhoisMore.

Import Whois Fields Examples.

Lemma lowered_entries_texts (items : list value) :
  Forall (fun v => truthy v = true -> is_text v) items ->
  lowered_entries items = Ret (cleaned (texts_of items)).
Proof.
  unfold cleaned. induction 1 as [|v items Hv _ IH]; simpl; [reflexivity|].
  destruct (truthy v) eqn:T.
  - destruct (Hv eq_refl) as [s ->]. simpl in *.
    rewrite T, IH. reflexivity.
  - rewrite IH. destruct v; simpl in *; try reflexivity.
    apply negb_false_iff in T. now rewrite T.
Qed.

Lemma lowered_entries_raises (items : list value) :
  Exists (fun v => truthy v = true /\ ~ is_text v) items ->
  exists msg, lowered_entries items = Raise (Exn AttributeError msg).
Proof.
  induction items as [|v items IH]; intros H; [inversion H|].
  simpl. destruct (truthy v) eqn:T.
  - destruct v; try (now eexists).
    assert (Hrest : Exists (fun v => truthy v = true /\ ~ is_text v) items).
    { inversion H as [? ? [_ Hn]|]; subst; [|assumption].
      elim Hn. now exists s. }
    destruct (IH Hrest) as [msg ->]. now exists msg.
  - apply IH. inversion H as [? ? [Ht _]|]; subst; [congruence | assumption].
Qed.

(** X9.  For a list of any items the name-server normalizer skips the
    falsy ones ([None], the empty string, zero, the empty list).  When
    the others are all strings the result is that of the list of these
    strings; when one of them is not a string the call raises
    [AttributeError].  A number or a date in place of the list raises
    [TypeError]. *)
Theorem nameservers_skip_falsy_and_reject_non_strings (items : list value) :
  (Forall (fun v => truthy v = true -> is_text v) items ->
   _normalize_nameservers (VList items) =
   _normalize_nameservers (VList (map VStr (texts_of items)))) /\
  (Exists (fun v => truthy v = true /\ ~ is_text v) items ->
   exists msg, _normalize_nameservers (VList items) = Raise (Exn AttributeError msg)) /\
  (forall z, exists msg, _normalize_nameservers (VInt z) = Raise (Exn TypeError msg)) /\
  (forall d, exists msg, _normalize_nameservers (VDatetime d) = Raise (Exn TypeError msg)).
Proof.
  split; [|split; [|split]].
  - intros H. unfold _normalize_nameservers. simpl.
    now rewrite (lowered_entries_texts items H), lowered_entries_strings.
  - intros H. unfold _normalize_nameservers. simpl.
    destruct (lowered_entries_raises items H) as [msg ->]. now exists msg.
  - intros z. now eexists.
  - intros d. now eexists.
Qed.

Lemma nameservers_skip_falsy_and_reject_non_strings_example :
  _normalize_nameservers
    (VList [VStr "NS2.Example.com."; VNone; VStr "ns1.example.com";
            VStr ""; VStr "ns1.example.com"]) =
    Ret (Some ["ns1.example.com"; "ns2.example.com"]) /\
  exists msg,
    _normalize_nameservers (VList [VInt 7]) = Raise (Exn AttributeError msg).
Proof.
  split.
  - rewrite (proj1 (nameservers_skip_falsy_and_reject_non_strings
                      [VStr "NS2.Example.com."; VNone; VStr "ns1.example.com";
                       VStr ""; VStr "ns1.example.com"])).
    + reflexivity.
    + repeat constructor; simpl; try discriminate; intros _; now eexists.
  - apply (proj1 (proj2 (nameservers_skip_falsy_and_reject_non_strings [VInt 7]))).
    constructor. split; [reflexivity|]. intros [s H]. discriminate.
Defined.

Lemma list_set_nil_iff (l : list string) : list_set l = [] <-> l = [].
Proof.
  split; [|now intros ->]. intros H. destruct l as [|x l]; [reflexivity|].
  assert (Hin : In x (list_set (x :: l))) by (apply nodup_In; now left).
  rewrite H in Hin. destruct Hin.
Qed.

(** X8.  The result depends only on the set of cleaned entries: neither
    the order of the input, nor repetitions, nor letter case, nor
    trailing dots change it. *)
Theorem nameservers_depend_on_the_set_only (names1 names2 : list string) :
  (forall x, In x (cleaned names1) <-> In x (cleaned names2)) ->
  _normalize_nameservers (VList (map VStr names1)) =
  _normalize_nameservers (VList (map VStr names2)).
Proof.
  intros Hiff. unfold _normalize_nameservers. simpl.
  rewrite !lowered_entries_strings. simpl.
  assert (Hs : sorted (list_set (cleaned names1)) = sorted (list_set (cleaned names2))).
  { apply sorted_of_any_enumeration; [apply NoDup_nodup|].
    intros x. unfold list_set. rewrite nodup_In. apply Hiff. }
  destruct (list_set (cleaned names1)) as [|a l1] eqn:E1.
  - apply (proj1 (list_set_nil_iff _)) in E1.
    assert (E2 : cleaned names2 = []).
    { destruct (cleaned names2) as [|y ys]; [reflexivity|].
      pose proof (proj2 (Hiff y) (or_introl eq_refl)) as Hin.
      rewrite E1 in Hin. destruct Hin. }
    now rewrite E2.
  - destruct (list_set (cleaned names2)) as [|b l2] eqn:E2.
    + apply (proj1 (list_set_nil_iff _)) in E2.
      assert (Hin : In a (cleaned names1)).
      { apply (nodup_In string_dec). unfold list_set in E1. rewrite E1. now left. }
      apply Hiff in Hin. rewrite E2 in Hin. destruct Hin.
    + now rewrite Hs.
Qed.

Lemma nameservers_depend_on_the_set_only_example :
  _normalize_nameservers
    (VList (map VStr ["NS1.example.com."; "ns2.example.com"])) =
  _normalize_nameservers
    (VList (map VStr ["ns2.EXAMPLE.com"; "ns1.example.com"; "ns1.example.com.."])).
Proof.
  apply nameservers_depend_on_the_set_only.
  intros x. simpl. tauto.
Defined.

Lemma sorted_of_strict (l : list string) :
  StronglySorted str_lt l -> sorted l = l.
Proof.
  intros H. apply strict_unique; [|exact H|].
  - apply sorted_strict.
    induction H as [|x l _ IH Hx]; constructor; [|exact IH].
    intros Hin. rewrite Forall_forall in Hx. exact (str_lt_irrefl _ (Hx _ Hin)).
  - intros x. apply (Permutation_in' (eq_refl x) (sorted_perm l)).
Qed.

(** X10.  Normalizing is idempotent: a result without an empty entry,
    given back as input, is returned unchanged. *)
Theorem nameservers_normalization_is_idempotent
    (names servers : list string) :
  _normalize_nameservers (VList (map VStr names)) = Ret (Some servers) ->
  ~ In "" servers ->
  _normalize_nameservers (VList (map VStr servers)) = Ret (Some servers).
Proof.
  intros H Hne.
  assert (Hprops : servers <> [] /\ StronglySorted str_lt servers /\ NoDup servers /\
                   Forall (fun x => endswith x dot = false /\ lower x = x) servers).
  { revert H. unfold _normalize_nameservers. simpl.
    rewrite lowered_entries_strings. simpl.
    destruct (list_set (cleaned names)) as [|y l] eqn:E; [discriminate|].
    intros [= Hs]. change (sorted (y :: l) = servers) in Hs.
    assert (Hnd : NoDup (y :: l)) by (rewrite <- E; apply NoDup_nodup).
    split; [|split; [|split]].
    - intros Hnil. pose proof (Permutation_length (sorted_perm (y :: l))) as L.
      rewrite Hs, Hnil in L. discriminate.
    - rewrite <- Hs. now apply sorted_strict.
    - rewrite <- Hs.
      exact (Permutation_NoDup (Permutation_sym (sorted_perm (y :: l))) Hnd).
    - apply Forall_forall. intros x Hx. apply (cleaned_entry names).
      apply (nodup_In string_dec). unfold list_set in E. rewrite E.
      rewrite <- Hs in Hx.
      exact (Permutation_in x (sorted_perm (y :: l)) Hx). }
  destruct Hprops as (Hnil & Hsorted & Hnd & Hclean).
  assert (Hc : cleaned servers = servers).
  { unfold cleaned. clear Hnil Hsorted Hnd H.
    induction servers as [|x l IH]; simpl; [reflexivity|].
    inversion Hclean as [|? ? [Hd Hl] Hrest]; subst.
    destruct (String.eqb_spec x "") as [->|_]; [elim Hne; now left|].
    simpl. rewrite Hl, (rstrip_unchanged dot x Hd). f_equal.
    apply IH; [|exact Hrest]. intros Hin. apply Hne. now right. }
  unfold _normalize_nameservers. simpl. rewrite lowered_entries_strings, Hc. simpl.
  unfold list_set. rewrite (nodup_fixed_point string_dec Hnd).
  destruct servers as [|x l]; [now elim Hnil|].
  now rewrite (sorted_of_strict (x :: l) Hsorted).
Qed.

Lemma nameservers_normalization_is_idempotent_example :
  _normalize_nameservers (VList (map VStr ["ns1.example.com"; "ns2.example.com"])) =
    Ret (Some ["ns1.example.com"; "ns2.example.com"]).
Proof.
  apply (nameservers_normalization_is_idempotent
           ["NS2.Example.com."; "ns1.example.com"; "ns1.example.com"]).
  - reflexivity.
  - simpl. intros [H | [H | []]]; discriminate.
Defined.

(** X13.  [_safe_get] gives [None] for [None], for the empty list and
    for a list that starts with [None], and for nothing else; of a
    non-empty list it gives the first item as it is, of a string the
    string. *)
Theorem safe_get_none_iff (v : value) :
  (_safe_get v = VNone <->
   v = VNone \/ v = VList [] \/ exists rest, v = VList (VNone :: rest)) /\
  (forall first rest, v = VList (first :: rest) -> _safe_get v = first) /\
  (forall s, v = VStr s -> _safe_get v = VStr s).
Proof.
  split; [|split].
  - destruct v as [| s | d | z | [|first rest]]; simpl; split; intros H;
      try discriminate; auto.
    + destruct H as [H | [H | [rest H]]]; discriminate.
    + destruct H as [H | [H | [rest H]]]; discriminate.
    + destruct H as [H | [H | [rest H]]]; discriminate.
    + right. right. exists rest. now rewrite H.
    + destruct H as [H | [H | [rest' H]]]; try discriminate. now injection H.
  - now intros first rest ->.
  - now intros s ->.
Qed.

Section Dates.

Variable fromisoformat : string -> result datetime.

(** X11.  Of a list of dates the first item decides: a list whose first
    item is not itself a list normalizes as that item alone; the empty
    list and a list that starts with a list give [None]. *)
Theorem date_of_a_list_is_date_of_its_first_item (v : value) (rest : list value) :
  (~ is_list v ->
   _normalize_date fromisoformat (VList (v :: rest)) = _normalize_date fromisoformat v) /\
  _normalize_date fromisoformat (VList []) = Ret None /\
  (is_list v -> _normalize_date fromisoformat (VList (v :: rest)) = Ret None).
Proof.
  split; [|split].
  - intros Hn. destruct v; try reflexivity. elim Hn. now eexists.
  - reflexivity.
  - intros [items ->]. reflexivity.
Qed.

(** X12.  When the parser raises nothing but [ValueError], date
    normalization always returns: a date for a [datetime] and for text
    the parser accepts, [None] for text it rejects and for anything
    else. *)
Theorem date_normalization_returns (v : value) :
  (forall s e, fromisoformat s = Raise e -> isinstance e ValueError = true) ->
  (exists r, _normalize_date fromisoformat v = Ret r) /\
  (forall d, _normalize_date fromisoformat (VDatetime d) = Ret (Some d)) /\
  (forall s d, fromisoformat s = Ret d ->
               _normalize_date fromisoformat (VStr s) = Ret (Some d)) /\
  (forall s e, fromisoformat s = Raise e ->
               _normalize_date fromisoformat (VStr s) = Ret None) /\
  (forall z, _normalize_date fromisoformat (VInt z) = Ret None).
Proof.
  intros Hv.
  assert (Hstr : forall s, exists r, _normalize_date fromisoformat (VStr s) = Ret r).
  { intros s. simpl. destruct (fromisoformat s) as [d|e] eqn:F; [eauto|].
    rewrite (Hv s e F). eauto. }
  split; [|split; [|split; [|split]]].
  - destruct v as [| s | d | z | [|first rest]].
    + now exists None.
    + exact (Hstr s).
    + now exists (Some d).
    + now exists None.
    + now exists None.
    + destruct first as [| s | d | z | items].
      * now exists None.
      * exact (Hstr s).
      * now exists (Some d).
      * now exists None.
      * now exists None.
  - reflexivity.
  - intros s d F. simpl. now rewrite F.
  - intros s e F. simpl. now rewrite F, (Hv s e F).
  - reflexivity.
Qed.

End Dates.

Lemma date_of_a_list_is_date_of_its_first_item_example :
  _normalize_date rejects_all
    (VList [VDatetime (new_year 2020); VDatetime (new_year 2021)]) =
  Ret (Some (new_year 2020)).
Proof.
  rewrite (proj1 (date_of_a_list_is_date_of_its_first_item rejects_all
                    (VDatetime (new_year 2020)) [VDatetime (new_year 2021)])).
  - reflexivity.
  - intros [items H]. discriminate.
Defined.

Lemma date_normalization_returns_example :
  _normalize_date rejects_all (VStr "not a date") = Ret None.
Proof.
  assert (H : forall s e, rejects_all s = Raise e -> isinstance e ValueError = true)
    by (intros s e [= <-]; reflexivity).
  apply (proj1 (proj2 (proj2 (proj2
           (date_normalization_returns rejects_all (VStr "not a date") H))))
         "not a date" (Exn ValueError "Invalid isoformat string")).
  reflexivity.
Defined.

Section Lookup.

Variable fromisoformat : string -> result datetime.
Variable whois_lookup : string -> result WhoisEntry.

(** X14.  [scan_whois] returns data exactly when the lookup returned an
    entry with a domain name and each field normalized; the data then
    holds the normalized fields of that entry and its raw text. *)
Theorem scan_whois_data_comes_from_the_entry (domain : string) (data : whois_result) :
  scan_whois fromisoformat whois_lookup domain = Ret (Some data) <->
  exists w,
    whois_lookup domain = Ret w /\
    w_domain_name w <> VNone /\
    registrar data = _safe_get (w_registrar w) /\
    _normalize_date fromisoformat (w_creation_date w) = Ret (creation_date data) /\
    _normalize_date fromisoformat (w_expiration_date w) = Ret (expiration_date data) /\
    _normalize_date fromisoformat (w_updated_date w) = Ret (updated_date data) /\
    _normalize_nameservers (w_name_servers w) = Ret (name_servers data) /\
    registrant_country data = _safe_get (w_country w) /\
    raw_data data = Some (w_text w).
Proof.
  unfold scan_whois, scan_whois_body. split.
  - destruct (whois_lookup domain) as [w|e]; simpl.
    2:{ destruct (isinstance e PywhoisError); [discriminate|].
        rewrite isinstance_Exception. discriminate. }
    intros H. exists w. split; [reflexivity|].
    assert (Hn : w_domain_name w <> VNone).
    { intros E. rewrite E in H. discriminate. }
    split; [exact Hn|].
    assert (H' :
      match
        (creation_date <- _normalize_date fromisoformat (w_creation_date w) ;;
         expiration_date <- _normalize_date fromisoformat (w_expiration_date w) ;;
         updated_date <- _normalize_date fromisoformat (w_updated_date w) ;;
         name_servers <- _normalize_nameservers (w_name_servers w) ;;
         Ret (Some {| registrar := _safe_get (w_registrar w);
                      creation_date := creation_date;
                      expiration_date := expiration_date;
                      updated_date := updated_date;
                      name_servers := name_servers;
                      registrant_country := _safe_get (w_country w);
                      raw_data := Some (w_text w) |}))
      with
      | Ret r => Ret r
      | Raise e =>
          if isinstance e PywhoisError then Ret None
          else if isinstance e Exception then Ret None else Raise e
      end = Ret (Some data)).
    { destruct (w_domain_name w); [now elim Hn | exact H..]. }
    clear H.
    assert (Hnone : forall e : exn,
      (if isinstance e PywhoisError then Ret None
       else if isinstance e Exception then Ret None else Raise e)
      <> Ret (Some data)).
    { intros e. destruct (isinstance e PywhoisError); [discriminate|].
      rewrite isinstance_Exception. discriminate. }
    destruct (_normalize_date fromisoformat (w_creation_date w)) as [c|e];
      simpl in H'; [|now elim (Hnone e)].
    destruct (_normalize_date fromisoformat (w_expiration_date w)) as [x|e];
      simpl in H'; [|now elim (Hnone e)].
    destruct (_normalize_date fromisoformat (w_updated_date w)) as [u|e];
      simpl in H'; [|now elim (Hnone e)].
    destruct (_normalize_nameservers (w_name_servers w)) as [n|e];
      simpl in H'; [|now elim (Hnone e)].
    injection H' as <-. simpl. repeat split; reflexivity.
  - intros (w & Hw & Hn & Hr & Hc & He & Hu & Hs & Hco & Hraw).
    rewrite Hw. simpl. rewrite Hc, He, Hu, Hs. simpl.
    destruct data as [r c x u n co raw]. simpl in *. subst.
    destruct (w_domain_name w); [now elim Hn | reflexivity..].
Qed.

End Lookup.

Lemma scan_whois_data_comes_from_the_entry_example :
  scan_whois rejects_all lookup_registered "example.com" =
    Ret (Some {| registrar := VStr "Example Registrar, Inc.";
                 creation_date := Some (new_year 2020);
                 expiration_date := None;
                 updated_date := None;
                 name_servers := Some ["ns1.example.com"; "ns2.example.com"];
                 registrant_country := VNone;
                 raw_data := Some "Domain Name: EXAMPLE.COM" |}).
Proof.
  apply (proj2 (scan_whois_data_comes_from_the_entry rejects_all lookup_registered
                  "example.com" _)).
  exists registered_entry. repeat split; try reflexivity. discriminate.
Defined.

End WhoisMore.

(* ================================================================== *)
(** * More on the orchestrator *)
(* ================================================================== *)

Section ScanOutcomes.

Import Scans Examples.

Variable env : Env.

Lemma create_scan_record_raises (domain : Domain) (s : Session) (e : exn) :
  pending s = [] -> scan_obj s = None -> inactive s = false ->
  commit_raises env (commits s) = Some e ->
  exists s',
    create_scan_record env domain s = (s', Raise e) /\ db s' = db s.
Proof.
  intros Hp Ho Ha Hc. unfold create_scan_record, bindM, db_add, db_commit. simpl.
  rewrite Ha, Hc. simpl. eexists. split; reflexivity.
Qed.

(** STEP 1 for a name not in the table, when its commit goes through. *)
Lemma get_or_create_domain_creates (name : string) (d0 : DB) :
  find (fun x => d_domain_name x =? name) (domains d0) = None ->
  commit_raises env 0 = None ->
  exists drow s1,
    get_or_create_domain env name (open_session d0) = (s1, Ret drow) /\
    d_domain_name drow = name /\
    d_is_active drow = true /\
    ~ In (d_id drow) (map d_id (domains d0)) /\
    db s1 = with_domains d0 (domains d0 ++ [drow]) /\
    pending s1 = [] /\ scan_obj s1 = None /\ commits s1 = 1 /\
    inactive s1 = false.
Proof.
  intros F C0.
  set (drow := {| d_id := next_id (map d_id (domains d0));
                  d_domain_name := name;
                  d_created_at := clock env 0;
                  d_updated_at := clock env 1;
                  d_is_active := true |}).
  exists drow. eexists. split.
  - unfold get_or_create_domain, bindM, query_domain_first, db_add, db_commit.
    simpl. rewrite F. simpl. rewrite C0. simpl. fold drow.
    unfold db_refresh_domain. simpl. fold drow.
    unfold find_domain. simpl.
    rewrite (find_app_last _ (domains d0) drow).
    + reflexivity.
    + intros y Hy. apply Nat.eqb_neq. intros E.
      assert (Hin : In (d_id y) (map d_id (domains d0))) by now apply in_map.
      rewrite E in Hin. exact (next_id_fresh _ Hin).
    + apply Nat.eqb_refl.
  - simpl. repeat (split; [reflexivity|]).
    split; [apply next_id_fresh|]. auto.
Qed.

(** STEPS 1 and 2 when one of their commits raises: the exception
    leaves the route, and nothing but, possibly, the new domain has
    reached the database. *)
Lemma setup_raises (scan_data : ScanCreate) (d0 : DB) (n : nat) (e : exn) :
  let name := lower (domain_name scan_data) in
  n < setup_commits name d0 ->
  (forall m, m < n -> commit_raises env m = None) ->
  commit_raises env n = Some e ->
  exists s,
    create_scan env scan_data (open_session d0) = (s, Raise e) /\
    scans (db s) = scans d0 /\
    dns_records (db s) = dns_records d0 /\
    whois_data (db s) = whois_data d0 /\
    subdomains (db s) = subdomains d0 /\
    (domains (db s) = domains d0 \/
     find (fun x => d_domain_name x =? name) (domains d0) = None /\
     exists drow,
       domains (db s) = (domains d0 ++ [drow])%list /\
       d_domain_name drow = name /\
       ~ In (d_id drow) (map d_id (domains d0))).
Proof.
  intros name Hn Hbefore He. unfold setup_commits in Hn. fold name in Hn.
  destruct (find (fun x => d_domain_name x =? name) (domains d0)) as [found|] eqn:F.
  - assert (n = 0) as -> by lia.
    destruct (create_scan_record_raises found (open_session d0) e
                eq_refl eq_refl eq_refl He)
      as (s' & E & Hdb).
    exists s'. unfold create_scan. fold name.
    unfold bindM at 1. unfold get_or_create_domain, bindM at 1, query_domain_first.
    simpl. rewrite F. unfold ret. unfold bindM at 1. rewrite E.
    rewrite Hdb. simpl. auto 10.
  - destruct n as [|[|n]]; [| |lia].
    + eexists. unfold create_scan. fold name.
      unfold bindM at 1. unfold get_or_create_domain, bindM at 1, query_domain_first.
      simpl. rewrite F. unfold bindM, db_add, db_commit. simpl. rewrite He.
      split; [reflexivity|]. simpl. auto 10.
    + destruct (get_or_create_domain_creates name d0 F (Hbefore 0 ltac:(lia)))
        as (drow & s1 & G & Hname & _ & Hfresh & Hdb1 & Hp1 & Ho1 & Hc1 & Ha1).
      destruct (create_scan_record_raises drow s1 e Hp1 Ho1 Ha1) as (s' & E & Hdb).
      { now rewrite Hc1. }
      exists s'. unfold create_scan. fold name.
      unfold bindM at 1. rewrite G. unfold bindM at 1. rewrite E.
      rewrite Hdb, Hdb1. simpl.
      split; [reflexivity|]. repeat (split; [reflexivity|]).
      right. split; [reflexivity|]. exists drow. auto.
Qed.

(** The commits of STEPS 1 and 2 all go through, or one of them is the
    first to raise. *)
Lemma setup_cases (name : string) (d0 : DB) :
  (forall n, n < setup_commits name d0 -> commit_raises env n = None) \/
  (exists n e, n < setup_commits name d0 /\
               (forall m, m < n -> commit_raises env m = None) /\
               commit_raises env n = Some e).
Proof.
  unfold setup_commits.
  destruct (commit_raises env 0) as [e0|] eqn:C0.
  { right. exists 0, e0. split; [destruct (find _ _); lia|]. split; [lia | exact C0]. }
  destruct (find (fun x => d_domain_name x =? name) (domains d0)).
  { left. intros n Hn. assert (n = 0) as -> by lia. exact C0. }
  destruct (commit_raises env 1) as [e1|] eqn:C1.
  - right. exists 1, e1. split; [lia|]. split; [|exact C1].
    intros m Hm. assert (m = 0) as -> by lia. exact C0.
  - left. intros n Hn. destruct n as [|[|n]]; [exact C0 | exact C1 | lia].
Qed.

(** What any request does to the two parent tables: it appends at most
    one row to each and leaves the rows before as they are. *)
Lemma run_create_scan_outcome (scan_data : ScanCreate) (d0 : DB) :
  let name := lower (domain_name scan_data) in
  let d1 := fst (run_create_scan env scan_data d0) in
  (scans d1 = scans d0 \/
   exists row, scans d1 = (scans d0 ++ [row])%list /\
               ~ In (s_id row) (map s_id (scans d0))) /\
  (domains d1 = domains d0 \/
   find (fun x => d_domain_name x =? name) (domains d0) = None /\
   exists drow,
     domains d1 = (domains d0 ++ [drow])%list /\
     d_domain_name drow = name /\
     ~ In (d_id drow) (map d_id (domains d0))).
Proof.
  intros name d1.
  destruct (setup_cases name d0) as [Hok | (n & e & Hn & Hbefore & He)].
  - destruct (setup_succeeds env name d0 Hok) as (domain & row & s1 & s2 & G & E & A).
    pose proof (after_setup_extended _ _ _ _ _ A) as X.
    destruct A as (_ & Hfresh & _ & _ & _ & _ & _ & _ & _ & Hname & _ & Hdoms & _).
    pose proof (tail_rest env (scans d0) (s_id row) (d_id domain) (domains (db s2))
                  Hfresh scan_data name row domain s2 X) as T.
    unfold d1, run_create_scan.
    rewrite (create_scan_after_setup env scan_data d0 domain row s1 s2 G E).
    fold name.
    destruct ((try_except (run_collectors env scan_data name row) (on_failure env)
               ;;; scan_results domain) s2) as [sf r].
    assert (Hsf : scans_extended (scans d0) (s_id row) (d_id domain) (domains (db s2)) sf)
      by (destruct r; exact T).
    destruct Hsf as ((r' & Hs & Hid & _) & Hd & _). simpl.
    split; [right; exists r'; rewrite Hid; auto|].
    rewrite Hd.
    destruct (find (fun x => d_domain_name x =? name) (domains d0)) as [found|] eqn:F.
    + left. tauto.
    + right. split; [reflexivity|]. exists domain.
      split; [exact Hdoms|]. split; [exact Hname|].
      destruct (get_or_create_domain_creates name d0 F)
        as (drow & s1' & G' & _ & _ & Hdf & _).
      { apply Hok. unfold setup_commits. rewrite F. lia. }
      rewrite G in G'. injection G' as _ ->. exact Hdf.
  - destruct (setup_raises scan_data d0 n e Hn Hbefore He)
      as (s & E & Hs & _ & _ & _ & Hd).
    unfold d1, run_create_scan. rewrite E. simpl.
    split; [left; exact Hs | exact Hd].
Qed.

End ScanOutcomes.

Section ScanTables.

Import Scans Examples Cases.

Lemma NoDup_map_snoc {A B} (f : A -> B) (l : list A) (x : A) :
  NoDup (map f l) -> ~ In (f x) (map f l) -> NoDup (map f (l ++ [x])).
Proof.
  intros Hnd Hx. rewrite map_app. simpl.
  apply NoDup_rev in Hnd. apply (NoDup_cons (f x)) in Hnd.
  - apply NoDup_rev in Hnd. simpl in Hnd. now rewrite rev_involutive in Hnd.
  - now rewrite <- in_rev.
Qed.

(** X17.  A request keeps the keys of [domains] and [scans] and the
    names of [domains] free of repetition, whichever of its commits
    raise: it never asks the database for a second domain of one name. *)
Theorem create_scan_keeps_keys_unique
    (env : Env) (scan_data : ScanCreate) (d0 : DB) :
  keys_unique d0 ->
  keys_unique (fst (run_create_scan env scan_data d0)).
Proof.
  intros (Hd & Hs & Hn).
  destruct (run_create_scan_outcome env scan_data d0) as [Hscans Hdoms].
  unfold keys_unique.
  destruct Hdoms as [-> | (F & drow & -> & Hname & Hfresh)].
  - split; [exact Hd|]. split; [|exact Hn].
    destruct Hscans as [-> | (row & -> & Hf)]; [exact Hs | now apply NoDup_map_snoc].
  - split; [now apply NoDup_map_snoc|]. split.
    + destruct Hscans as [-> | (row & -> & Hf)]; [exact Hs | now apply NoDup_map_snoc].
    + apply NoDup_map_snoc; [exact Hn|].
      rewrite Hname. intros Hin. apply in_map_iff in Hin.
      destruct Hin as (x & Hx & Hin).
      pose proof (find_none _ _ F x Hin) as Hne. simpl in Hne.
      rewrite Hx, String.eqb_refl in Hne. discriminate.
Qed.

Lemma create_scan_keeps_keys_unique_first :
  keys_unique (fst (run_create_scan failing_once_env dns_only_request empty_db)).
Proof.
  apply (create_scan_keeps_keys_unique failing_once_env dns_only_request empty_db).
  repeat split; constructor.
Defined.

(** X18.  Whichever commits raise, a request removes or changes no row
    of [scans] or [domains]: each table afterwards is the table before
    followed by at most one row, and a row added to [domains] carries
    the lower-cased name of the request and is active. *)
Theorem create_scan_only_appends
    (env : Env) (scan_data : ScanCreate) (d0 : DB) :
  exists new_scans new_domains,
    scans (fst (run_create_scan env scan_data d0)) = (scans d0 ++ new_scans)%list /\
    domains (fst (run_create_scan env scan_data d0)) = (domains d0 ++ new_domains)%list /\
    List.length new_scans <= 1 /\
    List.length new_domains <= 1 /\
    (forall row, In row new_scans -> ~ In (s_id row) (map s_id (scans d0))) /\
    (forall drow, In drow new_domains ->
       d_domain_name drow = lower (domain_name scan_data) /\
       ~ In (d_domain_name drow) (map d_domain_name (domains d0))).
Proof.
  destruct (run_create_scan_outcome env scan_data d0) as [Hscans Hdoms].
  assert (Hd : exists new_domains,
             domains (fst (run_create_scan env scan_data d0))
               = (domains d0 ++ new_domains)%list /\
             List.length new_domains <= 1 /\
             (forall drow, In drow new_domains ->
                d_domain_name drow = lower (domain_name scan_data) /\
                ~ In (d_domain_name drow) (map d_domain_name (domains d0)))).
  { destruct Hdoms as [-> | (F & drow & -> & Hname & _)].
    - exists []. rewrite app_nil_r. split; [reflexivity|]. split; [simpl; lia|].
      intros ? [].
    - exists [drow]. split; [reflexivity|]. split; [simpl; lia|].
      intros x [<- | []]. split; [exact Hname|].
      rewrite Hname. intros Hin. apply in_map_iff in Hin.
      destruct Hin as (y & Hy & Hin).
      pose proof (find_none _ _ F y Hin) as Hne. simpl in Hne.
      rewrite Hy, String.eqb_refl in Hne. discriminate. }
  destruct Hd as (new_domains & Hd1 & Hd2 & Hd3).
  destruct Hscans as [-> | (row & -> & Hf)].
  - exists [], new_domains. rewrite app_nil_r.
    split; [reflexivity|]. split; [exact Hd1|]. split; [simpl; lia|].
    split; [exact Hd2|]. split; [intros ? [] | exact Hd3].
  - exists [row], new_domains.
    split; [reflexivity|]. split; [exact Hd1|]. split; [simpl; lia|].
    split; [exact Hd2|]. split; [now intros x [<- | []] | exact Hd3].
Qed.

(** X20.  A commit of STEP 1 or STEP 2 that raises is not turned into a
    failed scan: its exception leaves the route as it is, and no scan
    and no record of any kind has been written. *)
Theorem early_commit_failure_propagates
    (env : Env) (scan_data : ScanCreate) (d0 : DB) (n : nat) (e : exn) :
  let name := lower (domain_name scan_data) in
  let out := run_create_scan env scan_data d0 in
  n < setup_commits name d0 ->
  (forall m, m < n -> commit_raises env m = None) ->
  commit_raises env n = Some e ->
  snd out = Raise e /\
  scans (fst out) = scans d0 /\
  dns_records (fst out) = dns_records d0 /\
  whois_data (fst out) = whois_data d0 /\
  subdomains (fst out) = subdomains d0.
Proof.
  intros name out Hn Hbefore He.
  destruct (setup_raises env scan_data d0 n e Hn Hbefore He)
    as (s & E & Hs & Hr & Hw & Hsub & _).
  unfold out, run_create_scan. rewrite E. simpl. auto.
Qed.

Lemma early_commit_failure_propagates_example :
  snd (run_create_scan unreachable_env dns_only_request empty_db)
    = Raise connection_lost /\
  scans (fst (run_create_scan unreachable_env dns_only_request empty_db)) = [].
Proof.
  destruct (early_commit_failure_propagates unreachable_env dns_only_request
              empty_db 0 connection_lost) as (H1 & H2 & _).
  - change (0 < 2). lia.
  - intros m Hm. lia.
  - reflexivity.
  - split; assumption.
Defined.

End ScanTables.

Section ScanReads.

Import Scans Examples Cases.

Lemma find_scan_none (id : nat) (d : DB) :
  find_scan id d = None <-> ~ In id (map s_id (scans d)).
Proof.
  unfold find_scan. split.
  - intros H Hin. apply in_map_iff in Hin. destruct Hin as (r & Hr & Hin).
    pose proof (find_none _ _ H r Hin) as Hne. simpl in Hne.
    rewrite Hr, Nat.eqb_refl in Hne. discriminate.
  - intros H. destruct (find _ (scans d)) as [r|] eqn:F; [|reflexivity].
    apply find_some in F. destruct F as [Hin Hid]. apply Nat.eqb_eq in Hid.
    elim H. rewrite <- Hid. now apply in_map.
Qed.

(** X15.  [get_scan] answers 404, naming the key, exactly for a key no
    row of [scans] has; a response it returns is about the scan with the
    key asked for, and holds the DNS records and subdomains of that scan
    only. *)
Theorem get_scan_404_iff_absent (scan_id : nat) (d : DB) :
  (get_scan scan_id d =
     Raise (HTTPException 404 ("Scan " ++ string_of_nat scan_id ++ " not found"))
   <-> ~ In scan_id (map s_id (scans d))) /\
  (forall resp, get_scan scan_id d = Ret resp ->
     s_id (resp_scan resp) = scan_id /\
     In (resp_scan resp) (scans d) /\
     d_id (resp_domain resp) = s_domain_id (resp_scan resp) /\
     Forall (fun r => r_scan_id r = scan_id /\ In r (dns_records d))
            (resp_dns_records resp) /\
     Forall (fun r => sub_scan_id r = scan_id /\ In r (subdomains d))
            (resp_subdomains resp)).
Proof.
  unfold get_scan. split.
  - rewrite <- find_scan_none.
    destruct (find_scan scan_id d) as [scan|]; [|tauto].
    destruct (find_domain (s_domain_id scan) d); split; discriminate.
  - intros resp.
    destruct (find_scan scan_id d) as [scan|] eqn:F; [|discriminate].
    destruct (find_domain (s_domain_id scan) d) as [domain|] eqn:G; [|discriminate].
    intros [= <-]. simpl.
    apply find_scan_some in F. destruct F as [Hin Hid].
    apply find_some in G. destruct G as [_ Gid]. apply Nat.eqb_eq in Gid.
    repeat split; auto.
    + apply Forall_forall. intros r Hr. apply filter_In in Hr.
      destruct Hr as [Hr1 Hr2]. apply Nat.eqb_eq in Hr2. split; congruence.
    + apply Forall_forall. intros r Hr. apply filter_In in Hr.
      destruct Hr as [Hr1 Hr2]. apply Nat.eqb_eq in Hr2. split; congruence.
Qed.

Lemma find_by_unique_key (l : list Domain) (x : Domain) :
  NoDup (map d_id l) -> In x l ->
  find (fun y => d_id y =? d_id x)%nat l = Some x.
Proof.
  induction l as [|y l IH]; simpl; [tauto|].
  intros Hnd. inversion Hnd as [|? ? Hnotin Hnd']; subst.
  intros [-> | Hin].
  - now rewrite Nat.eqb_refl.
  - destruct (Nat.eqb_spec (d_id y) (d_id x)) as [E|_]; [|now apply IH].
    elim Hnotin. rewrite E. now apply in_map.
Qed.

Variable env : Env.

(** STEP 7 from a session of the last phase: the response is the one
    [get_scan] gives for its scan. *)
Lemma scan_results_is_get_scan (old : list Scan) (id : nat) (domain : Domain)
    (doms : list Domain) :
  ~ In id (map s_id old) ->
  find (fun y => d_id y =? d_id domain)%nat doms = Some domain ->
  triple (scans_extended old id (d_id domain) doms)
         (scan_results domain)
         (fun resp s => get_scan (s_id (resp_scan resp)) (db s) = Ret resp)
         (fun _ => True).
Proof.
  intros Hfresh Hdom s ((r & Hs & Hid & Hdid) & Hd & _ & Hobj).
  unfold scan_results, bindM, db_refresh_scan.
  destruct (inactive s); [exact I|].
  destruct (reload (db s) (scan_obj s)) as [row|] eqn:R; [|exact I].
  simpl. unfold get_scan.
  destruct (scan_obj s) as [o|] eqn:O; simpl in R; [|discriminate].
  destruct (Hobj o eq_refl) as [Hoid _].
  pose proof (find_scan_some _ _ _ R) as [Hin Hrid].
  assert (Hrow : row = r).
  { rewrite Hs in Hin. apply in_app_or in Hin. destruct Hin as [Hin | [<- | []]].
    - exfalso. apply Hfresh. rewrite <- Hoid, <- Hrid. now apply in_map.
    - reflexivity. }
  rewrite Hrid, R. unfold find_domain. rewrite Hrow, Hdid, Hd, Hdom.
  now rewrite <- Hrow, Hrid.
Qed.

(** X16.  A response of [create_scan] can be read back: on the database
    the request leaves, [get_scan] with the key of the scan of the
    response returns that response. *)
Theorem get_scan_reads_back_the_response
    (scan_data : ScanCreate) (d0 : DB) (resp : ScanResultResponse) :
  NoDup (map d_id (domains d0)) ->
  snd (run_create_scan env scan_data d0) = Ret resp ->
  get_scan (s_id (resp_scan resp)) (fst (run_create_scan env scan_data d0)) = Ret resp.
Proof.
  intros Hkeys.
  set (name := lower (domain_name scan_data)).
  destruct (setup_cases env name d0) as [Hok | (n & e & Hn & Hbefore & He)].
  2:{ destruct (setup_raises env scan_data d0 n e Hn Hbefore He) as (s & E & _).
      unfold run_create_scan. rewrite E. discriminate. }
  destruct (setup_succeeds env name d0 Hok) as (domain & row & s1 & s2 & G & E & A).
  pose proof (after_setup_extended _ _ _ _ _ A) as X.
  destruct A as (_ & Hfresh & _ & _ & _ & _ & _ & _ & _ & Hname & Hfind & Hdoms & _).
  assert (Hdom : find (fun y => d_id y =? d_id domain)%nat (domains (db s2)) = Some domain).
  { destruct (find (fun x => d_domain_name x =? name) (domains d0)) as [found|] eqn:F.
    - destruct Hdoms as [-> ->]. apply find_by_unique_key; [exact Hkeys|].
      now apply find_some in F.
    - rewrite Hdoms.
      destruct (get_or_create_domain_creates env name d0 F)
        as (drow & s1' & G' & _ & _ & Hdf & _).
      { apply Hok. unfold setup_commits. rewrite F. lia. }
      rewrite G in G'. injection G' as _ ->.
      apply find_app_last; [|apply Nat.eqb_refl].
      intros y Hy. apply Nat.eqb_neq. intros Heq. apply Hdf. rewrite <- Heq.
      now apply in_map. }
  assert (T : triple (scans_extended (scans d0) (s_id row) (d_id domain) (domains (db s2)))
                (try_except (run_collectors env scan_data name row) (on_failure env)
                 ;;; scan_results domain)
                (fun resp s => get_scan (s_id (resp_scan resp)) (db s) = Ret resp)
                (fun _ => True)).
  { eapply triple_bind
      with (Q := fun _ => scans_extended (scans d0) (s_id row) (d_id domain)
                            (domains (db s2))).
    - eapply triple_weaken
        with (P := scans_extended (scans d0) (s_id row) (d_id domain) (domains (db s2)))
             (Q := fun _ => scans_extended (scans d0) (s_id row) (d_id domain)
                              (domains (db s2)))
             (E := scans_extended (scans d0) (s_id row) (d_id domain) (domains (db s2)));
        [|auto..].
      eapply triple_try;
        [apply tail_run_collectors; exact Hfresh
        | intros e; apply tail_on_failure; exact Hfresh].
    - intros u. now apply scan_results_is_get_scan. }
  specialize (T s2 X).
  unfold run_create_scan.
  rewrite (create_scan_after_setup env scan_data d0 domain row s1 s2 G E).
  fold name.
  destruct ((try_except (run_collectors env scan_data name row) (on_failure env)
             ;;; scan_results domain) s2) as [sf [r|e]]; simpl; [|discriminate].
  now intros [= <-].
Qed.

End ScanReads.

Section MoreExamples.

Import Dns Shapes Scans Examples Cases Responses.

Lemma stripped_value_has_no_trailing_dot_ns :
  endswith "ns1.example.com" dot = false.
Proof.
  apply (stripped_value_has_no_trailing_dot (no_attributes "ns1.example.com.") "NS").
  - discriminate.
  - discriminate.
  - reflexivity.
Defined.

Lemma ascii_txt_always_normalizes_spf :
  _extract_record_value txt_rdata "TXT" =
    Ret (String.concat ""
           (map string_of_list_byte
              [list_byte_of_string "v=spf1 ";
               list_byte_of_string "include:_spf.example.com"])).
Proof.
  apply (ascii_txt_always_normalizes txt_rdata
           [list_byte_of_string "v=spf1 ";
            list_byte_of_string "include:_spf.example.com"]).
  - reflexivity.
  - repeat constructor.
Defined.

Lemma get_scan_reads_back_the_response_first :
  get_scan (s_id (resp_scan first_response))
    (fst (run_create_scan working_env dns_only_request empty_db))
  = Ret first_response.
Proof.
  apply (get_scan_reads_back_the_response working_env dns_only_request empty_db
           first_response).
  - constructor.
  - vm_compute. reflexivity.
Defined.

End MoreExamples.

(* ================================================================== *)
(** * What a scan stores *)
(* ================================================================== *)

Section StoredRows.

Import Scans Examples Cases Responses.

Variable env : Env.

Lemma write_back_children (o : option Scan) (d : DB) :
  dns_records (write_back o d) = dns_records d /\
  whois_data (write_back o d) = whois_data d /\
  subdomains (write_back o d) = subdomains d /\
  domains (write_back o d) = domains d.
Proof. destruct o; simpl; auto. Qed.

Lemma flush_parents (l : list pending_object) (s : Session) :
  Forall (fun o => ~ child_insert o) l ->
  dns_records (db (fold_left (insert_object env) l s)) = dns_records (db s) /\
  whois_data (db (fold_left (insert_object env) l s)) = whois_data (db s).
Proof.
  revert s. induction l as [|o l IH]; intros s Hl; simpl; [auto|].
  inversion Hl as [|? ? Ho Hl']; subst.
  destruct (IH (insert_object env s o) Hl') as [H1 H2].
  rewrite H1, H2. destruct o; simpl in *; tauto.
Qed.

Lemma untouched_db_commit (d0 : DB) :
  preserves (children_untouched d0) (db_commit env).
Proof.
  intros s (H1 & H2 & H3). unfold db_commit.
  destruct (inactive s); [now repeat split|].
  destruct (commit_raises env (commits s)).
  - repeat split; simpl; auto.
  - destruct (flush_parents (pending s) s H3) as [F1 F2].
    destruct (write_back_children
                (scan_obj (fold_left (insert_object env) (pending s) s))
                (db (fold_left (insert_object env) (pending s) s)))
      as (W1 & W2 & _).
    repeat split; simpl; [congruence | congruence | constructor].
Qed.

Lemma untouched_db_add (d0 : DB) (o : pending_object) :
  ~ child_insert o -> preserves (children_untouched d0) (db_add o).
Proof.
  intros Ho s (H1 & H2 & H3). repeat split; simpl; auto.
  apply Forall_app. split; [exact H3 | now constructor].
Qed.

Lemma untouched_get_or_create_domain (d0 : DB) (name : string) :
  preserves (children_untouched d0) (get_or_create_domain env name).
Proof.
  unfold get_or_create_domain.
  eapply triple_bind with (Q := fun _ => children_untouched d0).
  - intros s Hs. unfold query_domain_first. now destruct (inactive s).
  - intros [d|]; [now apply triple_ret|].
    eapply triple_bind; [apply untouched_db_add; simpl; tauto|]. intros u.
    eapply triple_bind; [apply untouched_db_commit|]. intros u' s Hs.
    unfold db_refresh_domain.
    destruct (inactive s); [exact Hs|].
    destruct (domain_obj s) as [obj|]; [|exact Hs].
    now destruct (find_domain (d_id obj) (db s)).
Qed.

Lemma untouched_create_scan_record (d0 : DB) (domain : Domain) :
  preserves (children_untouched d0) (create_scan_record env domain).
Proof.
  unfold create_scan_record.
  eapply triple_bind; [apply untouched_db_add; simpl; tauto|]. intros u.
  eapply triple_bind; [apply untouched_db_commit|]. intros u' s Hs.
  unfold db_refresh_scan.
  destruct (inactive s); [exact Hs|].
  destruct (reload (db s) (scan_obj s)); [|exact Hs].
  destruct Hs as (H1 & H2 & H3). now repeat split.
Qed.

(** STEPS 1 and 2 write no collected row. *)
Lemma setup_keeps_children (d0 : DB) (name : string) (domain : Domain)
    (row : Scan) (s1 s2 : Session) :
  get_or_create_domain env name (open_session d0) = (s1, Ret domain) ->
  create_scan_record env domain s1 = (s2, Ret row) ->
  dns_records (db s2) = dns_records d0 /\ whois_data (db s2) = whois_data d0.
Proof.
  intros G E.
  assert (H0 : children_untouched d0 (open_session d0)).
  { repeat split. constructor. }
  pose proof (untouched_get_or_create_domain d0 name _ H0) as H1.
  rewrite G in H1.
  pose proof (untouched_create_scan_record d0 domain _ H1) as H2.
  rewrite E in H2. destruct H2 as (? & ? & _). auto.
Qed.

Lemma flush_dns_objects (id : nat) (records : list Dns.record) (s : Session) :
  exists rows,
    dns_records (db (fold_left (insert_object env) (map (dns_object id) records) s))
      = (dns_records (db s) ++ rows)%list /\
    Forall2 (stored_as id) records rows /\
    whois_data (db (fold_left (insert_object env) (map (dns_object id) records) s))
      = whois_data (db s).
Proof.
  revert s. induction records as [|record records IH]; intros s; simpl.
  - exists []. rewrite app_nil_r. repeat split. constructor.
  - destruct (IH (insert_object env s (dns_object id record))) as (rows & H1 & H2 & H3).
    simpl in H1, H3. eexists (_ :: rows). rewrite H1, H3, <- app_assoc. simpl.
    split; [reflexivity|]. split; [|reflexivity].
    constructor; [|exact H2]. repeat split.
Qed.

(** The collected objects, flushed: one row per collected record, in
    their order, and one row for the WHOIS data when there is any. *)
Lemma flush_collected (scan_data : ScanCreate) (name : string) (scan : Scan)
    (s : Session) :
  let s' := fold_left (insert_object env)
              (collected_objects env scan_data name scan) s in
  exists records rows,
    Dns.scan_dns_records (resolve env) name = Ret records /\
    dns_records (db s') = (dns_records (db s) ++ rows)%list /\
    Forall2 (stored_as (s_id scan)) records rows /\
    match whois_collected env scan_data name with
    | Some data =>
        exists wrow,
          whois_data (db s') = (whois_data (db s) ++ [wrow])%list /\
          whois_stored_as (s_id scan) data wrow
    | None => whois_data (db s') = whois_data (db s)
    end.
Proof.
  unfold collected_objects, whois_collected.
  destruct (scan_dns_records_returns (resolve env) name) as [records ->].
  exists records.
  change (map _ records) with (map (dns_object (s_id scan)) records).
  rewrite fold_left_app.
  destruct (flush_dns_objects (s_id scan) records s) as (rows & H1 & H2 & H3).
  exists rows. split; [reflexivity|].
  destruct (include_whois scan_data); simpl; [|auto].
  destruct (Whois.scan_whois _ _ name) as [[data|]|]; simpl; auto.
  rewrite H1, H3. split; [reflexivity|]. split; [exact H2|].
  eexists. split; [reflexivity|]. repeat split.
Qed.

(** STEP 6 when its commit goes through: the waiting objects are
    flushed and the row of the scan is rewritten as completed. *)
Lemma mark_completed_commits (s : Session) (o r : Scan) (old : list Scan) :
  inactive s = false ->
  scan_obj s = Some o ->
  Forall child_insert (pending s) ->
  commit_raises env (commits s) = None ->
  scans (db s) = (old ++ [r])%list ->
  ~ In (s_id o) (map s_id old) ->
  s_id r = s_id o ->
  let completed :=
    with_completed_at (Some (clock env (ticks s))) (with_status "completed" o) in
  exists s0 s',
    mark_completed env s = (s', Ret tt) /\
    db s0 = db s /\
    db s' = write_back (Some completed)
              (db (fold_left (insert_object env) (pending s) s0)) /\
    scans (db s') = (old ++ [completed])%list /\
    scan_obj s' = Some completed /\
    inactive s' = false.
Proof.
  intros Ha Hobj Hp Hc Hscans Hfresh Hid completed.
  unfold mark_completed, bindM, set_scan, utcnow, db_commit, scan_id, ret. simpl.
  rewrite Ha, Hc, Hobj. simpl. fold completed.
  set (s0 := {| db := db s; pending := pending s; domain_obj := domain_obj s;
                scan_obj := Some completed; commits := commits s;
                ticks := S (ticks s); inactive := false |}).
  destruct (flush_children env (pending s) s0 Hp) as (F1 & F2 & F3 & _).
  exists s0. eexists. split; [reflexivity|]. simpl. rewrite F3. simpl.
  repeat split.
  apply (write_back_last completed r); [now rewrite F1 | exact Hfresh | exact Hid].
Qed.

(** The [except] block when its commit goes through, with the tables
    of collected rows. *)
Lemma on_failure_flushes (e : exn) (s : Session) (o : Scan) :
  inactive s = false ->
  scan_obj s = Some o ->
  commit_raises env (commits s) = None ->
  exists s0 s',
    on_failure env e s =
      (s', Raise (HTTPException 500 ("Scan failed: " ++ str_exn e))) /\
    db s0 = db s /\
    dns_records (db s')
      = dns_records (db (fold_left (insert_object env) (pending s) s0)) /\
    whois_data (db s')
      = whois_data (db (fold_left (insert_object env) (pending s) s0)).
Proof.
  intros Ha Hobj Hc.
  unfold on_failure, bindM, scan_id, set_scan, utcnow, db_commit, raise. simpl.
  rewrite Ha. simpl. rewrite Ha, Hc, Hobj. simpl.
  set (failed := with_completed_at _ _).
  set (s0 := {| db := db s; pending := pending s; domain_obj := domain_obj s;
                scan_obj := Some failed; commits := commits s;
                ticks := S (ticks s); inactive := false |}).
  exists s0. eexists. split; [reflexivity|]. simpl.
  destruct (write_back_children
              (scan_obj (fold_left (insert_object env) (pending s) s0))
              (db (fold_left (insert_object env) (pending s) s0)))
    as (W1 & W2 & _).
  auto.
Qed.

Lemma filter_none {A} (p : A -> bool) (l : list A) :
  (forall x, In x l -> p x = false) -> filter p l = [].
Proof.
  induction l as [|x l IH]; simpl; [reflexivity|]. intros H.
  rewrite (H x (or_introl eq_refl)). apply IH. intros y Hy. apply H. now right.
Qed.

Lemma filter_all {A} (p : A -> bool) (l : list A) :
  (forall x, In x l -> p x = true) -> filter p l = l.
Proof.
  induction l as [|x l IH]; simpl; [reflexivity|]. intros H.
  rewrite (H x (or_introl eq_refl)). f_equal. apply IH. intros y Hy. apply H. now right.
Qed.

Lemma stored_rows_scan (id : nat) (records : list Dns.record) (rows : list DNSRecord) :
  Forall2 (stored_as id) records rows ->
  forall x, In x rows -> r_scan_id x = id.
Proof.
  induction 1 as [|record row records rows (H & _) _ IH]; intros x; simpl; [tauto|].
  intros [<- | Hin]; [exact H | now apply IH].
Qed.

Lemma find_absent {A} (p : A -> bool) (l : list A) :
  (forall x, In x l -> p x = false) -> find p l = None.
Proof.
  intros H. destruct (find p l) as [x|] eqn:F; [|reflexivity].
  apply find_some in F. destruct F as [Hin Hp]. now rewrite (H x Hin) in Hp.
Qed.

(** X19.  A request without the subdomain step whose commits go
    through is answered with the completed scan: the scan is the row
    appended to [scans], linked to the domain of the lower-cased name;
    its DNS records are the rows stored for the records the collector
    returned, one for one and in their order; its WHOIS row holds the
    data of the lookup when that is requested and gives any; it has no
    subdomain. *)
Theorem completed_scan_stores_what_was_collected
    (scan_data : ScanCreate) (d0 : DB) :
  let name := lower (domain_name scan_data) in
  let out := run_create_scan env scan_data d0 in
  include_subdomains scan_data = false ->
  (forall n, n <= setup_commits name d0 -> commit_raises env n = None) ->
  children_have_scans d0 ->
  exists resp records,
    snd out = Ret resp /\
    Dns.scan_dns_records (resolve env) name = Ret records /\
    s_status (resp_scan resp) = "completed" /\
    s_completed_at (resp_scan resp) <> None /\
    s_error_message (resp_scan resp) = None /\
    scans (fst out) = (scans d0 ++ [resp_scan resp])%list /\
    d_domain_name (resp_domain resp) = name /\
    s_domain_id (resp_scan resp) = d_id (resp_domain resp) /\
    Forall2 (stored_as (s_id (resp_scan resp))) records (resp_dns_records resp) /\
    dns_records (fst out) = (dns_records d0 ++ resp_dns_records resp)%list /\
    match whois_collected env scan_data name with
    | Some data =>
        exists wrow,
          resp_whois resp = Some wrow /\
          whois_stored_as (s_id (resp_scan resp)) data wrow
    | None => resp_whois resp = None
    end /\
    resp_subdomains resp = [].
Proof.
  intros name out Hsub Hc (Hch1 & Hch2 & Hch3).
  destruct (setup_succeeds env name d0) as (domain & row & s1 & s2 & G & E & A).
  { intros n Hn. apply Hc. lia. }
  destruct (setup_keeps_children d0 name domain row s1 s2 G E) as [Kd Kw].
  destruct A as (Hs & Hfresh & Hdid & Hst & Hdone & Hmsg & Hobj & Hp & Hk & Hname
                 & _ & _ & Hsubs & Ha).
  set (extra := collected_objects env scan_data name row).
  assert (Hextra : pending (add_pending s2 extra) = extra) by (simpl; now rewrite Hp).
  destruct (mark_completed_commits (add_pending s2 extra) row row (scans d0))
    as (s0 & s3 & M & Hdb0 & Hdb3 & Hs3 & Hobj3 & Ha3); auto.
  { rewrite Hextra.
    eapply Forall_impl; [apply record_insert_child | apply collected_objects_records]. }
  { simpl. rewrite Hk. apply Hc. lia. }
  rewrite Hextra in Hdb3. simpl in Hdb0.
  change (ticks (add_pending s2 extra)) with (ticks s2) in Hdb3, Hs3, Hobj3.
  set (completed := with_completed_at (Some (clock env (ticks s2)))
                      (with_status "completed" row)) in *.
  destruct (flush_collected scan_data name row s0)
    as (records & rows & Hrec & Hdns & Hst2 & Hwho).
  fold extra in Hdns, Hwho.
  set (sF := fold_left (insert_object env) extra s0) in *.
  destruct (write_back_children (Some completed) (db sF)) as (W1 & W2 & W3 & _).
  rewrite <- Hdb3 in W1, W2, W3.
  assert (Hsub3 : subdomains (db s3) = subdomains d0).
  { rewrite W3. unfold sF.
    rewrite (flush_records env extra s0 (collected_objects_records env scan_data name row)).
    now rewrite Hdb0. }
  rewrite Hdb0, Kd in Hdns. rewrite Hdb0, Kw in Hwho.
  assert (Hid : forall k, In k (map s_id (scans d0)) -> (k =? s_id row)%nat = false).
  { intros k Hk'. apply Nat.eqb_neq. intros ->. contradiction. }
  assert (Hout : out =
            (db s3,
             Ret {| resp_scan := completed;
                    resp_domain := domain;
                    resp_dns_records :=
                      filter (fun r => r_scan_id r =? s_id row)%nat (dns_records (db s3));
                    resp_whois :=
                      find (fun r => wd_scan_id r =? s_id row)%nat (whois_data (db s3));
                    resp_subdomains :=
                      filter (fun r => sub_scan_id r =? s_id row)%nat
                        (subdomains (db s3)) |})).
  { unfold out, run_create_scan.
    rewrite (create_scan_after_setup env scan_data d0 domain row s1 s2 G E).
    fold name. unfold bindM at 1. unfold try_except.
    rewrite run_collectors_eq, Hsub. fold extra. rewrite M.
    unfold scan_results, bindM, db_refresh_scan. rewrite Ha3, Hobj3. simpl.
    change (find_scan (s_id row) (db s3))
      with (find_scan (s_id completed) (db s3)).
    rewrite (find_scan_last (scans d0) completed (db s3) Hs3 Hfresh).
    reflexivity. }
  assert (Hfilter : filter (fun r => r_scan_id r =? s_id row)%nat (dns_records (db s3))
                    = rows).
  { rewrite W1, Hdns, filter_app, filter_none, filter_all; [reflexivity| |].
    - intros x Hx. apply Nat.eqb_eq. exact (stored_rows_scan _ _ _ Hst2 x Hx).
    - intros x Hx. apply Hid. now apply Hch1. }
  exists {| resp_scan := completed;
            resp_domain := domain;
            resp_dns_records :=
              filter (fun r => r_scan_id r =? s_id row)%nat (dns_records (db s3));
            resp_whois :=
              find (fun r => wd_scan_id r =? s_id row)%nat (whois_data (db s3));
            resp_subdomains :=
              filter (fun r => sub_scan_id r =? s_id row)%nat (subdomains (db s3)) |},
         records.
  rewrite Hout. simpl. rewrite Hfilter.
  split; [reflexivity|]. split; [exact Hrec|]. split; [reflexivity|].
  split; [discriminate|]. split; [exact Hmsg|]. split; [exact Hs3|].
  split; [exact Hname|]. split; [exact Hdid|]. split; [exact Hst2|].
  split; [now rewrite W1|]. split.
  - rewrite W2. destruct (whois_collected env scan_data name) as [data|].
    + destruct Hwho as (wrow & -> & Hw). exists wrow. split; [|exact Hw].
      apply find_app_last.
      * intros y Hy. apply Hid. now apply Hch2.
      * destruct Hw as [-> _]. apply Nat.eqb_refl.
    + rewrite Hwho. apply find_absent. intros y Hy. apply Hid. now apply Hch2.
  - rewrite Hsub3. apply filter_none. intros x Hx. apply Hid. now apply Hch3.
Qed.

(** X21.  A scan that fails on the subdomain step keeps what was
    collected before: the commit of the [except] block stores, with the
    failed scan, one row per DNS record the collector returned and the
    WHOIS data of the lookup. *)
Theorem failed_scan_keeps_collected_records
    (scan_data : ScanCreate) (d0 : DB) :
  let name := lower (domain_name scan_data) in
  let out := run_create_scan env scan_data d0 in
  include_subdomains scan_data = true ->
  (forall n, n <= setup_commits name d0 -> commit_raises env n = None) ->
  exists row records rows,
    scans (fst out) = (scans d0 ++ [row])%list /\
    s_status row = "failed" /\
    Dns.scan_dns_records (resolve env) name = Ret records /\
    dns_records (fst out) = (dns_records d0 ++ rows)%list /\
    Forall2 (stored_as (s_id row)) records rows /\
    match whois_collected env scan_data name with
    | Some data =>
        exists wrow,
          whois_data (fst out) = (whois_data d0 ++ [wrow])%list /\
          whois_stored_as (s_id row) data wrow
    | None => whois_data (fst out) = whois_data d0
    end.
Proof.
  intros name out Hsub Hc.
  destruct (setup_succeeds env name d0) as (domain & row & s1 & s2 & G & E & A).
  { intros n Hn. apply Hc. lia. }
  destruct (setup_keeps_children d0 name domain row s1 s2 G E) as [Kd Kw].
  destruct A as (Hs & Hfresh & _ & _ & _ & _ & Hobj & Hp & Hk & _ & _ & _ & _ & Ha).
  set (extra := collected_objects env scan_data name row).
  set (e := Exn TypeError "'coroutine' object is not iterable").
  assert (Hextra : pending (add_pending s2 extra) = extra) by (simpl; now rewrite Hp).
  assert (Hcommit : commit_raises env (commits (add_pending s2 extra)) = None).
  { simpl. rewrite Hk. apply Hc. lia. }
  destruct (on_failure_commits env e (add_pending s2 extra) row row (scans d0))
    as (s3 & F & Hs3 & _); auto.
  { rewrite Hextra.
    eapply Forall_impl; [apply record_insert_child | apply collected_objects_records]. }
  destruct (on_failure_flushes e (add_pending s2 extra) row Ha Hobj Hcommit)
    as (s0 & s3' & F' & Hdb0 & Hd3 & Hw3).
  rewrite F in F'. injection F' as <-.
  rewrite Hextra in Hd3, Hw3. simpl in Hdb0.
  destruct (flush_collected scan_data name row s0)
    as (records & rows & Hrec & Hdns & Hst2 & Hwho).
  fold extra in Hdns, Hwho.
  rewrite Hdb0, Kd, <- Hd3 in Hdns. rewrite Hdb0, Kw, <- Hw3 in Hwho.
  assert (Hout : fst out = db s3).
  { unfold out, run_create_scan.
    rewrite (create_scan_after_setup env scan_data d0 domain row s1 s2 G E).
    fold name. unfold bindM at 1. unfold try_except.
    rewrite run_collectors_eq, Hsub. fold extra e.
    now rewrite isinstance_Exception, F. }
  rewrite Hout. eexists. exists records, rows.
  split; [exact Hs3|]. split; [reflexivity|]. auto.
Qed.

End StoredRows.

Section StoredRowsExamples.

Import Scans Examples Cases Responses.

Lemma completed_scan_stores_what_was_collected_first :
  exists resp records,
    snd (run_create_scan working_env dns_only_request empty_db) = Ret resp /\
    Dns.scan_dns_records flaky_resolver "example.com" = Ret records /\
    s_status (resp_scan resp) = "completed" /\
    Forall2 (stored_as (s_id (resp_scan resp))) records (resp_dns_records resp) /\
    resp_whois resp = None /\
    resp_subdomains resp = [].
Proof.
  destruct (completed_scan_stores_what_was_collected working_env
              dns_only_request empty_db)
    as (resp & records & H1 & H2 & H3 & _ & _ & _ & _ & _ & H9 & _ & H11 & H12).
  - reflexivity.
  - intros n Hn. reflexivity.
  - repeat split; intros r [].
  - exists resp, records. repeat (split; [assumption|]). assumption.
Defined.

Lemma failed_scan_keeps_collected_records_default :
  exists row records rows,
    scans (fst (run_create_scan working_env (ScanCreate_defaults "example.com")
                  empty_db)) = [row] /\
    s_status row = "failed" /\
    Dns.scan_dns_records flaky_resolver "example.com" = Ret records /\
    dns_records (fst (run_create_scan working_env (ScanCreate_defaults "example.com")
                        empty_db)) = rows /\
    Forall2 (stored_as (s_id row)) records rows.
Proof.
  destruct (failed_scan_keeps_collected_records working_env
              (ScanCreate_defaults "example.com") empty_db)
    as (row & records & rows & H1 & H2 & H3 & H4 & H5 & _).
  - reflexivity.
  - intros n Hn. reflexivity.
  - exists row, records, rows. repeat (split; [assumption|]). assumption.
Defined.

End StoredRowsExamples.

(* ================================================================== *)
(** * Properties: the domains router *)
(* ================================================================== *)

Section DomainFacts.

Import Scans Domains Examples Cases Responses.

Lemma find_domain_last (d : DB) (row : Domain) :
  ~ In (d_id row) (map d_id (domains d)) ->
  find_domain (d_id row) (with_domains d (domains d ++ [row])) = Some row.
Proof.
  intros Hfresh. unfold find_domain. simpl. apply find_app_last.
  - intros y Hy. apply Nat.eqb_neq. intros E. apply Hfresh. rewrite <- E.
    now apply in_map.
  - apply Nat.eqb_refl.
Qed.

Lemma existsb_name (name : string) (l : list Domain) :
  existsb (fun x => d_domain_name x =? name) l = true <->
  In name (map d_domain_name l).
Proof.
  rewrite existsb_exists, in_map_iff. split.
  - intros (x & Hin & Hx). apply String.eqb_eq in Hx. now exists x.
  - intros (x & Hx & Hin). exists x. split; [exact Hin | now apply String.eqb_eq].
Qed.

Lemma find_name_none (name : string) (l : list Domain) :
  find (fun x => d_domain_name x =? name) l = None <->
  ~ In name (map d_domain_name l).
Proof.
  split.
  - intros H Hin. apply in_map_iff in Hin. destruct Hin as (x & Hx & Hin).
    pose proof (find_none _ _ H x Hin) as Hne. simpl in Hne.
    rewrite Hx, String.eqb_refl in Hne. discriminate.
  - intros H. destruct (find _ l) as [x|] eqn:F; [|reflexivity].
    apply find_some in F. destruct F as [Hin Hx]. apply String.eqb_eq in Hx.
    elim H. rewrite <- Hx. now apply in_map.
Qed.

(** X22.  A domain that [create_domain] returns is stored under the
    lower-cased name, which no row had, is active, can be read back by
    its key, and adds one to the total of every listing. *)
Theorem created_domain_can_be_read
    (env : Env) (domain_data : DomainCreate) (d : DB) (row : Domain)
    (skip limit : nat) :
  let out := create_domain env domain_data d in
  snd out = Ret row ->
  d_domain_name row = lower (dc_domain_name domain_data) /\
  d_is_active row = true /\
  ~ In (d_domain_name row) (map d_domain_name (domains d)) /\
  domains (fst out) = (domains d ++ [row])%list /\
  scans (fst out) = scans d /\
  get_domain (d_id row) (fst out) = Ret row /\
  dl_total (list_domains skip limit (fst out))
    = S (dl_total (list_domains skip limit d)).
Proof.
  unfold create_domain.
  destruct (find _ (domains d)) as [existing|]; simpl; [discriminate|].
  destruct (commit_raises env 0) as [e|]; simpl; [discriminate|].
  destruct (existsb _ (domains d)) eqn:X; simpl; [discriminate|].
  intros [= <-]. simpl.
  split; [reflexivity|]. split; [reflexivity|]. split.
  { intros Hin. apply existsb_name in Hin. congruence. }
  split; [reflexivity|]. split; [reflexivity|]. split.
  - unfold get_domain.
    set (row := {| d_id := next_id (map d_id (domains d)) |}).
    change (next_id (map d_id (domains d))) with (d_id row).
    rewrite (find_domain_last d row); [reflexivity | apply next_id_fresh].
  - unfold active_domains. simpl. rewrite filter_app, length_app. simpl. lia.
Qed.

(** X23.  The existence check of [create_domain] looks for the name as it was
    sent, the row is stored under the lower-cased name: a name that
    differs from a stored one by its case only is not answered 400 but
    refused by the unique constraint, and the table stays as it is. *)
Theorem create_domain_checks_the_name_as_sent
    (env : Env) (domain_data : DomainCreate) (d : DB) :
  let name := dc_domain_name domain_data in
  ~ In name (map d_domain_name (domains d)) ->
  In (lower name) (map d_domain_name (domains d)) ->
  commit_raises env 0 = None ->
  create_domain env domain_data d = (d, Raise unique_violation).
Proof.
  intros name Hraw Hlow Hc. unfold create_domain. fold name.
  rewrite (proj2 (find_name_none name (domains d)) Hraw), Hc.
  now rewrite (proj2 (existsb_name (lower name) (domains d)) Hlow).
Qed.

Lemma find_id_in (l : list Domain) (x : Domain) :
  NoDup (map d_id l) -> In x l ->
  find (fun y => d_id y =? d_id x)%nat l = Some x.
Proof.
  induction l as [|y l IH]; simpl; [tauto|].
  intros Hnd. inversion Hnd as [|? ? Hnotin Hnd']; subst.
  intros [-> | Hin].
  - now rewrite Nat.eqb_refl.
  - destruct (Nat.eqb_spec (d_id y) (d_id x)) as [E|_]; [|now apply IH].
    elim Hnotin. rewrite E. now apply in_map.
Qed.

Lemma find_map_domains (p : Domain -> bool) (f : Domain -> Domain)
    (l : list Domain) :
  (forall x, p (f x) = p x) ->
  find p (map f l) = option_map f (find p l).
Proof.
  intros H. induction l as [|x l IH]; simpl; [reflexivity|].
  rewrite H. now destruct (p x).
Qed.

Section SoftDelete.

Variable env : Env.
Variable domain_id : nat.

Local Abbreviation update := (soft_delete env domain_id).

Lemma update_id (r : Domain) : d_id (update r) = d_id r.
Proof. unfold soft_delete. now destruct (d_id r =? domain_id)%nat. Qed.

Lemma update_name (r : Domain) : d_domain_name (update r) = d_domain_name r.
Proof. unfold soft_delete. now destruct (d_id r =? domain_id)%nat. Qed.

Lemma delete_domain_commits (d : DB) (row : Domain) :
  find_domain domain_id d = Some row ->
  commit_raises env 0 = None ->
  snd (delete_domain env domain_id d) = Ret tt /\
  scans (fst (delete_domain env domain_id d)) = scans d /\
  (d_is_active row = true ->
   domains (fst (delete_domain env domain_id d)) = map update (domains d)) /\
  (d_is_active row = false -> fst (delete_domain env domain_id d) = d).
Proof.
  intros F Hc. unfold delete_domain. rewrite F, Hc.
  destruct (d_is_active row); simpl; repeat split; auto; discriminate.
Qed.

(** After a delete whose commit goes through, the rows are the rows
    before under their keys and names; the row of the key is inactive. *)
Lemma delete_domain_rows (d : DB) (row : Domain) :
  find_domain domain_id d = Some row ->
  commit_raises env 0 = None ->
  let d1 := fst (delete_domain env domain_id d) in
  map d_id (domains d1) = map d_id (domains d) /\
  map d_domain_name (domains d1) = map d_domain_name (domains d) /\
  (forall p : Domain -> bool, (forall x, p (update x) = p x) ->
     find p (domains d1) = option_map update (find p (domains d)) \/
     domains d1 = domains d) /\
  exists row',
    find_domain domain_id d1 = Some row' /\
    d_id row' = domain_id /\
    d_domain_name row' = d_domain_name row /\
    d_created_at row' = d_created_at row /\
    d_is_active row' = false.
Proof.
  intros F Hc d1.
  destruct (delete_domain_commits d row F Hc) as (_ & _ & Hact & Hin).
  assert (Hid : d_id row = domain_id).
  { unfold find_domain in F. apply find_some in F. now apply Nat.eqb_eq. }
  destruct (d_is_active row) eqn:A.
  - specialize (Hact eq_refl). unfold d1. rewrite Hact.
    rewrite !map_map.
    split; [apply map_ext; intros; apply update_id|].
    split; [apply map_ext; intros; apply update_name|].
    split; [intros p Hp; left; now apply find_map_domains|].
    exists (deactivated env row). unfold find_domain. simpl. rewrite Hact.
    rewrite (find_map_domains (fun r => d_id r =? domain_id)%nat update).
    + unfold find_domain in F. rewrite F. simpl. unfold soft_delete.
      rewrite Hid, Nat.eqb_refl. auto.
    + intros x. now rewrite update_id.
  - specialize (Hin eq_refl). unfold d1. rewrite Hin.
    split; [reflexivity|]. split; [reflexivity|].
    split; [intros p Hp; now right|].
    exists row. auto.
Qed.

End SoftDelete.

Lemma in_window {A} (skip limit : nat) (l : list A) (x : A) :
  In x (firstn limit (skipn skip l)) -> In x l.
Proof.
  intros H.
  rewrite <- (firstn_skipn skip l). apply in_or_app. right.
  rewrite <- (firstn_skipn limit (skipn skip l)). apply in_or_app. now left.
Qed.

(** X24.  [delete_domain] is a soft delete: when its commit goes through the
    table keeps its rows under their keys and names, the row of the key
    can still be read, with the name and creation time it had, and is
    inactive, no listing shows it, and no scan is touched. *)
Theorem delete_domain_is_a_soft_delete
    (env : Env) (domain_id : nat) (d : DB) (row : Domain) (skip limit : nat) :
  let out := delete_domain env domain_id d in
  NoDup (map d_id (domains d)) ->
  find_domain domain_id d = Some row ->
  commit_raises env 0 = None ->
  snd out = Ret tt /\
  map d_id (domains (fst out)) = map d_id (domains d) /\
  map d_domain_name (domains (fst out)) = map d_domain_name (domains d) /\
  scans (fst out) = scans d /\
  (exists row',
     get_domain domain_id (fst out) = Ret row' /\
     d_domain_name row' = d_domain_name row /\
     d_created_at row' = d_created_at row /\
     d_is_active row' = false) /\
  (forall r, In r (dl_domains (list_domains skip limit (fst out))) ->
             d_id r <> domain_id).
Proof.
  intros out Hkeys F Hc.
  destruct (delete_domain_commits env domain_id d row F Hc) as (H1 & H2 & Hact & Hin).
  destruct (delete_domain_rows env domain_id d row F Hc)
    as (H3 & H4 & _ & row' & F' & _ & Hn & Hcr & Hia).
  fold out in H1, H2, H3, H4, F', Hact, Hin.
  split; [exact H1|]. split; [exact H3|]. split; [exact H4|]. split; [exact H2|].
  split.
  { exists row'. unfold get_domain. rewrite F'. auto. }
  intros r Hr. simpl in Hr. apply in_window in Hr.
  unfold active_domains in Hr. apply filter_In in Hr.
  destruct Hr as [Hr Ha]. intros E.
  destruct (d_is_active row) eqn:A.
  - rewrite (Hact eq_refl) in Hr. apply in_map_iff in Hr.
    destruct Hr as (x & <- & Hx).
    rewrite update_id in E. unfold soft_delete in Ha.
    rewrite E, Nat.eqb_refl in Ha. discriminate.
  - rewrite (Hin eq_refl) in Hr.
    pose proof (find_id_in (domains d) r Hkeys Hr) as Fr.
    rewrite E in Fr. unfold find_domain in F. rewrite F in Fr.
    injection Fr as <-. congruence.
Qed.

(** X25.  The name of a deleted domain stays taken: [create_domain] with
    that name is answered 400, as before the delete. *)
Theorem deleted_name_stays_taken
    (env env' : Env) (domain_id : nat) (d : DB) (row : Domain) :
  let d1 := fst (delete_domain env domain_id d) in
  let name := d_domain_name row in
  find_domain domain_id d = Some row ->
  commit_raises env 0 = None ->
  create_domain env' {| dc_domain_name := name |} d1 =
    (d1, Raise (HTTPException 400 ("Domain " ++ name ++ " already exists"))).
Proof.
  intros d1 name F Hc.
  destruct (delete_domain_rows env domain_id d row F Hc) as (_ & Hnames & _).
  fold d1 in Hnames.
  unfold create_domain. simpl.
  destruct (find (fun x => d_domain_name x =? name) (domains d1)) eqn:N;
    [reflexivity|].
  apply find_name_none in N. elim N. rewrite Hnames.
  unfold find_domain in F. apply find_some in F. destruct F as [Hin _].
  now apply in_map.
Qed.


Lemma find_name_in (l : list Domain) (x : Domain) :
  NoDup (map d_domain_name l) -> In x l ->
  find (fun y => d_domain_name y =? d_domain_name x) l = Some x.
Proof.
  induction l as [|y l IH]; simpl; [tauto|].
  intros Hnd. inversion Hnd as [|? ? Hnotin Hnd']; subst.
  intros [-> | Hin].
  - now rewrite String.eqb_refl.
  - destruct (String.eqb_spec (d_domain_name y) (d_domain_name x)) as [E|_];
      [|now apply IH].
    elim Hnotin. rewrite E. now apply in_map.
Qed.

(** X26.  The two routers together: a scan of the name of a deleted domain
    is attached to the deleted row.  No domain is created, the row stays
    inactive, and the listings go on without it. *)
Theorem scan_of_a_deleted_domain_reuses_it
    (env env' : Env) (domain_id : nat) (scan_data : ScanCreate) (d : DB)
    (row : Domain) (skip limit : nat) :
  let d1 := fst (delete_domain env domain_id d) in
  let d2 := fst (run_create_scan env' scan_data d1) in
  names_unique d ->
  find_domain domain_id d = Some row ->
  lower (domain_name scan_data) = d_domain_name row ->
  commit_raises env 0 = None ->
  commit_raises env' 0 = None ->
  domains d2 = domains d1 /\
  (exists scan, scans d2 = (scans d ++ [scan])%list /\ s_domain_id scan = domain_id) /\
  (exists row', get_domain domain_id d2 = Ret row' /\ d_is_active row' = false) /\
  list_domains skip limit d2 = list_domains skip limit d1.
Proof.
  intros d1 d2 Huniq F Hname Hc Hc'.
  destruct (delete_domain_commits env domain_id d row F Hc) as (_ & Hscans & _).
  destruct (delete_domain_rows env domain_id d row F Hc)
    as (_ & Hnames & _ & row' & F' & Hid' & Hn' & _ & Hia').
  fold d1 in Hscans, Hnames, F'.
  assert (Hfind : find (fun x => d_domain_name x =? lower (domain_name scan_data))
                    (domains d1) = Some row').
  { rewrite Hname, <- Hn'. apply find_name_in.
    - unfold names_unique in Huniq. now rewrite Hnames.
    - unfold find_domain in F'. now apply find_some in F'. }
  destruct (run_create_scan_appends env' scan_data d1)
    as (domain & scan & Hs & _ & Hd & _ & _ & Hdoms).
  { unfold setup_commits. rewrite Hfind. intros n Hn.
    assert (n = 0) as -> by lia. exact Hc'. }
  rewrite Hfind in Hdoms. destruct Hdoms as [-> Hdoms]. fold d2 in Hs, Hdoms.
  split; [exact Hdoms|]. split.
  { exists scan. rewrite Hs, Hscans, Hd. auto. }
  split.
  - exists row'. unfold get_domain, find_domain. rewrite Hdoms.
    unfold find_domain in F'. rewrite F'. auto.
  - unfold list_domains, active_domains. now rewrite Hdoms.
Qed.

End DomainFacts.

Section DomainExamples.

Import Scans Domains Examples Cases Responses DomainCases.

Lemma created_domain_can_be_read_example_org :
  d_domain_name example_org = "example.org" /\
  domains (fst (create_domain working_env {| dc_domain_name := "Example.ORG" |}
                  scanned_db))
    = (domains scanned_db ++ [example_org])%list /\
  get_domain 2 (fst (create_domain working_env {| dc_domain_name := "Example.ORG" |}
                       scanned_db))
    = Ret example_org /\
  dl_total (list_domains 0 100
              (fst (create_domain working_env {| dc_domain_name := "Example.ORG" |}
                      scanned_db)))
    = S (dl_total (list_domains 0 100 scanned_db)).
Proof.
  destruct (created_domain_can_be_read working_env
              {| dc_domain_name := "Example.ORG" |} scanned_db example_org 0 100)
    as (H1 & _ & _ & H4 & _ & H6 & H7).
  - vm_compute. reflexivity.
  - repeat (split; [assumption|]). assumption.
Defined.

Lemma create_domain_checks_the_name_as_sent_after_a_scan :
  create_domain working_env mixed_case_request scanned_db
    = (scanned_db, Raise unique_violation).
Proof.
  apply (create_domain_checks_the_name_as_sent working_env mixed_case_request
           scanned_db).
  - vm_compute. intros [H | []]. discriminate.
  - vm_compute. left. reflexivity.
  - reflexivity.
Defined.

Lemma delete_domain_is_a_soft_delete_example :
  snd (delete_domain working_env 1 scanned_db) = Ret tt /\
  map d_domain_name (domains (fst (delete_domain working_env 1 scanned_db)))
    = map d_domain_name (domains scanned_db) /\
  scans (fst (delete_domain working_env 1 scanned_db)) = scans scanned_db /\
  exists row',
    get_domain 1 (fst (delete_domain working_env 1 scanned_db)) = Ret row' /\
    d_domain_name row' = "example.com" /\
    d_is_active row' = false.
Proof.
  destruct (delete_domain_is_a_soft_delete working_env 1 scanned_db
              (resp_domain first_response) 0 100)
    as (H1 & _ & H3 & H4 & (row' & H5 & H6 & _ & H8) & _).
  - vm_compute. repeat constructor. intros [].
  - vm_compute. reflexivity.
  - reflexivity.
  - split; [exact H1|]. split; [exact H3|]. split; [exact H4|].
    exists row'. split; [exact H5|]. split; [exact H6 | exact H8].
Defined.

Lemma deleted_name_stays_taken_example :
  create_domain working_env {| dc_domain_name := "example.com" |}
    (fst (delete_domain working_env 1 scanned_db))
  = (fst (delete_domain working_env 1 scanned_db),
     Raise (HTTPException 400 "Domain example.com already exists")).
Proof.
  apply (deleted_name_stays_taken working_env working_env 1 scanned_db
           (resp_domain first_response)).
  - vm_compute. reflexivity.
  - reflexivity.
Defined.

Lemma scan_of_a_deleted_domain_reuses_it_example :
  domains (fst (run_create_scan working_env dns_only_request
                  (fst (delete_domain working_env 1 scanned_db))))
    = domains (fst (delete_domain working_env 1 scanned_db)) /\
  (exists scan,
     scans (fst (run_create_scan working_env dns_only_request
                   (fst (delete_domain working_env 1 scanned_db))))
       = (scans scanned_db ++ [scan])%list /\
     s_domain_id scan = 1) /\
  exists row',
    get_domain 1 (fst (run_create_scan working_env dns_only_request
                         (fst (delete_domain working_env 1 scanned_db))))
      = Ret row' /\
    d_is_active row' = false.
Proof.
  destruct (scan_of_a_deleted_domain_reuses_it working_env working_env 1
              dns_only_request scanned_db (resp_domain first_response) 0 100)
    as (H1 & H2 & H3 & _).
  - vm_compute. repeat constructor. intros [].
  - vm_compute. reflexivity.
  - reflexivity.
  - reflexivity.
  - reflexivity.
  - split; [exact H1|]. split; [exact H2 | exact H3].
Defined.

End DomainExamples.
